(** * Audio synthesis and track rendering engine of mhpark03/music

    A shallow embedding of the synthesis core that is shared by
    [electric_music_composer.py] and [music_composer_with_score.py]
    ([music_composer_app.py] repeats the frequency table of the first file and
    the envelope of the second): pitch resolution, oscillators, the
    attack/release envelope, percussion, the beat-to-sample track renderer,
    the mixer with peak normalisation and the 16-bit export.

    Number model.  Python floats and numpy [float64] samples are embedded as
    real numbers [R] (exact arithmetic, no rounding, no NaN or infinity);
    Python integers as [Z]; numpy one-dimensional arrays as [list R].  A
    Python exception is the value [None] of an option type.  The process-wide
    numpy random generator is an explicit state that the percussion functions
    read and advance. *)

From Stdlib Require Import Reals Lra Lia ZArith.
From stdpp Require Import base option list strings pretty gmap.

Local Open Scope R_scope.

(** ** Python built-ins *)

Module Py.

(** [int(x)] on a float: truncation toward zero. *)
Definition int (x : R) : Z :=
  if Rle_dec 0 x then Zfloor x else (- Zfloor (- x))%Z.

(** [round(x)]: the nearest integer, a tie going to the even neighbour. *)
Definition round (x : R) : Z :=
  let f := Zfloor x in
  let d := x - IZR f in
  if Rlt_dec d (1 / 2) then f
  else if Rlt_dec (1 / 2) d then (f + 1)%Z
  else if Z.even f then f else (f + 1)%Z.

(** [len(l)]. *)
Definition len {A} (l : list A) : Z := Z.of_nat (length l).

(** [min(a, b)] on integers. *)
Definition min (a b : Z) : Z := Z.min a b.

(** [str(n)] for an integer, as used by an f-string. *)
Definition str (n : Z) : string := pretty n.

(** A slice [l[start:stop]] with step 1: a negative bound counts from the
    end, and both bounds are clipped to [0, len l].  [None] is an omitted
    bound.  [bounds] gives the first index and the number of elements. *)
Definition slice_index (n i : Z) : Z :=
  if (i <? 0)%Z then Z.max 0 (i + n) else Z.min i n.

Definition bounds (n : Z) (start stop : option Z) : nat * nat :=
  let lo := from_option (slice_index n) 0%Z start in
  let hi := from_option (slice_index n) n stop in
  (Z.to_nat lo, Z.to_nat (hi - lo)).

Definition slice {A} (l : list A) (start stop : option Z) : list A :=
  let '(lo, m) := bounds (len l) start stop in
  take m (drop lo l).

(** [range(a, b)]. *)
Definition range (a b : Z) : list Z :=
  map (fun k => (a + Z.of_nat k)%Z) (seq 0 (Z.to_nat (b - a))).

(** [l[i]] for an index that is not negative: out of range raises. *)
Definition getitem {A} (l : list A) (i : Z) : option A :=
  if (i <? 0)%Z then None else l !! Z.to_nat i.

(** [a % b] on integers: a zero divisor raises. *)
Definition mod_ (a b : Z) : option Z :=
  if (b =? 0)%Z then None else Some (a mod b)%Z.

(** [s[:-1]]: the string without its last character. *)
Fixpoint str_init (s : string) : string :=
  match s with
  | EmptyString => EmptyString
  | String c EmptyString => EmptyString
  | String c s' => String c (str_init s')
  end.

(** [s[-1]]: the last character, as a string; raises on the empty string. *)
Fixpoint str_last (s : string) : option string :=
  match s with
  | EmptyString => None
  | String c EmptyString => Some (String c EmptyString)
  | String _ s' => str_last s'
  end.

(** [s.replace(old, new)] where [old] and [new] are one character each, the
    only use the source makes of it. *)
Fixpoint replace_char (old new : Ascii.ascii) (s : string) : string :=
  match s with
  | EmptyString => EmptyString
  | String c s' =>
      String (if Ascii.eqb c old then new else c) (replace_char old new s')
  end.

Definition replace (old new s : string) : string :=
  match old, new with
  | String o EmptyString, String n EmptyString => replace_char o n s
  | _, _ => s
  end.

(** A [for] loop whose body may raise, threading the loop-carried value. *)
Fixpoint for_each {A S} (body : S -> A -> option S) (l : list A) (s : S)
  : option S :=
  match l with
  | [] => Some s
  | x :: l' =>
      match body s x with
      | Some s' => for_each body l' s'
      | None => None
      end
  end.

(** [int(c)] on a one-character string: a decimal digit, or it raises. *)
Definition int_digit (c : string) : option Z :=
  match c with
  | String a EmptyString =>
      let n := Ascii.nat_of_ascii a in
      if (48 <=? n)%nat && (n <=? 57)%nat then Some (Z.of_nat (n - 48))
      else None
  | _ => None
  end.

End Py.

(** ** numpy primitives on one-dimensional float arrays *)

Module Np.

Abbreviation ndarray := (list R).

(** [np.zeros(n)], [np.ones(n)]: a negative dimension raises. *)
Definition zeros (n : Z) : option ndarray :=
  if (n <? 0)%Z then None else Some (replicate (Z.to_nat n) 0).

Definition ones (n : Z) : option ndarray :=
  if (n <? 0)%Z then None else Some (replicate (Z.to_nat n) 1).

(** [np.arange(n)] as floats. *)
Definition arange (n : nat) : ndarray := map INR (seq 0 n).

(** [np.linspace(start, stop, num, endpoint)]: [num] evenly spaced samples,
    the step being [(stop - start) / div] with [div = num - 1] when the end
    point is included and [div = num] when it is not; a negative [num]
    raises.  For [num = 1] with the end point the only sample has index 0
    and is [start] whatever the step. *)
Definition linspace (start stop : R) (num : Z) (endpoint : bool)
  : option ndarray :=
  if (num <? 0)%Z then None
  else
    let div := if endpoint then (num - 1)%Z else num in
    let step := (stop - start) / IZR div in
    Some (map (fun i => start + i * step) (arange (Z.to_nat num))).

(** Broadcasting of a value array to a target of [m] elements: equal
    lengths, or a one-element value repeated; anything else raises. *)
Definition broadcast_to (v : ndarray) (m : nat) : option ndarray :=
  if decide (length v = m) then Some v
  else match v with
       | [x] => Some (replicate m x)
       | _ => None
       end.

(** [a[start:stop] = v]. *)
Definition set_slice (a : ndarray) (start stop : option Z) (v : ndarray)
  : option ndarray :=
  let '(lo, m) := Py.bounds (Py.len a) start stop in
  v' ← broadcast_to v m;
  Some (take lo a ++ v' ++ drop (lo + m) a).

(** [a[start:stop] += v]. *)
Definition iadd_slice (a : ndarray) (start stop : option Z) (v : ndarray)
  : option ndarray :=
  let '(lo, m) := Py.bounds (Py.len a) start stop in
  v' ← broadcast_to v m;
  Some (take lo a ++ zip_with Rplus (take m (drop lo a)) v' ++ drop (lo + m) a).

(** [a += v] on a whole array. *)
Definition iadd (a v : ndarray) : option ndarray :=
  v' ← broadcast_to v (length a);
  Some (zip_with Rplus a v').

(** An elementwise binary operation [a op b] on two arrays: equal lengths,
    or a one-element operand repeated; anything else raises. *)
Definition binop (op : R -> R -> R) (a b : ndarray) : option ndarray :=
  if decide (length a = length b) then Some (zip_with op a b)
  else match a, b with
       | [x], _ => Some (map (op x) b)
       | _, [y] => Some (map (fun x => op x y) a)
       | _, _ => None
       end.

Definition add := binop Rplus.
Definition mul := binop Rmult.

(** [np.pad(a, (0, k))]. *)
Definition pad_right (a : ndarray) (k : Z) : option ndarray :=
  if (k <? 0)%Z then None else Some (a ++ replicate (Z.to_nat k) 0).

(** [np.abs(a)]. *)
Definition abs (a : ndarray) : ndarray := map Rabs a.

(** [np.max(a)]: raises on an empty array. *)
Definition max (a : ndarray) : option R :=
  match a with
  | [] => None
  | x :: l => Some (foldl Rmax x l)
  end.

(** [np.sign(x)]. *)
Definition sign (x : R) : R :=
  if Rlt_dec x 0 then -1 else if Rlt_dec 0 x then 1 else 0.

(** [np.floor(x)]. *)
Definition floor (x : R) : R := IZR (Zfloor x).

(** [np.cumsum(a)]. *)
Fixpoint cumsum_from (acc : R) (a : ndarray) : ndarray :=
  match a with
  | [] => []
  | x :: l => (acc + x) :: cumsum_from (acc + x) l
  end.

Definition cumsum (a : ndarray) : ndarray := cumsum_from 0 a.

(** [x.astype(np.int16)] on one element whose truncation fits in 64 bits:
    truncation toward zero, then the low 16 bits as a signed integer. *)
Definition wrap16 (z : Z) : Z := ((z + 32768) mod 65536 - 32768)%Z.

Definition astype_int16 (x : R) : Z := wrap16 (Py.int x).

(** [np.clip(x, lo, hi)] on one element. *)
Definition clip (lo hi x : R) : R := Rmin (Rmax x lo) hi.

(** [a[start:stop] *= v]. *)
Definition imul_slice (a : ndarray) (start stop : option Z) (v : ndarray)
  : option ndarray :=
  let '(lo, m) := Py.bounds (Py.len a) start stop in
  v' ← broadcast_to v m;
  Some (take lo a ++ zip_with Rmult (take m (drop lo a)) v' ++ drop (lo + m) a).

(** [np.concatenate(arrays)]: raises on an empty list of arrays. *)
Definition concatenate (arrays : list ndarray) : option ndarray :=
  match arrays with
  | [] => None
  | _ => Some (concat arrays)
  end.

End Np.

(** ** The process-wide random generator

    [np.random.uniform] reads and advances numpy's global generator.  Its
    state is represented by the sequence of unit-interval draws the generator
    delivers and the number of draws already consumed.  A computation that may
    use the generator and may raise is a function from the state to an
    optional result and new state. *)

Module Rng.

Record state := State { draws : nat -> R; pos : nat }.

Definition M (A : Type) : Type := state -> option (A * state).

Definition ret {A} (x : A) : M A := fun g => Some (x, g).

Definition bind {A B} (m : M A) (f : A -> M B) : M B :=
  fun g => match m g with
           | Some (x, g') => f x g'
           | None => None
           end.

(** A computation that does not touch the generator. *)
Definition lift {A} (o : option A) : M A :=
  fun g => match o with
           | Some x => Some (x, g)
           | None => None
           end.

(** [np.random.uniform(low, high, size)]. *)
Definition uniform (low high : R) (size : Z) : M (list R) :=
  fun g =>
    if (size <? 0)%Z then None
    else Some (map (fun i => low + (high - low) * draws g (pos g + i))
                   (seq 0 (Z.to_nat size)),
               State (draws g) (pos g + Z.to_nat size)).

(** A [for] loop over [l] that threads the loop-carried value [s]. *)
Fixpoint for_each {A S} (body : S -> A -> M S) (l : list A) (s : S) : M S :=
  match l with
  | [] => ret s
  | x :: l' => bind (body s x) (for_each body l')
  end.

End Rng.

Notation "x <~ m ;; k" := (Rng.bind m (fun x => k))
  (at level 100, m at next level, k at level 200, right associativity).

Definition SAMPLE_RATE : R := 44100.

(** ** DrumMachine

    [kick], [snare] and [hihat] have the same text in both files; [clap] is in
    [electric_music_composer.py] only.  The default arguments of the source
    are the constants [*_default_duration]. *)

Module DrumMachine.

Definition kick_default_duration : R := 0.3.
Definition snare_default_duration : R := 0.2.
Definition hihat_default_duration : R := 0.1.
Definition clap_default_duration : R := 0.15.

Definition kick (duration velocity : R) : option (list R) :=
  t ← Np.linspace 0 duration (Py.int (SAMPLE_RATE * duration)) false;
  let freq_envelope := map (fun ti => 150 * exp (- ti * 20) + 40) t in
  let phase :=
    Np.cumsum (map (fun f => 2 * PI * f / SAMPLE_RATE) freq_envelope) in
  Some (zip_with (fun p ti => sin p * exp (- ti * 10) * velocity) phase t).

Definition snare (duration velocity : R) : Rng.M (list R) :=
  t <~ Rng.lift
         (Np.linspace 0 duration (Py.int (SAMPLE_RATE * duration)) false) ;;
  let tone := map (fun ti => sin (2 * PI * 200 * ti) * exp (- ti * 20)) t in
  u <~ Rng.uniform (-1) 1 (Py.len t) ;;
  let noise := zip_with (fun ui ti => ui * exp (- ti * 15) * 0.5) u t in
  Rng.ret (map (fun x => x * velocity * 0.8) (zip_with Rplus tone noise)).

Definition hihat (duration velocity : R) : Rng.M (list R) :=
  t <~ Rng.lift
         (Np.linspace 0 duration (Py.int (SAMPLE_RATE * duration)) false) ;;
  noise <~ Rng.uniform (-1) 1 (Py.len t) ;;
  Rng.ret (zip_with (fun ni ti => ni * exp (- ti * 30) * velocity * 0.4)
                    noise t).

(** The body of [for i in range(4)] in [clap]: the onset [i] adds its decay
    to the envelope from index [start] on. *)
Definition clap_onset (envelope : list R) (i : Z) : list R :=
  let start := Py.int (IZR i * 0.01 * SAMPLE_RATE) in
  if (start <? Py.len envelope)%Z then
    let tail :=
      map (fun k => exp (- k / SAMPLE_RATE * 50))
          (Np.arange (Z.to_nat (Py.len envelope - start))) in
    take (Z.to_nat start) envelope
      ++ zip_with Rplus (drop (Z.to_nat start) envelope) tail
  else envelope.

Definition clap (duration velocity : R) : Rng.M (list R) :=
  t <~ Rng.lift
         (Np.linspace 0 duration (Py.int (SAMPLE_RATE * duration)) false) ;;
  noise <~ Rng.uniform (-1) 1 (Py.len t) ;;
  let envelope :=
    foldl clap_onset (replicate (length t) 0) [0; 1; 2; 3]%Z in
  Rng.ret
    (zip_with (fun ne ti => ne * exp (- ti * 20) * velocity * 0.5)
              (zip_with Rmult noise envelope) t).

End DrumMachine.

(** ** Peak normalisation and export

    The three lines that end [compose] and [compose_from_tracks], and the
    sample conversion of [save_wav], have the same text in every file. *)

(** [max_val = np.max(np.abs(mix)); if max_val > 0: mix = mix / max_val * 0.9] *)
Definition normalize (mix : list R) : option (list R) :=
  max_val ← Np.max (Np.abs mix);
  Some (if Rlt_dec 0 max_val then map (fun x => x / max_val * 0.9) mix
        else mix).

(** [audio_int = (audio * 32767).astype(np.int16)]: the samples handed to
    [wavfile.write]. *)
Definition save_wav (audio : list R) : list Z :=
  map (fun x => Np.astype_int16 (x * 32767)) audio.

(** ** electric_music_composer.py *)

Module Electric.

(** The hand-written frequency table ([music_composer_app.py] has the same
    one). *)
Definition NOTE_FREQUENCIES : gmap string R :=
  list_to_map
    [ ("C3", 130.81); ("C#3", 138.59); ("D3", 146.83); ("D#3", 155.56);
      ("E3", 164.81); ("F3", 174.61); ("F#3", 185.00); ("G3", 196.00);
      ("G#3", 207.65); ("A3", 220.00); ("A#3", 233.08); ("B3", 246.94);
      ("C4", 261.63); ("C#4", 277.18); ("D4", 293.66); ("D#4", 311.13);
      ("E4", 329.63); ("F4", 349.23); ("F#4", 369.99); ("G4", 392.00);
      ("G#4", 415.30); ("A4", 440.00); ("A#4", 466.16); ("B4", 493.88);
      ("C5", 523.25); ("D5", 587.33); ("E5", 659.25); ("F5", 698.46);
      ("G5", 783.99); ("A5", 880.00); ("B5", 987.77) ].

(** [MusicComposer.get_frequency]: [NOTE_FREQUENCIES.get(note, 440.0)]. *)
Definition get_frequency (note : string) : R :=
  default 440.0 (NOTE_FREQUENCIES !! note).

Module Synthesizer.

Definition _apply_envelope (wave : list R) (duration attack release : R)
  : option (list R) :=
  let samples := Py.len wave in
  let attack_samples := Py.int (attack * SAMPLE_RATE) in
  let release_samples := Py.int (release * SAMPLE_RATE) in
  envelope ← Np.ones samples;
  envelope ←
    (if (0 <? attack_samples)%Z then
       ramp ← Np.linspace 0 1 attack_samples true;
       Np.set_slice envelope None (Some attack_samples) ramp
     else Some envelope);
  envelope ←
    (if (0 <? release_samples)%Z then
       ramp ← Np.linspace 1 0 release_samples true;
       Np.set_slice envelope (Some (- release_samples)%Z) None ramp
     else Some envelope);
  Np.mul wave envelope.

Definition sine_wave (freq duration velocity : R) : option (list R) :=
  t ← Np.linspace 0 duration (Py.int (SAMPLE_RATE * duration)) false;
  let wave := map (fun ti => sin (2 * PI * freq * ti) * velocity) t in
  _apply_envelope wave duration 0.05 0.1.

Definition square_wave (freq duration velocity : R) : option (list R) :=
  t ← Np.linspace 0 duration (Py.int (SAMPLE_RATE * duration)) false;
  let wave :=
    map (fun ti => Np.sign (sin (2 * PI * freq * ti)) * velocity * 0.5) t in
  _apply_envelope wave duration 0.05 0.1.

Definition sawtooth_wave (freq duration velocity : R) : option (list R) :=
  t ← Np.linspace 0 duration (Py.int (SAMPLE_RATE * duration)) false;
  let wave :=
    map (fun ti =>
           2 * (ti * freq - Np.floor (0.5 + ti * freq)) * velocity * 0.5)
        t in
  _apply_envelope wave duration 0.05 0.1.

Definition pad_sound (freq duration velocity : R) : option (list R) :=
  t ← Np.linspace 0 duration (Py.int (SAMPLE_RATE * duration)) false;
  let wave :=
    map (fun ti => sin (2 * PI * freq * ti) * 0.5
                   + sin (2 * PI * freq * 2 * ti) * 0.25
                   + sin (2 * PI * freq * 0.5 * ti) * 0.25) t in
  let wave := map (fun x => x * velocity) wave in
  _apply_envelope wave duration 0.3 0.4.

End Synthesizer.

(** [pad_to_length], local to [compose]. *)
Definition pad_to_length (arr : list R) (length : Z) : option (list R) :=
  if (Py.len arr <? length)%Z then Np.pad_right arr (length - Py.len arr)
  else Some (Py.slice arr None (Some length)).

(** [MusicComposer.compose] from the comment "match the track lengths" on:
    the four generated tracks are padded or cut to [total_samples], mixed
    with the fixed weights and normalised.  The tracks are arguments here:
    their generation picks the progression and the melody with Python's
    [random] module. *)
Definition compose_mix (drums bassline chords melody : list R)
    (total_samples : Z) : option (list R) :=
  drums ← pad_to_length drums total_samples;
  bassline ← pad_to_length bassline total_samples;
  chords ← pad_to_length chords total_samples;
  melody ← pad_to_length melody total_samples;
  m1 ← Np.add (map (fun x => x * 0.35) drums)
              (map (fun x => x * 0.25) bassline);
  m2 ← Np.add m1 (map (fun x => x * 0.25) chords);
  mix ← Np.add m2 (map (fun x => x * 0.15) melody);
  normalize mix.

Definition CHORD_PATTERNS : gmap string (list Z) :=
  list_to_map
    [ ("major", [0; 4; 7]); ("minor", [0; 3; 7]); ("seventh", [0; 4; 7; 10]);
      ("minor7", [0; 3; 7; 10]); ("sus4", [0; 5; 7]);
      ("power", [0; 7; 12]) ]%Z.

Module ElectricGuitar.

Definition clean_tone (freq duration velocity : R) : option (list R) :=
  t ← Np.linspace 0 duration (Py.int (SAMPLE_RATE * duration)) false;
  let wave :=
    map (fun ti => sin (2 * PI * freq * ti) * 0.6
                   + sin (2 * PI * freq * 2 * ti) * 0.25
                   + sin (2 * PI * freq * 3 * ti) * 0.1
                   + sin (2 * PI * freq * 4 * ti) * 0.05) t in
  let wave := map (fun x => x * velocity) wave in
  Synthesizer._apply_envelope wave duration 0.01 0.2.

Definition distortion (freq duration velocity : R) : option (list R) :=
  t ← Np.linspace 0 duration (Py.int (SAMPLE_RATE * duration)) false;
  let wave := map (fun ti => sin (2 * PI * freq * ti)) t in
  let wave := map (fun x => Np.clip (-0.8) 0.8 (x * 3)) wave in
  let wave :=
    zip_with Rplus wave (map (fun ti => sin (2 * PI * freq * 2 * ti) * 0.3) t)
  in
  let wave := map (fun x => Np.clip (-1) 1 x * velocity * 0.7) wave in
  Synthesizer._apply_envelope wave duration 0.01 0.15.

Definition power_chord (root_freq duration velocity : R)
  : option (list R) :=
  let fifth_freq := root_freq * 1.5 in
  let octave_freq := root_freq * 2 in
  w_root ← distortion root_freq duration velocity;
  w_fifth ← distortion fifth_freq duration velocity;
  w_octave ← distortion octave_freq duration velocity;
  w ← Np.add (map (fun x => x * 0.4) w_root)
             (map (fun x => x * 0.35) w_fifth);
  Np.add w (map (fun x => x * 0.25) w_octave).

End ElectricGuitar.

Module ElectricBass.

Definition finger_bass (freq duration velocity : R) : option (list R) :=
  t ← Np.linspace 0 duration (Py.int (SAMPLE_RATE * duration)) false;
  let wave :=
    map (fun ti => sin (2 * PI * freq * ti) * 0.7
                   + sin (2 * PI * freq * 2 * ti) * 0.2
                   + sin (2 * PI * freq * 3 * ti) * 0.1) t in
  let wave := map (fun x => x * velocity) wave in
  Synthesizer._apply_envelope wave duration 0.02 0.15.

Definition slap_bass (freq duration velocity : R) : option (list R) :=
  t ← Np.linspace 0 duration (Py.int (SAMPLE_RATE * duration)) false;
  let wave :=
    map (fun ti => sin (2 * PI * freq * ti) * 0.5
                   + sin (2 * PI * freq * 2 * ti) * 0.3
                   + sin (2 * PI * freq * 4 * ti) * 0.2) t in
  let attack_samples := Py.int (0.02 * SAMPLE_RATE) in
  boost ← Np.linspace 2 1 attack_samples true;
  wave ← Np.imul_slice wave None (Some attack_samples) boost;
  let wave := map (fun x => Np.clip (-1) 1 x * velocity) wave in
  Synthesizer._apply_envelope wave duration 0.005 0.1.

End ElectricBass.

Record MusicComposer := mkComposer {
  bpm : R;
  beat_duration : R
}.

(** [MusicComposer.__init__]: [60.0 / bpm] raises on [bpm = 0]. *)
Definition MusicComposer_init (bpm : R) : option MusicComposer :=
  if Req_dec_T bpm 0 then None else Some (mkComposer bpm (60.0 / bpm)).

(** One iteration of the loop of [generate_chord]: the wave of one chord
    note, padded or cut to the chord length and added to the chord. *)
Definition chord_note (root_freq duration : R) (instrument : string)
    (chord_wave : list R) (semitones : Z) : option (list R) :=
  let freq := root_freq * Rpower 2 (IZR semitones / 12) in
  note_wave ←
    (if decide (instrument = "synth") then
       Synthesizer.pad_sound freq duration 0.5
     else if decide (instrument = "guitar") then
       ElectricGuitar.clean_tone freq duration 0.5
     else Synthesizer.sine_wave freq duration 0.5);
  note_wave ←
    (if (Py.len note_wave <? Py.len chord_wave)%Z then
       Np.pad_right note_wave (Py.len chord_wave - Py.len note_wave)
     else Some note_wave);
  Np.iadd chord_wave (Py.slice note_wave None (Some (Py.len chord_wave))).

Definition generate_chord (self : MusicComposer) (root_note chord_type : string)
    (duration : R) (instrument : string) : option (list R) :=
  let root_freq := get_frequency root_note in
  major ← CHORD_PATTERNS !! "major";
  let pattern := default major (CHORD_PATTERNS !! chord_type) in
  chord_wave ← Np.zeros (Py.int (SAMPLE_RATE * duration));
  chord_wave ← Py.for_each (chord_note root_freq duration instrument)
                            pattern chord_wave;
  Some (map (fun x => x / IZR (Py.len pattern)) chord_wave).

(** The four notes of one bar of [generate_bassline]. *)
Definition bassline_bar (self : MusicComposer) (root_notes : list string)
    (bar : Z) : option (list (list R)) :=
  idx ← Py.mod_ bar (Py.len root_notes);
  root ← Py.getitem root_notes idx;
  let root_lower := Py.replace "5" "4" (Py.replace "4" "3" root) in
  let freq := get_frequency root_lower in
  let pattern := [freq; freq; freq * 1.5; freq] in
  mapM (fun '(i, f) =>
          let velocity := if (i =? 0)%Z then 0.9 else 0.7 in
          ElectricBass.finger_bass f (beat_duration self) velocity)
       (imap (fun i f => (Z.of_nat i, f)) pattern).

Definition generate_bassline (self : MusicComposer) (root_notes : list string)
    (bars : Z) : option (list R) :=
  bassline ← mapM (bassline_bar self root_notes) (Py.range 0 bars);
  Np.concatenate (concat bassline).

(** The two lines that add one drum hit into the pattern at [start]. *)
Definition add_hit (total_samples : Z) (drums hit : list R) (start : Z)
  : option (list R) :=
  let end_idx := Py.min (start + Py.len hit) total_samples in
  Np.iadd_slice drums (Some start) (Some end_idx)
                (Py.slice hit None (Some (end_idx - start)%Z)).

(** The body of [for beat in range(4)] in [generate_drum_pattern]. *)
Definition drum_beat (total_samples beat_samples bar_start : Z)
    (drums : list R) (beat : Z) : Rng.M (list R) :=
  let beat_start := (bar_start + beat * beat_samples)%Z in
  drums <~ (if decide (beat ∈ [0; 2]%Z) then
              kick <~ Rng.lift
                (DrumMachine.kick DrumMachine.kick_default_duration 1.0) ;;
              Rng.lift (add_hit total_samples drums kick beat_start)
            else Rng.ret drums) ;;
  drums <~ (if decide (beat ∈ [1; 3]%Z) then
              snare <~ DrumMachine.snare DrumMachine.snare_default_duration
                                         1.0 ;;
              Rng.lift (add_hit total_samples drums snare beat_start)
            else Rng.ret drums) ;;
  Rng.for_each
    (fun drums eighth =>
       let hh_start := (beat_start + eighth * (beat_samples / 2))%Z in
       hihat <~ DrumMachine.hihat DrumMachine.hihat_default_duration
                  (if (eighth =? 0)%Z then 0.6 else 0.4) ;;
       Rng.lift (add_hit total_samples drums hihat hh_start))
    (Py.range 0 2) drums.

Definition generate_drum_pattern (self : MusicComposer) (bars : Z)
  : Rng.M (list R) :=
  let beat_samples := Py.int (SAMPLE_RATE * beat_duration self) in
  let bar_samples := (beat_samples * 4)%Z in
  let total_samples := (bar_samples * bars)%Z in
  drums <~ Rng.lift (Np.zeros total_samples) ;;
  Rng.for_each
    (fun drums bar =>
       let bar_start := (bar * bar_samples)%Z in
       Rng.for_each (drum_beat total_samples beat_samples bar_start)
                    (Py.range 0 4) drums)
    (Py.range 0 bars) drums.

End Electric.

(** ** music_composer_with_score.py *)

Module Score.

Definition NOTE_NAMES : list string :=
  ["C"; "C#"; "D"; "D#"; "E"; "F"; "F#"; "G"; "G#"; "A"; "A#"; "B"].

(** [enumerate(l)]. *)
Definition enumerate {A} (l : list A) : list (Z * A) :=
  imap (fun i x => (Z.of_nat i, x)) l.

(** [range(a, b)]. *)
Definition range (a b : Z) : list Z :=
  map (fun k => (a + Z.of_nat k)%Z) (seq 0 (Z.to_nat (b - a))).

(** The value stored for note index [i] in octave [octave]. *)
Definition note_frequency (octave i : Z) : R :=
  let semitones_from_a4 := ((octave - 4) * 12 + (i - 9))%Z in
  440.0 * Rpower 2 (IZR semitones_from_a4 / 12).

(** The table filled by the two nested loops, one assignment per note. *)
Definition NOTE_FREQUENCIES : gmap string R :=
  foldl (fun d octave =>
           foldl (fun d '(i, note) =>
                    let note_name := note +:+ Py.str octave in
                    <[note_name := note_frequency octave i]> d)
                 d (enumerate NOTE_NAMES))
        ∅ (range 2 7).

Record Note := mkNote {
  pitch : string;
  start_beat : R;
  duration : R;
  velocity : R
}.

(** [Note.get_frequency]. *)
Definition get_frequency (self : Note) : R :=
  default 440.0 (NOTE_FREQUENCIES !! pitch self).

Record Track := mkTrack {
  name : string;
  instrument_type : string;
  notes : list Note;
  muted : bool;
  volume : R
}.

Module Synthesizer.

Definition _apply_envelope (wave : list R) (duration attack release : R)
  : option (list R) :=
  let samples := Py.len wave in
  let attack_samples := Py.int (attack * SAMPLE_RATE) in
  let release_samples := Py.int (release * SAMPLE_RATE) in
  envelope ← Np.ones samples;
  envelope ←
    (if (0 <? attack_samples)%Z && (attack_samples <? samples)%Z then
       ramp ← Np.linspace 0 1 attack_samples true;
       Np.set_slice envelope None (Some attack_samples) ramp
     else Some envelope);
  envelope ←
    (if (0 <? release_samples)%Z && (release_samples <? samples)%Z then
       ramp ← Np.linspace 1 0 release_samples true;
       Np.set_slice envelope (Some (- release_samples)%Z) None ramp
     else Some envelope);
  Np.mul wave envelope.

Definition sine_wave (freq duration velocity : R) : option (list R) :=
  t ← Np.linspace 0 duration (Py.int (SAMPLE_RATE * duration)) false;
  let wave := map (fun ti => sin (2 * PI * freq * ti) * velocity) t in
  _apply_envelope wave duration 0.05 0.1.

Definition square_wave (freq duration velocity : R) : option (list R) :=
  t ← Np.linspace 0 duration (Py.int (SAMPLE_RATE * duration)) false;
  let wave :=
    map (fun ti => Np.sign (sin (2 * PI * freq * ti)) * velocity * 0.5) t in
  _apply_envelope wave duration 0.05 0.1.

Definition sawtooth_wave (freq duration velocity : R) : option (list R) :=
  t ← Np.linspace 0 duration (Py.int (SAMPLE_RATE * duration)) false;
  let wave :=
    map (fun ti =>
           2 * (ti * freq - Np.floor (0.5 + ti * freq)) * velocity * 0.5)
        t in
  _apply_envelope wave duration 0.05 0.1.

Definition pad_sound (freq duration velocity : R) : option (list R) :=
  t ← Np.linspace 0 duration (Py.int (SAMPLE_RATE * duration)) false;
  let wave :=
    map (fun ti => sin (2 * PI * freq * ti) * 0.5
                   + sin (2 * PI * freq * 2 * ti) * 0.25
                   + sin (2 * PI * freq * 0.5 * ti) * 0.25) t in
  let wave := map (fun x => x * velocity) wave in
  _apply_envelope wave duration 0.3 0.4.

End Synthesizer.

Module ElectricGuitar.

Definition clean_tone (freq duration velocity : R) : option (list R) :=
  t ← Np.linspace 0 duration (Py.int (SAMPLE_RATE * duration)) false;
  let wave :=
    map (fun ti => sin (2 * PI * freq * ti) * 0.6
                   + sin (2 * PI * freq * 2 * ti) * 0.25
                   + sin (2 * PI * freq * 3 * ti) * 0.1
                   + sin (2 * PI * freq * 4 * ti) * 0.05) t in
  let wave := map (fun x => x * velocity) wave in
  Synthesizer._apply_envelope wave duration 0.01 0.2.

Definition distortion (freq duration velocity : R) : option (list R) :=
  t ← Np.linspace 0 duration (Py.int (SAMPLE_RATE * duration)) false;
  let wave := map (fun ti => sin (2 * PI * freq * ti)) t in
  let wave := map (fun x => Np.clip (-0.8) 0.8 (x * 3)) wave in
  let wave :=
    zip_with Rplus wave (map (fun ti => sin (2 * PI * freq * 2 * ti) * 0.3) t)
  in
  let wave := map (fun x => Np.clip (-1) 1 x * velocity * 0.7) wave in
  Synthesizer._apply_envelope wave duration 0.01 0.15.

End ElectricGuitar.

Module ElectricBass.

Definition finger_bass (freq duration velocity : R) : option (list R) :=
  t ← Np.linspace 0 duration (Py.int (SAMPLE_RATE * duration)) false;
  let wave :=
    map (fun ti => sin (2 * PI * freq * ti) * 0.7
                   + sin (2 * PI * freq * 2 * ti) * 0.2
                   + sin (2 * PI * freq * 3 * ti) * 0.1) t in
  let wave := map (fun x => x * velocity) wave in
  Synthesizer._apply_envelope wave duration 0.02 0.15.

End ElectricBass.

Record MusicComposer := mkComposer {
  bpm : R;
  beat_duration : R
}.

(** [MusicComposer.__init__]: [60.0 / bpm] raises on [bpm = 0]. *)
Definition MusicComposer_init (bpm : R) : option MusicComposer :=
  if Req_dec_T bpm 0 then None else Some (mkComposer bpm (60.0 / bpm)).

(** The instrument dispatch inside the loop of [render_track]: the wave of
    one note, or [None] where the source does [continue]. *)
Definition note_wave (self : MusicComposer) (track : Track) (note : Note)
  : Rng.M (option (list R)) :=
  let duration := duration note * beat_duration self in
  if decide (instrument_type track = "synth") then
    wave <~ Rng.lift
      (Synthesizer.pad_sound (get_frequency note) duration (velocity note)) ;;
    Rng.ret (Some wave)
  else if decide (instrument_type track = "guitar") then
    wave <~ Rng.lift
      (ElectricGuitar.clean_tone (get_frequency note) duration
                                 (velocity note)) ;;
    Rng.ret (Some wave)
  else if decide (instrument_type track = "bass") then
    let freq := get_frequency note / 2 in
    wave <~ Rng.lift
      (ElectricBass.finger_bass freq duration (velocity note)) ;;
    Rng.ret (Some wave)
  else if decide (instrument_type track = "drums") then
    if decide (pitch note = "Kick") then
      wave <~ Rng.lift
        (DrumMachine.kick DrumMachine.kick_default_duration
                          (velocity note)) ;;
      Rng.ret (Some wave)
    else if decide (pitch note = "Snare") then
      wave <~ DrumMachine.snare DrumMachine.snare_default_duration
                                (velocity note) ;;
      Rng.ret (Some wave)
    else if decide (pitch note = "HiHat") then
      wave <~ DrumMachine.hihat DrumMachine.hihat_default_duration
                                (velocity note) ;;
      Rng.ret (Some wave)
    else Rng.ret None
  else Rng.ret None.

(** [start_sample] of a note. *)
Definition start_sample (self : MusicComposer) (note : Note) : Z :=
  Py.int (start_beat note * beat_duration self * SAMPLE_RATE).

(** One iteration of the loop of [render_track]. *)
Definition render_note (self : MusicComposer) (track : Track)
    (total_samples : Z) (audio : list R) (note : Note) : Rng.M (list R) :=
  let start_sample := start_sample self note in
  w <~ note_wave self track note ;;
  match w with
  | None => Rng.ret audio
  | Some wave =>
      let end_sample :=
        Py.min (start_sample + Py.len wave) total_samples in
      Rng.lift
        (Np.iadd_slice audio (Some start_sample) (Some end_sample)
           (Py.slice wave None (Some (end_sample - start_sample)%Z)))
  end.

Definition render_track (self : MusicComposer) (track : Track)
    (total_beats : R) : Rng.M (list R) :=
  let total_duration := total_beats * beat_duration self in
  let total_samples := Py.int (SAMPLE_RATE * total_duration) in
  audio <~ Rng.lift (Np.zeros total_samples) ;;
  audio <~ Rng.for_each (render_note self track total_samples)
                        (notes track) audio ;;
  Rng.ret (map (fun x => x * volume track) audio).

(** One iteration of the loop of [compose_from_tracks]. *)
Definition mix_track (self : MusicComposer) (total_beats : R)
    (total_samples : Z) (mix : list R) (track : Track) : Rng.M (list R) :=
  if negb (muted track) && bool_decide (notes track <> []) then
    track_audio <~ render_track self track total_beats ;;
    track_audio <~ Rng.lift
      (if (Py.len track_audio <? total_samples)%Z then
         Np.pad_right track_audio (total_samples - Py.len track_audio)
       else Some track_audio) ;;
    Rng.lift (Np.iadd mix (Py.slice track_audio None (Some total_samples)))
  else Rng.ret mix.

Definition compose_from_tracks (self : MusicComposer) (tracks : list Track)
    (total_beats : R) : Rng.M (list R) :=
  let total_duration := total_beats * beat_duration self in
  let total_samples := Py.int (SAMPLE_RATE * total_duration) in
  mix <~ Rng.lift (Np.zeros total_samples) ;;
  mix <~ Rng.for_each (mix_track self total_beats total_samples)
                      tracks mix ;;
  Rng.lift (normalize mix).

(** [MusicComposer.set_bpm]. *)
Definition set_bpm (self : MusicComposer) (bpm : R) : option MusicComposer :=
  if Req_dec_T bpm 0 then None else Some (mkComposer bpm (60.0 / bpm)).

(** [Track.add_note], [Track.clear]. *)
Definition add_note (self : Track) (note : Note) : Track :=
  mkTrack (name self) (instrument_type self) (notes self ++ [note])
          (muted self) (volume self).

Definition clear (self : Track) : Track :=
  mkTrack (name self) (instrument_type self) [] (muted self) (volume self).

(** The test of the loop of [Track.get_note_at]:
    [note.pitch == pitch and note.start_beat <= beat < note.start_beat +
    note.duration]. *)
Definition sounds_at (p : string) (beat : R) (note : Note) : bool :=
  bool_decide (pitch note = p)
  && (if Rle_dec (start_beat note) beat then true else false)
  && (if Rlt_dec beat (start_beat note + duration note) then true else false).

(** [Track.get_note_at]: the first note of that pitch that sounds on [beat],
    or [None]. *)
Definition get_note_at (self : Track) (p : string) (beat : R)
  : option Note :=
  List.find (sounds_at p beat) (notes self).

(** The chord progressions and tempi of the styles. *)
Definition PROGRESSIONS : gmap string (list string) :=
  list_to_map
    [ ("electronic", ["C4"; "G4"; "A4"; "F4"]);
      ("rock", ["E4"; "A4"; "B4"; "E4"]);
      ("pop", ["C4"; "G4"; "A4"; "F4"]);
      ("jazz", ["C4"; "A4"; "D4"; "G4"]);
      ("ambient", ["C4"; "E4"; "F4"; "G4"]);
      ("ballad", ["G4"; "D4"; "E4"; "C4"]);
      ("trot", ["A4"; "D4"; "E4"; "A4"]) ].

Definition STYLE_BPM : gmap string Z :=
  list_to_map
    [ ("electronic", 128); ("rock", 120); ("pop", 110); ("jazz", 95);
      ("ambient", 70); ("ballad", 72); ("trot", 115) ]%Z.

Module MusicComposerApp.

(** [get_third]: the inner [None] is the value the source returns for a root
    whose name is not in [note_map]; the outer one is an exception. *)
Definition get_third (root : string) : option (option string) :=
  let note_map : gmap string string :=
    list_to_map [ ("C", "E"); ("D", "F"); ("E", "G"); ("F", "A");
                  ("G", "B"); ("A", "C"); ("B", "D") ] in
  let base := Py.str_init root in
  octave ← Py.str_last root;
  match note_map !! base with
  | Some new_base =>
      new_octave ←
        (if decide (base ∈ ["A"; "B"]) then
           n ← Py.int_digit octave; Some (Py.str (n + 1))
         else Some octave);
      Some (Some (new_base +:+ new_octave))
  | None => Some None
  end.

Definition get_fifth (root : string) : option (option string) :=
  let note_map : gmap string string :=
    list_to_map [ ("C", "G"); ("D", "A"); ("E", "B"); ("F", "C");
                  ("G", "D"); ("A", "E"); ("B", "F") ] in
  let base := Py.str_init root in
  octave ← Py.str_last root;
  match note_map !! base with
  | Some new_base =>
      new_octave ←
        (if decide (base ∈ ["F"; "G"; "A"; "B"]) then
           n ← Py.int_digit octave; Some (Py.str (n + 1))
         else Some octave);
      Some (Some (new_base +:+ new_octave))
  | None => Some None
  end.

(** The notes [auto_generate_all] adds to the drums track on one beat. *)
Definition drum_notes_at (style : string) (beat : Z) : list Note :=
  let b := IZR beat in
  if decide (style = "ballad") then
    (if (beat mod 4 =? 0)%Z then [mkNote "Kick" b 1 0.6] else [])
    ++ (if (beat mod 4 =? 2)%Z then [mkNote "Snare" b 1 0.5] else [])
    ++ (if (beat mod 2 =? 0)%Z then [mkNote "HiHat" b 1 0.3] else [])
  else if decide (style = "trot") then
    (if (beat mod 2 =? 0)%Z then [mkNote "Kick" b 1 0.9] else [])
    ++ (if (beat mod 2 =? 1)%Z
        then [mkNote "Snare" b 1 0.8; mkNote "HiHat" b 1 0.6] else [])
  else
    (if (beat mod 4 =? 0)%Z || (beat mod 4 =? 2)%Z
     then [mkNote "Kick" b 1 0.8] else [])
    ++ (if (beat mod 4 =? 1)%Z || (beat mod 4 =? 3)%Z
        then [mkNote "Snare" b 1 0.7] else [])
    ++ (if (beat mod 2 =? 0)%Z then [mkNote "HiHat" b 1 0.5] else []).

(** The notes it adds to the bass, synth and guitar tracks in one bar. *)
Definition bass_notes_in (progression : list string) (bar : Z)
  : option (list Note) :=
  idx ← Py.mod_ bar (Py.len progression);
  root ← Py.getitem progression idx;
  let root_note := Py.replace "5" "4" (Py.replace "4" "3" root) in
  Some (flat_map
          (fun i =>
             let beat := IZR (bar * 4 + i) in
             if (i =? 0)%Z then [mkNote root_note beat 1 0.9]
             else if (i =? 2)%Z then [mkNote root_note beat 1 0.7]
             else [])
          (Py.range 0 4)).

Definition synth_notes_in (progression : list string) (bar : Z)
  : option (list Note) :=
  idx ← Py.mod_ bar (Py.len progression);
  root ← Py.getitem progression idx;
  let beat := IZR (bar * 4) in
  third ← get_third root;
  fifth ← get_fifth root;
  let chord_tone (tone : option string) :=
    match tone with
    | Some p => if decide (p = "") then [] else [mkNote p beat 4 0.5]
    | None => []
    end in
  Some ([mkNote root beat 4 0.6] ++ chord_tone third ++ chord_tone fifth).

Definition guitar_notes_in (progression : list string) (bar : Z)
  : option (list Note) :=
  idx ← Py.mod_ bar (Py.len progression);
  root ← Py.getitem progression idx;
  Some (flat_map
          (fun i =>
             let beat := IZR (bar * 4 + i) in
             if (i mod 2 =? 0)%Z then [mkNote root beat 1 0.7] else [])
          (Py.range 0 4)).

(** The notes [auto_generate_all] gives the track stored under [track_id]:
    the track is cleared and then filled by the branch of its key. *)
Definition generated_notes (style : string) (total_beats : Z)
    (track_id : string) : option (list Note) :=
  electronic ← PROGRESSIONS !! "electronic";
  let progression := default electronic (PROGRESSIONS !! style) in
  if decide (track_id = "drums") then
    Some (flat_map (drum_notes_at style) (Py.range 0 total_beats))
  else if decide (track_id = "bass") then
    bars ← mapM (bass_notes_in progression) (Py.range 0 (total_beats / 4));
    Some (concat bars)
  else if decide (track_id = "synth") then
    bars ← mapM (synth_notes_in progression) (Py.range 0 (total_beats / 4));
    Some (concat bars)
  else if decide (track_id = "guitar") then
    bars ← mapM (guitar_notes_in progression) (Py.range 0 (total_beats / 4));
    Some (concat bars)
  else Some [].

(** [auto_generate_all] on the tracks of the application, for the style and
    the number of bars read from its widgets. *)
Definition auto_generate_all (style : string) (bars : Z)
    (tracks : list (string * Track)) : option (list (string * Track)) :=
  let total_beats := (bars * 4)%Z in
  mapM (fun '(track_id, track) =>
          notes ← generated_notes style total_beats track_id;
          Some (track_id,
                mkTrack (name track) (instrument_type track) notes
                        (muted track) (volume track)))
       tracks.

End MusicComposerApp.

End Score.


(** * Vocabulary of the properties *)

(** A gain that attenuates: between silence and unity. *)
Definition unit_interval (x : R) : Prop := 0 <= x <= 1.

(** What an envelope does to a wave: the output is the wave multiplied
    sample by sample by factors between 0 and 1. *)
Definition shaped_by (wave envelope out : list R) : Prop :=
  length envelope = length wave
  /\ Forall unit_interval envelope
  /\ out = zip_with Rmult wave envelope.

(** The samples of a ramp, [np.linspace(start, stop, num)]. *)
Definition ramp (start stop : R) (num : Z) : list R :=
  default [] (Np.linspace start stop num true).

(** The multipliers that the guarded envelope builds for [n] samples: a ramp
    is written only when its length is positive and less than [n]; the
    release ramp is written second and replaces what the attack ramp wrote on
    the samples they share. *)
Definition guarded_envelope (n attack_samples release_samples : Z) : list R :=
  let e0 := replicate (Z.to_nat n) 1 in
  let e1 :=
    if (0 <? attack_samples)%Z && (attack_samples <? n)%Z
    then ramp 0 1 attack_samples ++ drop (Z.to_nat attack_samples) e0
    else e0 in
  if (0 <? release_samples)%Z && (release_samples <? n)%Z
  then take (Z.to_nat (n - release_samples)) e1 ++ ramp 1 0 release_samples
  else e1.

(** A call returns a buffer of [n] samples. *)
Definition returns_len (r : option (list R)) (n : Z) : Prop :=
  exists buf, r = Some buf /\ Py.len buf = n.

(** The envelope as C5 words it: each ramp length is clamped to the buffer
    length and both ramps are then written, attack first. *)
Definition clamped_envelope (n attack_samples release_samples : Z) : list R :=
  let a := Z.min attack_samples n in
  let r := Z.min release_samples n in
  let e0 := replicate (Z.to_nat n) 1 in
  let e1 :=
    if (0 <? a)%Z then ramp 0 1 a ++ drop (Z.to_nat a) e0 else e0 in
  if (0 <? r)%Z then take (Z.to_nat (n - r)) e1 ++ ramp 1 0 r else e1.

(** What the three normalisation lines make of a summed mix. *)
Definition peak_normalized (mix out : list R) : Prop :=
  exists peak,
    Np.max (Np.abs mix) = Some peak
    /\ 0 <= peak
    /\ (0 < peak ->
        out = map (fun x => x / peak * 0.9) mix
        /\ Np.max (Np.abs out) = Some 0.9)
    /\ (peak = 0 -> out = mix /\ Forall (eq 0) out).

(** The instruments whose voice takes the note's duration. *)
Definition pitched (track : Score.Track) : Prop :=
  Score.instrument_type track = "synth"
  \/ Score.instrument_type track = "guitar"
  \/ Score.instrument_type track = "bass".

(** The next [n] values [np.random.uniform(-1, 1, n)] delivers in state
    [g]. *)
Definition next_noise (n : nat) (g : Rng.state) : list R :=
  map (fun i => -1 + (1 - -1) * Rng.draws g (Rng.pos g + i)) (seq 0 n).

(** The generator state after [n] draws. *)
Definition advance (n : nat) (g : Rng.state) : Rng.state :=
  Rng.State (Rng.draws g) (Rng.pos g + n).

(** The time axis [np.linspace(0, duration, n, False)] of a generator. *)
Definition time_axis (duration : R) : list R :=
  default [] (Np.linspace 0 duration (Py.int (SAMPLE_RATE * duration)) false).

(** Every sample of a buffer lies within [B] of silence. *)
Definition bounded_by (B : R) (buf : list R) : Prop :=
  Forall (fun y => Rabs y <= B) buf.

(** A call returns a buffer of [n] samples that lie within [B]. *)
Definition returns_within (r : option (list R)) (n : Z) (B : R) : Prop :=
  exists buf, r = Some buf /\ Py.len buf = n /\ bounded_by B buf.

(** A call gives, if it returns, a buffer whose samples lie within [B]. *)
Definition stays_within (r : option (list R)) (B : R) : Prop :=
  forall buf, r = Some buf -> bounded_by B buf.

(** The notes the renderer passes over with [continue]: any note of a track
    whose instrument is none of the four, and a note of a drums track whose
    pitch is none of the three drums. *)
Definition skipped (track : Score.Track) (note : Score.Note) : Prop :=
  Score.instrument_type track ∉ ["synth"; "guitar"; "bass"; "drums"]
  \/ (Score.instrument_type track = "drums"
      /\ Score.pitch note ∉ ["Kick"; "Snare"; "HiHat"]).

(** The number of samples of [total_beats] beats. *)
Definition total_samples (self : Score.MusicComposer) (total_beats : R) : Z :=
  Py.int (SAMPLE_RATE * (total_beats * Score.beat_duration self)).

(** The number of samples of the voice of a note. *)
Definition note_samples (self : Score.MusicComposer) (note : Score.Note) : Z :=
  Py.int (SAMPLE_RATE * (Score.duration note * Score.beat_duration self)).

(** A track the renderer accepts for a buffer of [total_beats] beats: every
    note starts inside the buffer, and on a synth, guitar or bass track no
    note has a negative length in seconds. *)
Definition renderable (self : Score.MusicComposer) (total_beats : R)
    (track : Score.Track) : Prop :=
  Forall (fun note =>
            (0 <= Score.start_sample self note
             <= total_samples self total_beats)%Z
            /\ (pitched track ->
                0 <= Score.duration note * Score.beat_duration self))
         (Score.notes track).

(** The frequency a pitch resolves to in the generated table. *)
Definition frequency_of (p : string) : R :=
  Score.get_frequency (Score.mkNote p 0 1 0.8).

(** The natural note names, and the number of semitones from each of them to
    the third and to the fifth that the chord helper puts above it. *)
Definition natural_names : list string := ["C"; "D"; "E"; "F"; "G"; "A"; "B"].

Definition third_semitones (name : string) : Z :=
  if decide (name ∈ ["C"; "F"; "G"]) then 4 else 3.

Definition fifth_semitones (name : string) : Z :=
  if decide (name = "B") then 6 else 7.

(** A note that lies inside a score of [total_beats] beats, with a positive
    duration and a velocity between 0 and 1. *)
Definition well_placed (total_beats : Z) (note : Score.Note) : Prop :=
  0 <= Score.start_beat note
  /\ Score.start_beat note + Score.duration note <= IZR total_beats
  /\ 0 < Score.duration note
  /\ 0 < Score.velocity note <= 1.

(** A pitch the renderer has a voice or a frequency for: one of the three
    drums on the drums track, a name of the generated table elsewhere. *)
Definition playable (track_id : string) (note : Score.Note) : Prop :=
  if decide (track_id = "drums")
  then Score.pitch note ∈ ["Kick"; "Snare"; "HiHat"]
  else is_Some (Score.NOTE_FREQUENCIES !! Score.pitch note).

(** The roots of the chord progressions. *)
Definition progression_roots : list string :=
  ["C4"; "D4"; "E4"; "F4"; "G4"; "A4"; "B4"].

(** * Properties *)

(** ** Truncation and rounding *)

Lemma int_eq (n : Z) (x : R) :
  0 <= x -> IZR n <= x < IZR n + 1 -> Py.int x = n.
Proof.
  intros Hx Hn. unfold Py.int.
  destruct (Rle_dec 0 x) as [_|Hneg]; [|contradiction].
  by apply Zfloor_eq.
Qed.

Lemma int_nonneg (x : R) : 0 <= x -> (0 <= Py.int x)%Z.
Proof.
  intros Hx. unfold Py.int.
  destruct (Rle_dec 0 x) as [_|Hneg]; [|contradiction].
  by apply Zfloor_lub.
Qed.

Lemma int_neg_eq (n : Z) (x : R) :
  x < 0 -> IZR n - 1 < x <= IZR n -> Py.int x = n.
Proof.
  intros Hx Hn. unfold Py.int.
  destruct (Rle_dec 0 x) as [Hpos|_]; [lra|].
  rewrite (Zfloor_eq (- n) (- x)); [lia|].
  rewrite opp_IZR. lra.
Qed.

(** Truncation never moves a value by a whole unit, and never away from 0. *)
Lemma int_bounds (x : R) :
  Rabs (IZR (Py.int x) - x) < 1 /\ Rabs (IZR (Py.int x)) <= Rabs x.
Proof.
  unfold Py.int. destruct (Rle_dec 0 x) as [Hpos|Hneg].
  - pose proof (Zfloor_bound x) as [Hlo Hhi].
    assert (0 <= IZR (Zfloor x)) by (apply IZR_le, Zfloor_lub; simpl; lra).
    split; [apply Rabs_def1; lra|].
    rewrite !Rabs_pos_eq; lra.
  - pose proof (Zfloor_bound (- x)) as [Hlo Hhi].
    assert (0 <= IZR (Zfloor (- x))) by (apply IZR_le, Zfloor_lub; simpl; lra).
    rewrite opp_IZR. split; [apply Rabs_def1; lra|].
    rewrite Rabs_Ropp, (Rabs_pos_eq (IZR _)) by done.
    rewrite Rabs_left by lra. lra.
Qed.

Lemma round_up_eq (n : Z) (x : R) :
  IZR n - 1 / 2 < x < IZR n -> Py.round x = n.
Proof.
  intros Hn. unfold Py.round.
  assert (Zfloor x = (n - 1)%Z) as ->.
  { apply Zfloor_eq. rewrite minus_IZR. lra. }
  rewrite minus_IZR.
  destruct (Rlt_dec _ _) as [H1|H1]; [lra|].
  destruct (Rlt_dec _ _) as [H2|H2]; [lia|lra].
Qed.

(** ** numpy arrays *)

Lemma len_nat {A} (l : list A) : Z.to_nat (Py.len l) = length l.
Proof. unfold Py.len. lia. Qed.

Lemma length_arange (n : nat) : length (Np.arange n) = n.
Proof. unfold Np.arange. by rewrite length_map, length_seq. Qed.

Lemma linspace_Some (start stop : R) (num : Z) (endpoint : bool) :
  (0 <= num)%Z ->
  exists t, Np.linspace start stop num endpoint = Some t
            /\ length t = Z.to_nat num.
Proof.
  intros Hn. unfold Np.linspace.
  destruct (Z.ltb_spec num 0) as [?|_]; [lia|].
  eexists; split; [done|]. by rewrite length_map, length_arange.
Qed.

Lemma linspace_negative (start stop : R) (num : Z) (endpoint : bool) :
  (num < 0)%Z -> Np.linspace start stop num endpoint = None.
Proof.
  intros Hn. unfold Np.linspace. by destruct (Z.ltb_spec num 0); [|lia].
Qed.

Lemma arange_lt (n : nat) : Forall (fun x => 0 <= x <= INR n - 1) (Np.arange n).
Proof.
  unfold Np.arange. rewrite Forall_map. apply Forall_forall.
  intros i [_ Hi]%elem_of_seq. simpl in *. split; [apply pos_INR|].
  assert (INR i + 1 <= INR n); [|lra].
  rewrite <- S_INR. apply le_INR. lia.
Qed.

Lemma div_unit (x d : R) : 0 <= x <= d -> 0 < d -> 0 <= x / d <= 1.
Proof.
  intros Hx Hd. unfold Rdiv.
  assert (0 < / d) by by apply Rinv_0_lt_compat.
  split; [nra|].
  replace 1 with (d * / d) by (field; lra). nra.
Qed.

Lemma ramp_up_unit (num : Z) ramp :
  Np.linspace 0 1 num true = Some ramp -> Forall unit_interval ramp.
Proof.
  unfold Np.linspace. destruct (Z.ltb_spec num 0) as [?|Hn]; [done|].
  intros [= <-]. rewrite Forall_map.
  eapply Forall_impl; [apply arange_lt|]. intros x Hx. simpl in *.
  rewrite INR_IZR_INZ, Z2Nat.id in Hx by done.
  rewrite minus_IZR. unfold unit_interval.
  destruct (decide (num = 1%Z)) as [->|Hne].
  - assert (x = 0) as -> by lra. lra.
  - destruct (decide (num = 0%Z)) as [->|Hne0]; [simpl in Hx; lra|].
    assert (1 < IZR num) by (apply IZR_lt; lia).
    replace (0 + x * ((1 - 0) / (IZR num - 1))) with (x / (IZR num - 1))
      by (field; lra).
    apply div_unit; lra.
Qed.

Lemma ramp_down_unit (num : Z) ramp :
  Np.linspace 1 0 num true = Some ramp -> Forall unit_interval ramp.
Proof.
  unfold Np.linspace. destruct (Z.ltb_spec num 0) as [?|Hn]; [done|].
  intros [= <-]. rewrite Forall_map.
  eapply Forall_impl; [apply arange_lt|]. intros x Hx. simpl in *.
  rewrite INR_IZR_INZ, Z2Nat.id in Hx by done.
  rewrite minus_IZR. unfold unit_interval.
  destruct (decide (num = 1%Z)) as [->|Hne].
  - assert (x = 0) as -> by lra. lra.
  - destruct (decide (num = 0%Z)) as [->|Hne0]; [simpl in Hx; lra|].
    assert (1 < IZR num) by (apply IZR_lt; lia).
    replace (1 + x * ((0 - 1) / (IZR num - 1))) with (1 - x / (IZR num - 1))
      by (field; lra).
    pose proof (div_unit x (IZR num - 1)). lra.
Qed.

(** ** Slices *)

Lemma slice_index_range (n i : Z) :
  (0 <= n)%Z -> (0 <= Py.slice_index n i <= n)%Z.
Proof. unfold Py.slice_index. destruct (Z.ltb_spec i 0); lia. Qed.

Lemma bounds_inside (n : Z) (start stop : option Z) lo m :
  (0 <= n)%Z -> Py.bounds n start stop = (lo, m) -> (lo + m <= Z.to_nat n)%nat.
Proof.
  intros Hn. unfold Py.bounds. intros [= <- <-].
  assert (0 <= from_option (Py.slice_index n) 0 start <= n)%Z as Hlo.
  { destruct start; simpl; [by apply slice_index_range|lia]. }
  assert (0 <= from_option (Py.slice_index n) n stop <= n)%Z as Hhi.
  { destruct stop; simpl; [by apply slice_index_range|lia]. }
  lia.
Qed.

Lemma broadcast_to_length (v : list R) (m : nat) v' :
  Np.broadcast_to v m = Some v' -> length v' = m.
Proof.
  unfold Np.broadcast_to. destruct (decide _) as [<-|_]; [by intros [= <-]|].
  destruct v as [|x [|??]]; try done. intros [= <-]. apply length_replicate.
Qed.

Lemma broadcast_to_Forall (P : R -> Prop) (v : list R) (m : nat) v' :
  Np.broadcast_to v m = Some v' -> Forall P v -> Forall P v'.
Proof.
  unfold Np.broadcast_to. destruct (decide _) as [<-|_]; [by intros [= <-]|].
  destruct v as [|x [|??]]; try done. intros [= <-] Hx.
  apply Forall_replicate. by inversion Hx.
Qed.

Lemma broadcast_to_same (v : list R) : Np.broadcast_to v (length v) = Some v.
Proof. unfold Np.broadcast_to. by destruct (decide _). Qed.

Lemma set_slice_length (a : list R) start stop v a' :
  Np.set_slice a start stop v = Some a' -> length a' = length a.
Proof.
  unfold Np.set_slice.
  destruct (Py.bounds _ _ _) as [lo m] eqn:Hb.
  apply bounds_inside in Hb; [|unfold Py.len; lia]. rewrite len_nat in Hb.
  destruct (Np.broadcast_to v m) as [v'|] eqn:Hv; [|done].
  apply broadcast_to_length in Hv. intros [= <-].
  rewrite !length_app, length_take, length_drop. lia.
Qed.

Lemma set_slice_Forall (P : R -> Prop) (a : list R) start stop v a' :
  Np.set_slice a start stop v = Some a' ->
  Forall P a -> Forall P v -> Forall P a'.
Proof.
  unfold Np.set_slice.
  destruct (Py.bounds _ _ _) as [lo m].
  destruct (Np.broadcast_to v m) as [v'|] eqn:Hv; [|done].
  intros [= <-] Ha Hv'. rewrite !Forall_app. split_and!.
  - by apply Forall_take.
  - by eapply broadcast_to_Forall.
  - by apply Forall_drop.
Qed.

Lemma iadd_slice_length (a : list R) start stop v a' :
  Np.iadd_slice a start stop v = Some a' -> length a' = length a.
Proof.
  unfold Np.iadd_slice.
  destruct (Py.bounds _ _ _) as [lo m] eqn:Hb.
  apply bounds_inside in Hb; [|unfold Py.len; lia]. rewrite len_nat in Hb.
  destruct (Np.broadcast_to v m) as [v'|] eqn:Hv; [|done].
  apply broadcast_to_length in Hv. intros [= <-].
  rewrite !length_app, length_zip_with, !length_take, !length_drop. lia.
Qed.

(** Adding an empty wave into any slice leaves the buffer as it is. *)
Lemma iadd_slice_empty (a : list R) (start : Z) :
  Np.iadd_slice a (Some start) (Some (Py.min start (Py.len a))) [] = Some a.
Proof.
  unfold Np.iadd_slice.
  destruct (Py.bounds _ _ _) as [lo m] eqn:Hb.
  assert (m = 0%nat) as ->.
  { unfold Py.bounds, Py.slice_index, Py.min, Py.len in *. simpl in Hb.
    injection Hb as <- <-.
    destruct (Z.ltb_spec start 0), (Z.ltb_spec (start `min` Z.of_nat (length a)) 0); lia. }
  rewrite Nat.add_0_r. simpl. by rewrite take_drop.
Qed.

Lemma slice_nil {A} (start stop : option Z) : Py.slice (@nil A) start stop = [].
Proof.
  unfold Py.slice. destruct (Py.bounds _ _ _). by rewrite drop_nil, take_nil.
Qed.

(** ** The envelope *)

Lemma ones_Some (n : Z) :
  (0 <= n)%Z -> Np.ones n = Some (replicate (Z.to_nat n) 1).
Proof. intros Hn. unfold Np.ones. by destruct (Z.ltb_spec n 0); [lia|]. Qed.

Lemma mul_same_length (a b : list R) :
  length a = length b -> Np.mul a b = Some (zip_with Rmult a b).
Proof. intros Hl. unfold Np.mul, Np.binop. by destruct (decide _). Qed.

Lemma unit_interval_1 : unit_interval 1.
Proof. unfold unit_interval. lra. Qed.

Lemma shaped_by_length wave envelope out :
  shaped_by wave envelope out -> length out = length wave.
Proof. intros (Hl & _ & ->). rewrite length_zip_with. lia. Qed.

Lemma shaped_by_attenuates wave envelope out :
  shaped_by wave envelope out ->
  Forall2 (fun y x => Rabs y <= Rabs x) out wave.
Proof.
  intros (Hl & He & ->). revert envelope Hl He.
  induction wave as [|x wave IH]; intros [|e envelope] Hl He;
    simpl in *; try done; try by constructor.
  inversion He as [|?? [He0 He1] He']; subst.
  constructor; [|apply IH; [lia|done]].
  rewrite Rabs_mult, (Rabs_pos_eq e) by done.
  pose proof (Rabs_pos x). nra.
Qed.

Lemma ramp_Some (start stop : R) (num : Z) :
  (0 <= num)%Z ->
  Np.linspace start stop num true = Some (ramp start stop num)
  /\ length (ramp start stop num) = Z.to_nat num.
Proof.
  intros Hn. unfold ramp.
  destruct (linspace_Some start stop num true) as (t & -> & Hl); done.
Qed.

Lemma guarded_envelope_length (n A Rl : Z) :
  (0 <= n)%Z -> length (guarded_envelope n A Rl) = Z.to_nat n.
Proof.
  intros Hn. unfold guarded_envelope.
  set (e1 := if (0 <? A)%Z && (A <? n)%Z then _ else _).
  assert (length e1 = Z.to_nat n) as Hl1.
  { unfold e1. destruct (Z.ltb_spec 0 A), (Z.ltb_spec A n); simpl;
      rewrite ?length_app, ?length_drop, ?length_replicate; try done.
    destruct (ramp_Some 0 1 A) as [_ ->]; lia. }
  destruct (Z.ltb_spec 0 Rl), (Z.ltb_spec Rl n); simpl; try done.
  rewrite length_app, length_take. destruct (ramp_Some 1 0 Rl) as [_ ->]; lia.
Qed.

Lemma guarded_envelope_unit (n A Rl : Z) :
  Forall unit_interval (guarded_envelope n A Rl).
Proof.
  unfold guarded_envelope.
  assert (Forall unit_interval (replicate (Z.to_nat n) 1)) as Hu0.
  { apply Forall_replicate, unit_interval_1. }
  set (e1 := if (0 <? A)%Z && (A <? n)%Z then _ else _).
  assert (Forall unit_interval e1) as Hu1.
  { unfold e1. destruct (Z.ltb_spec 0 A), (Z.ltb_spec A n); simpl; try done.
    apply Forall_app. split; [|by apply Forall_drop].
    destruct (ramp_Some 0 1 A) as [Hr _]; [lia|]. by eapply ramp_up_unit. }
  destruct (Z.ltb_spec 0 Rl), (Z.ltb_spec Rl n); simpl; try done.
  apply Forall_app. split; [by apply Forall_take|].
  destruct (ramp_Some 1 0 Rl) as [Hr _]; [lia|]. by eapply ramp_down_unit.
Qed.

(** The guarded envelope never raises, and its multipliers are those of
    [guarded_envelope]. *)
Lemma score_envelope_exact (wave : list R) (duration attack release : R) :
  Score.Synthesizer._apply_envelope wave duration attack release
  = Some (zip_with Rmult wave
            (guarded_envelope (Py.len wave) (Py.int (attack * SAMPLE_RATE))
                              (Py.int (release * SAMPLE_RATE)))).
Proof.
  unfold Score.Synthesizer._apply_envelope.
  pose proof (guarded_envelope_length (Py.len wave)
                (Py.int (attack * SAMPLE_RATE))
                (Py.int (release * SAMPLE_RATE))) as Hlen.
  revert Hlen. unfold guarded_envelope.
  set (n := Py.len wave).
  set (A := Py.int (attack * SAMPLE_RATE)).
  set (Rl := Py.int (release * SAMPLE_RATE)).
  assert (n = Z.of_nat (length wave)) as Hnw by done. clearbody n.
  assert (0 <= n)%Z as Hn by lia.
  rewrite ones_Some by done. simpl.
  set (e0 := replicate (Z.to_nat n) 1).
  assert (length e0 = Z.to_nat n) as Hl0.
  { unfold e0. by rewrite length_replicate. }
  clearbody e0.
  set (e1 := if (0 <? A)%Z && (A <? n)%Z then _ else _).
  assert ((if (0 <? A)%Z && (A <? n)%Z
           then ramp ← Np.linspace 0 1 A true;
                Np.set_slice e0 None (Some A) ramp
           else Some e0) = Some e1 /\ length e1 = Z.to_nat n) as [-> Hl1].
  { unfold e1. destruct (Z.ltb_spec 0 A), (Z.ltb_spec A n); simpl; try done.
    destruct (ramp_Some 0 1 A) as [-> Hlr]; [lia|]. simpl.
    unfold Np.set_slice, Py.bounds, Py.slice_index. simpl.
    destruct (Z.ltb_spec A 0); [lia|].
    assert (Py.len e0 = n) as -> by (unfold Py.len; lia).
    replace (Z.to_nat (A `min` n - 0)) with (length (ramp 0 1 A)) by lia.
    rewrite broadcast_to_same. simpl. rewrite Hlr.
    split; [done|]. rewrite length_app, length_drop. lia. }
  clearbody e1. simpl.
  set (e2 := if (0 <? Rl)%Z && (Rl <? n)%Z then _ else _).
  assert ((if (0 <? Rl)%Z && (Rl <? n)%Z
           then ramp ← Np.linspace 1 0 Rl true;
                Np.set_slice e1 (Some (- Rl)%Z) None ramp
           else Some e1) = Some e2) as ->.
  { unfold e2. destruct (Z.ltb_spec 0 Rl), (Z.ltb_spec Rl n); simpl; try done.
    destruct (ramp_Some 1 0 Rl) as [-> Hlr]; [lia|]. simpl.
    unfold Np.set_slice, Py.bounds, Py.slice_index. simpl.
    destruct (Z.ltb_spec (- Rl) 0); [|lia].
    assert (Py.len e1 = n) as -> by (unfold Py.len; lia).
    replace (Z.to_nat (n - (0 `max` (- Rl + n))))
      with (length (ramp 1 0 Rl)) by lia.
    rewrite broadcast_to_same. simpl.
    rewrite (drop_ge e1) by lia. rewrite app_nil_r.
    do 3 f_equal. lia. }
  simpl. intros Hl2. apply mul_same_length. rewrite Hl2; lia.
Qed.

Lemma score_envelope_shaped (wave : list R) (duration attack release : R) :
  exists envelope out,
    Score.Synthesizer._apply_envelope wave duration attack release = Some out
    /\ shaped_by wave envelope out.
Proof.
  eexists _, _. split; [apply score_envelope_exact|].
  split_and!; [|apply guarded_envelope_unit|done].
  rewrite guarded_envelope_length; unfold Py.len; lia.
Qed.

(** The unguarded envelope: whenever it returns, it has shaped the wave. *)
Lemma electric_envelope_shaped (wave : list R) (duration attack release : R) out :
  Electric.Synthesizer._apply_envelope wave duration attack release = Some out ->
  exists envelope, shaped_by wave envelope out.
Proof.
  unfold Electric.Synthesizer._apply_envelope.
  rewrite ones_Some by (unfold Py.len; lia). simpl.
  set (e0 := replicate _ 1).
  assert (length e0 = length wave) as Hl0.
  { unfold e0. rewrite length_replicate. apply len_nat. }
  assert (Forall unit_interval e0) as Hu0.
  { apply Forall_replicate, unit_interval_1. }
  clearbody e0.
  destruct (if (0 <? _)%Z then _ else _) as [e1|] eqn:He1; [simpl|done].
  assert (length e1 = length wave /\ Forall unit_interval e1) as [Hl1 Hu1].
  { destruct (0 <? _)%Z; [|by injection He1 as <-].
    destruct (Np.linspace 0 1 _ true) as [ramp|] eqn:Hr; [simpl in He1|done].
    split; [by erewrite set_slice_length|].
    eapply set_slice_Forall; [done..|by eapply ramp_up_unit]. }
  clear He1.
  destruct (if (0 <? _)%Z then _ else _) as [e2|] eqn:He2; [simpl|done].
  assert (length e2 = length wave /\ Forall unit_interval e2) as [Hl2 Hu2].
  { destruct (0 <? _)%Z; [|by injection He2 as <-].
    destruct (Np.linspace 1 0 _ true) as [ramp|] eqn:Hr; [simpl in He2|done].
    split; [by erewrite set_slice_length|].
    eapply set_slice_Forall; [done..|by eapply ramp_down_unit]. }
  rewrite mul_same_length by done. intros [= <-]. by exists e2.
Qed.

(** The unguarded envelope returns when neither ramp is longer than the
    wave. *)
Lemma electric_envelope_returns (wave : list R) (duration attack release : R) :
  (Py.int (attack * SAMPLE_RATE) <= Py.len wave)%Z ->
  (Py.int (release * SAMPLE_RATE) <= Py.len wave)%Z ->
  is_Some (Electric.Synthesizer._apply_envelope wave duration attack release).
Proof.
  unfold Electric.Synthesizer._apply_envelope.
  set (n := Py.len wave).
  set (A := Py.int (attack * SAMPLE_RATE)).
  set (Rl := Py.int (release * SAMPLE_RATE)).
  assert (n = Z.of_nat (length wave)) as Hnw by done. clearbody n.
  intros HA HR.
  rewrite ones_Some by lia. simpl.
  set (e0 := replicate (Z.to_nat n) 1).
  assert (length e0 = length wave) as Hl0.
  { unfold e0. rewrite length_replicate. lia. }
  clearbody e0.
  assert (exists e1,
    (if (0 <? A)%Z
     then ramp ← Np.linspace 0 1 A true; Np.set_slice e0 None (Some A) ramp
     else Some e0) = Some e1 /\ length e1 = length wave) as (e1 & -> & Hl1).
  { destruct (Z.ltb_spec 0 A); simpl; eauto.
    destruct (linspace_Some 0 1 A true) as (ramp & Hr & Hlr); [lia|].
    rewrite Hr. simpl.
    destruct (Np.set_slice e0 None (Some A) ramp) as [e1|] eqn:Hs.
    { exists e1. split; [done|]. by erewrite set_slice_length. }
    revert Hs. unfold Np.set_slice, Py.bounds, Py.slice_index. simpl.
    destruct (Z.ltb_spec A 0); [lia|].
    assert (Py.len e0 = n) as -> by (unfold Py.len; lia).
    replace (Z.to_nat (A `min` n - 0)) with (length ramp) by lia.
    by rewrite broadcast_to_same. }
  simpl.
  assert (exists e2,
    (if (0 <? Rl)%Z
     then ramp ← Np.linspace 1 0 Rl true;
          Np.set_slice e1 (Some (- Rl)%Z) None ramp
     else Some e1) = Some e2 /\ length e2 = length wave) as (e2 & -> & Hl2).
  { destruct (Z.ltb_spec 0 Rl); simpl; eauto.
    destruct (linspace_Some 1 0 Rl true) as (ramp & Hr & Hlr); [lia|].
    rewrite Hr. simpl.
    destruct (Np.set_slice e1 (Some (- Rl)%Z) None ramp) as [e2|] eqn:Hs.
    { exists e2. split; [done|]. by erewrite set_slice_length. }
    revert Hs. unfold Np.set_slice, Py.bounds, Py.slice_index. simpl.
    destruct (Z.ltb_spec (- Rl) 0); [|lia].
    assert (Py.len e1 = n) as -> by (unfold Py.len; lia).
    replace (Z.to_nat (n - (0 `max` (- Rl + n)))) with (length ramp) by lia.
    by rewrite broadcast_to_same. }
  simpl. by rewrite mul_same_length.
Qed.

(** ** Oscillators *)

Lemma int_decimal_constants :
  Py.int (0.05 * SAMPLE_RATE) = 2205%Z /\ Py.int (0.1 * SAMPLE_RATE) = 4410%Z
  /\ Py.int (0.3 * SAMPLE_RATE) = 13230%Z
  /\ Py.int (0.4 * SAMPLE_RATE) = 17640%Z.
Proof.
  unfold SAMPLE_RATE. split_and!; apply int_eq; lra.
Qed.

Lemma score_shaped_len (wave : list R) (duration attack release : R) (n : Z) :
  Py.len wave = n ->
  returns_len (Score.Synthesizer._apply_envelope wave duration attack release) n.
Proof.
  intros <-.
  destruct (score_envelope_shaped wave duration attack release)
    as (envelope & out & -> & Hs).
  exists out. split; [done|]. unfold Py.len.
  by rewrite (shaped_by_length _ _ _ Hs).
Qed.

Lemma electric_shaped_len (wave : list R) (duration attack release : R) (n : Z) :
  Py.len wave = n ->
  (Py.int (attack * SAMPLE_RATE) <= n)%Z ->
  (Py.int (release * SAMPLE_RATE) <= n)%Z ->
  returns_len
    (Electric.Synthesizer._apply_envelope wave duration attack release) n.
Proof.
  intros <- HA HR.
  destruct (electric_envelope_returns wave duration attack release)
    as [out Hout]; [done..|].
  destruct (electric_envelope_shaped _ _ _ _ _ Hout) as [envelope Hs].
  exists out. split; [done|]. unfold Py.len.
  by rewrite (shaped_by_length _ _ _ Hs).
Qed.

Lemma sample_count_nonneg (duration : R) :
  0 < duration -> (0 <= Py.int (SAMPLE_RATE * duration))%Z.
Proof. intros Hd. apply int_nonneg. unfold SAMPLE_RATE. nra. Qed.

Lemma len_map_of_nat {A} (f : R -> A) (t : list R) (n : Z) :
  (0 <= n)%Z -> length t = Z.to_nat n -> Py.len (map f t) = n.
Proof. intros Hn Hl. unfold Py.len. rewrite length_map. lia. Qed.

Ltac run_time_axis Hd :=
  let t := fresh "t" in
  let Ht := fresh "Ht" in
  let Hl := fresh "Hl" in
  pose proof (sample_count_nonneg _ Hd) as Hn;
  match goal with
  | |- context [Np.linspace ?a ?b ?n ?e] =>
      destruct (linspace_Some a b n e) as (t & Ht & Hl); [exact Hn|];
      rewrite Ht; simpl
  end.


Lemma score_oscillators_len (freq duration velocity : R) :
  0 < duration ->
  let n := Py.int (SAMPLE_RATE * duration) in
  returns_len (Score.Synthesizer.sine_wave freq duration velocity) n
  /\ returns_len (Score.Synthesizer.square_wave freq duration velocity) n
  /\ returns_len (Score.Synthesizer.sawtooth_wave freq duration velocity) n
  /\ returns_len (Score.Synthesizer.pad_sound freq duration velocity) n.
Proof.
  intros Hd n. split_and!.
  - unfold Score.Synthesizer.sine_wave. run_time_axis Hd.
    by apply score_shaped_len, len_map_of_nat.
  - unfold Score.Synthesizer.square_wave. run_time_axis Hd.
    by apply score_shaped_len, len_map_of_nat.
  - unfold Score.Synthesizer.sawtooth_wave. run_time_axis Hd.
    by apply score_shaped_len, len_map_of_nat.
  - unfold Score.Synthesizer.pad_sound. run_time_axis Hd.
    apply score_shaped_len. rewrite <- list_fmap_compose.
    by apply len_map_of_nat.
Qed.

Lemma electric_oscillators_len (freq duration velocity : R) :
  0 < duration ->
  let n := Py.int (SAMPLE_RATE * duration) in
  ((4410 <= n)%Z ->
   returns_len (Electric.Synthesizer.sine_wave freq duration velocity) n
   /\ returns_len (Electric.Synthesizer.square_wave freq duration velocity) n
   /\ returns_len
        (Electric.Synthesizer.sawtooth_wave freq duration velocity) n)
  /\ ((17640 <= n)%Z ->
      returns_len (Electric.Synthesizer.pad_sound freq duration velocity) n).
Proof.
  intros Hd n. destruct int_decimal_constants as (Ha & Hr & Hpa & Hpr).
  split; intros Hlong; [split_and!|].
  - unfold Electric.Synthesizer.sine_wave. run_time_axis Hd.
    apply electric_shaped_len; [by apply len_map_of_nat|fold n; lia..].
  - unfold Electric.Synthesizer.square_wave. run_time_axis Hd.
    apply electric_shaped_len; [by apply len_map_of_nat|fold n; lia..].
  - unfold Electric.Synthesizer.sawtooth_wave. run_time_axis Hd.
    apply electric_shaped_len; [by apply len_map_of_nat|fold n; lia..].
  - unfold Electric.Synthesizer.pad_sound. run_time_axis Hd.
    apply electric_shaped_len;
      [rewrite <- list_fmap_compose; by apply len_map_of_nat|fold n; lia..].
Qed.

(** C1, as the code has it: the sample count is [int(44100 * duration)], the
    truncation and not the rounding of the product.  With the guarded
    envelope every oscillator returns a buffer of that length for every
    positive duration; with the unguarded envelope it does so when the buffer
    is at least as long as both ramps. *)
Theorem oscillator_length_truncated (freq duration velocity : R) :
  0 < duration ->
  let n := Py.int (SAMPLE_RATE * duration) in
  (returns_len (Score.Synthesizer.sine_wave freq duration velocity) n
   /\ returns_len (Score.Synthesizer.square_wave freq duration velocity) n
   /\ returns_len (Score.Synthesizer.sawtooth_wave freq duration velocity) n
   /\ returns_len (Score.Synthesizer.pad_sound freq duration velocity) n)
  /\ ((4410 <= n)%Z ->
      returns_len (Electric.Synthesizer.sine_wave freq duration velocity) n
      /\ returns_len (Electric.Synthesizer.square_wave freq duration velocity) n
      /\ returns_len
           (Electric.Synthesizer.sawtooth_wave freq duration velocity) n)
  /\ ((17640 <= n)%Z ->
      returns_len (Electric.Synthesizer.pad_sound freq duration velocity) n).
Proof.
  intros Hd n. split.
  - by apply score_oscillators_len.
  - by apply electric_oscillators_len.
Qed.

Lemma oscillator_length_truncated_witness :
  returns_len (Score.Synthesizer.sine_wave 440 (1 / 2) 1)
              (Py.int (SAMPLE_RATE * (1 / 2)))
  /\ Py.int (SAMPLE_RATE * (1 / 2)) = 22050%Z.
Proof.
  split.
  - apply (oscillator_length_truncated 440 (1 / 2) 1). lra.
  - apply int_eq; unfold SAMPLE_RATE; lra.
Defined.

(** C1 as stated fails: at 128 BPM one beat lasts 15/32 s, 44100 * 15/32 is
    20671.875, the buffer has 20671 samples and the rounding is 20672. *)
Lemma oscillator_length_not_rounded :
  exists buf,
    Score.Synthesizer.sine_wave 440 (15 / 32) 1 = Some buf
    /\ Py.len buf = 20671%Z
    /\ Py.round (15 / 32 * 44100) = 20672%Z
    /\ Py.len buf <> Py.round (15 / 32 * 44100).
Proof.
  destruct (score_oscillators_len 440 (15 / 32) 1) as [(buf & Hb & Hl) _];
    [lra|].
  assert (Py.int (SAMPLE_RATE * (15 / 32)) = 20671%Z) as Hn.
  { apply int_eq; unfold SAMPLE_RATE; lra. }
  assert (Py.round (15 / 32 * 44100) = 20672%Z) as Hr.
  { apply round_up_eq. lra. }
  exists buf. rewrite Hr, Hl, Hn. done.
Qed.

(** Evaluates the integer differences left under [IZR] by a concrete ramp. *)
Ltac eval_ramp_div :=
  repeat match goal with
         | |- context [IZR (Zpos ?a - Zpos ?b)] =>
             let v := eval vm_compute in (Zpos a - Zpos b)%Z in
             change (Zpos a - Zpos b)%Z with v
         end.

(** A ramp longer than the target slice, and longer than one sample, cannot be
    assigned: the shapes differ and numpy raises. *)
Lemma set_slice_prefix_too_long (a : list R) (stop : Z) (v : list R) :
  (Py.len a < stop)%Z -> (1 < stop)%Z -> length v = Z.to_nat stop ->
  Np.set_slice a None (Some stop) v = None.
Proof.
  intros Hlt H1 Hv. unfold Np.set_slice, Py.bounds, Py.slice_index. simpl.
  destruct (Z.ltb_spec stop 0); [lia|].
  unfold Np.broadcast_to. destruct (decide _) as [Heq|_].
  { unfold Py.len in *. lia. }
  destruct v as [|x [|y v]]; simpl in *; try done. lia.
Qed.

Lemma set_slice_suffix_too_long (a : list R) (k : Z) (v : list R) :
  (Py.len a < k)%Z -> (1 < k)%Z -> length v = Z.to_nat k ->
  Np.set_slice a (Some (- k)%Z) None v = None.
Proof.
  intros Hlt H1 Hv. unfold Np.set_slice, Py.bounds, Py.slice_index. simpl.
  destruct (Z.ltb_spec (- k) 0); [|lia].
  unfold Np.broadcast_to. destruct (decide _) as [Heq|_].
  { unfold Py.len in *. lia. }
  destruct v as [|x [|y v]]; simpl in *; try done. lia.
Qed.

(** The unguarded envelope raises on every buffer shorter than its attack
    ramp. *)
Lemma electric_envelope_raises (wave : list R) (duration attack release : R) :
  (Py.len wave < Py.int (attack * SAMPLE_RATE))%Z ->
  (1 < Py.int (attack * SAMPLE_RATE))%Z ->
  Electric.Synthesizer._apply_envelope wave duration attack release = None.
Proof.
  intros Hlt H1. unfold Electric.Synthesizer._apply_envelope.
  rewrite ones_Some by (unfold Py.len; lia). simpl.
  destruct (Z.ltb_spec 0 (Py.int (attack * SAMPLE_RATE))); [|lia].
  destruct (ramp_Some 0 1 (Py.int (attack * SAMPLE_RATE))) as [-> Hlr]; [lia|].
  simpl. rewrite set_slice_prefix_too_long; try done.
  unfold Py.len in *. rewrite length_replicate. lia.
Qed.

Lemma set_slice_prefix_fits (a : list R) (stop : Z) (v : list R) :
  (0 <= stop <= Py.len a)%Z -> length v = Z.to_nat stop ->
  Np.set_slice a None (Some stop) v = Some (v ++ drop (Z.to_nat stop) a).
Proof.
  intros Hs Hv. unfold Np.set_slice, Py.bounds, Py.slice_index. simpl.
  destruct (Z.ltb_spec stop 0); [lia|].
  replace (Z.to_nat (stop `min` Py.len a - 0)) with (length v) by lia.
  rewrite broadcast_to_same. simpl. by rewrite Hv.
Qed.

(** It also raises on every buffer that holds the attack ramp and is shorter
    than the release ramp. *)
Lemma electric_envelope_raises_release
    (wave : list R) (duration attack release : R) :
  (Py.int (attack * SAMPLE_RATE) <= Py.len wave)%Z ->
  (Py.len wave < Py.int (release * SAMPLE_RATE))%Z ->
  (1 < Py.int (release * SAMPLE_RATE))%Z ->
  Electric.Synthesizer._apply_envelope wave duration attack release = None.
Proof.
  intros HA Hlt H1. unfold Electric.Synthesizer._apply_envelope.
  set (A := Py.int (attack * SAMPLE_RATE)) in *.
  set (Rl := Py.int (release * SAMPLE_RATE)) in *.
  rewrite ones_Some by (unfold Py.len; lia). simpl.
  set (e0 := replicate _ 1).
  assert (length e0 = length wave) as Hl0.
  { unfold e0. rewrite length_replicate. apply len_nat. }
  clearbody e0.
  assert (exists e1,
    (if (0 <? A)%Z
     then ramp ← Np.linspace 0 1 A true; Np.set_slice e0 None (Some A) ramp
     else Some e0) = Some e1 /\ length e1 = length wave) as (e1 & -> & Hl1).
  { destruct (Z.ltb_spec 0 A); simpl; [|by exists e0].
    destruct (ramp_Some 0 1 A) as [-> Hlr]; [lia|]. simpl.
    rewrite set_slice_prefix_fits; [|unfold Py.len in *; lia|done].
    eexists. split; [done|]. rewrite length_app, length_drop.
    unfold Py.len in *. lia. }
  simpl. destruct (Z.ltb_spec 0 Rl); [|lia].
  destruct (ramp_Some 1 0 Rl) as [-> Hlr]; [lia|]. simpl.
  rewrite set_slice_suffix_too_long; [done| |done..].
  unfold Py.len in *. lia.
Qed.

(** C5 as stated fails on a three-sample buffer with the default ramps (2205
    and 4410 samples): the guarded envelope leaves the buffer as it is, where
    clamped ramps of three samples would fade it to 0; and the unguarded
    envelope of [electric_music_composer.py] raises. *)
Lemma envelope_not_clamped :
  Score.Synthesizer._apply_envelope [1; 1; 1] (3 / 44100) 0.05 0.1
  = Some [1; 1; 1]
  /\ zip_with Rmult [1; 1; 1] (clamped_envelope 3 2205 4410) = [1; 1 / 2; 0]
  /\ Electric.Synthesizer._apply_envelope [1; 1; 1] (3 / 44100) 0.05 0.1
     = None.
Proof.
  destruct int_decimal_constants as (Ha & Hr & _).
  split_and!.
  - rewrite score_envelope_exact, Ha, Hr. unfold guarded_envelope. simpl.
    do 2 f_equal; [lra|]. do 2 f_equal; lra.
  - unfold clamped_envelope.
    change (2205 `min` 3)%Z with 3%Z. change (4410 `min` 3)%Z with 3%Z.
    unfold ramp, Np.linspace, Np.arange. simpl. eval_ramp_div.
    f_equal; [lra|]. f_equal; [lra|]. f_equal; lra.
  - apply electric_envelope_raises; rewrite Ha; unfold Py.len; simpl; lia.
Qed.

(** C5, as the code has it.  The guarded envelope ([with_score] and [app])
    never raises and every multiplier lies between 0 and 1, but a ramp is
    written only when its length is positive and less than the buffer length:
    a ramp at least as long as the buffer is skipped, not clamped, whatever
    the other ramp does.  The four cases give the multipliers sample by
    sample: no ramp, the attack alone, the release alone, and both, the
    attack first and the release over it; when the two ramps are together
    at least as long as the buffer the release cuts into the attack. *)
Theorem envelope_guarded_overlap (wave : list R) (duration attack release : R) :
  let n := Py.len wave in
  let A := Py.int (attack * SAMPLE_RATE) in
  let Rl := Py.int (release * SAMPLE_RATE) in
  let attack_written := (0 < A < n)%Z in
  let release_written := (0 < Rl < n)%Z in
  let after_attack := ramp 0 1 A ++ replicate (Z.to_nat (n - A)) 1 in
  exists envelope,
    Score.Synthesizer._apply_envelope wave duration attack release
    = Some (zip_with Rmult wave envelope)
    /\ length envelope = length wave
    /\ Forall unit_interval envelope
    /\ (~ attack_written -> ~ release_written ->
        envelope = replicate (length wave) 1)
    /\ (attack_written -> ~ release_written -> envelope = after_attack)
    /\ (~ attack_written -> release_written ->
        envelope = replicate (Z.to_nat (n - Rl)) 1 ++ ramp 1 0 Rl)
    /\ (attack_written -> release_written ->
        envelope = take (Z.to_nat (n - Rl)) after_attack ++ ramp 1 0 Rl)
    /\ (attack_written -> release_written -> (n <= A + Rl)%Z ->
        envelope = take (Z.to_nat (n - Rl)) (ramp 0 1 A) ++ ramp 1 0 Rl).
Proof.
  intros n A Rl attack_written release_written after_attack.
  assert (0 <= n)%Z as Hn by (unfold n, Py.len; lia).
  assert (Z.to_nat n = length wave) as Hnw by (unfold n, Py.len; lia).
  assert (forall k, (0 <= k <= n)%Z ->
            drop (Z.to_nat k) (replicate (Z.to_nat n) 1)
            = replicate (Z.to_nat (n - k)) 1) as Hdrop.
  { intros k Hk. rewrite drop_replicate. f_equal. lia. }
  assert (forall k, (0 <= k <= n)%Z ->
            take (Z.to_nat k) (replicate (Z.to_nat n) 1)
            = replicate (Z.to_nat k) 1) as Htake.
  { intros k Hk. rewrite take_replicate. f_equal. lia. }
  exists (guarded_envelope n A Rl). split_and!.
  - apply score_envelope_exact.
  - rewrite guarded_envelope_length; lia.
  - apply guarded_envelope_unit.
  - intros HA HR. unfold guarded_envelope. rewrite <- Hnw.
    destruct (Z.ltb_spec 0 A), (Z.ltb_spec A n); simpl;
      try (exfalso; apply HA; unfold attack_written; lia);
      destruct (Z.ltb_spec 0 Rl), (Z.ltb_spec Rl n); simpl;
      try (exfalso; apply HR; unfold release_written; lia); done.
  - intros HA HR. unfold guarded_envelope, after_attack.
    destruct HA as [HA1 HA2].
    destruct (Z.ltb_spec 0 A); [|lia]. destruct (Z.ltb_spec A n); [|lia].
    simpl. rewrite Hdrop by lia.
    destruct (Z.ltb_spec 0 Rl), (Z.ltb_spec Rl n); simpl;
      try (exfalso; apply HR; unfold release_written; lia); done.
  - intros HA HR. unfold guarded_envelope. destruct HR as [HR1 HR2].
    destruct (Z.ltb_spec 0 Rl); [|lia]. destruct (Z.ltb_spec Rl n); [|lia].
    destruct (Z.ltb_spec 0 A), (Z.ltb_spec A n); simpl;
      try (exfalso; apply HA; unfold attack_written; lia);
      by rewrite Htake by lia.
  - intros [HA1 HA2] [HR1 HR2]. unfold guarded_envelope, after_attack.
    destruct (Z.ltb_spec 0 A); [|lia]. destruct (Z.ltb_spec A n); [|lia].
    destruct (Z.ltb_spec 0 Rl); [|lia]. destruct (Z.ltb_spec Rl n); [|lia].
    simpl. by rewrite Hdrop by lia.
  - intros [HA1 HA2] [HR1 HR2] Hsum. unfold guarded_envelope.
    destruct (Z.ltb_spec 0 A); [|lia]. destruct (Z.ltb_spec A n); [|lia].
    destruct (Z.ltb_spec 0 Rl); [|lia]. destruct (Z.ltb_spec Rl n); [|lia].
    simpl. f_equal. rewrite take_app_le; [done|].
    destruct (ramp_Some 0 1 A) as [_ ->]; lia.
Qed.

(** The cases on a concrete buffer of three samples: a two-sample attack
    and a two-sample release overlap on the middle sample, and with the
    default release of 4410 samples the release is skipped while the attack
    is still written. *)
Lemma envelope_guarded_overlap_witness :
  Score.Synthesizer._apply_envelope [1; 1; 1] 0 (2 / 44100) (2 / 44100)
  = Some [0; 1; 0]
  /\ Score.Synthesizer._apply_envelope [1; 1; 1] 0 (2 / 44100) 0.1
     = Some [0; 1; 1].
Proof.
  assert (Py.int (2 / 44100 * SAMPLE_RATE) = 2%Z) as H2.
  { apply int_eq; unfold SAMPLE_RATE; lra. }
  destruct int_decimal_constants as (_ & Hr & _).
  split.
  - destruct (envelope_guarded_overlap [1; 1; 1] 0 (2 / 44100) (2 / 44100))
      as (envelope & -> & _ & _ & _ & _ & _ & _ & Hov).
    rewrite H2 in Hov. rewrite Hov; [|unfold Py.len; simpl; lia..].
    unfold ramp, Np.linspace, Np.arange. simpl. eval_ramp_div.
    f_equal. f_equal; [lra|]. f_equal; [lra|]. f_equal; lra.
  - destruct (envelope_guarded_overlap [1; 1; 1] 0 (2 / 44100) 0.1)
      as (envelope & -> & _ & _ & _ & Hat & _).
    rewrite H2, Hr in Hat. rewrite Hat; [|unfold Py.len; simpl; lia..].
    unfold ramp, Np.linspace, Np.arange. simpl. eval_ramp_div.
    f_equal. f_equal; [lra|]. f_equal; [lra|]. f_equal; lra.
Defined.

(** C10: when the buffer is at least as long as both ramps, either envelope
    returns, every multiplier lies between 0 and 1, and no output sample
    exceeds its input sample in absolute value. *)
Theorem envelope_attenuates (wave : list R) (duration attack release : R) :
  (Py.int (attack * SAMPLE_RATE) <= Py.len wave)%Z ->
  (Py.int (release * SAMPLE_RATE) <= Py.len wave)%Z ->
  (exists envelope out,
     Electric.Synthesizer._apply_envelope wave duration attack release
     = Some out
     /\ shaped_by wave envelope out
     /\ Forall2 (fun y x => Rabs y <= Rabs x) out wave)
  /\ (exists envelope out,
        Score.Synthesizer._apply_envelope wave duration attack release
        = Some out
        /\ shaped_by wave envelope out
        /\ Forall2 (fun y x => Rabs y <= Rabs x) out wave).
Proof.
  intros HA HR. split.
  - destruct (electric_envelope_returns wave duration attack release)
      as [out Hout]; [done..|].
    destruct (electric_envelope_shaped _ _ _ _ _ Hout) as [envelope Hs].
    exists envelope, out. split_and!; [done..|].
    by eapply shaped_by_attenuates.
  - destruct (score_envelope_shaped wave duration attack release)
      as (envelope & out & Hout & Hs).
    exists envelope, out. split_and!; [done..|].
    by eapply shaped_by_attenuates.
Qed.

Lemma envelope_attenuates_witness :
  exists envelope out,
    Electric.Synthesizer._apply_envelope [1; -1; 1 / 2] 0 (2 / 44100)
                                         (2 / 44100) = Some out
    /\ shaped_by [1; -1; 1 / 2] envelope out
    /\ Forall2 (fun y x => Rabs y <= Rabs x) out [1; -1; 1 / 2].
Proof.
  assert (Py.int (2 / 44100 * SAMPLE_RATE) = 2%Z) as H2.
  { apply int_eq; unfold SAMPLE_RATE; lra. }
  apply (envelope_attenuates [1; -1; 1 / 2] 0 (2 / 44100) (2 / 44100));
    rewrite H2; unfold Py.len; simpl; lia.
Defined.

(** ** Export *)

Lemma wrap16_small (z : Z) : (-32768 <= z < 32768)%Z -> Np.wrap16 z = z.
Proof.
  intros Hz. unfold Np.wrap16. rewrite Z.mod_small; lia.
Qed.

Lemma Rabs_le_elim (x a : R) : Rabs x <= a -> - a <= x <= a.
Proof.
  intros Hx. pose proof (Rle_abs x). pose proof (Rle_abs (- x)) as Hn.
  rewrite Rabs_Ropp in Hn. lra.
Qed.

Lemma int_abs_le (x : R) (k : Z) :
  Rabs x <= IZR k -> (- k <= Py.int x <= k)%Z.
Proof.
  intros Hx. destruct (int_bounds x) as [_ Hle].
  assert (Rabs (IZR (Py.int x)) <= IZR k) as Hk by lra.
  apply Rabs_le_elim in Hk. rewrite <- opp_IZR in Hk.
  destruct Hk as [H1%le_IZR H2%le_IZR]. lia.
Qed.

(** One exported sample. *)
Lemma save_wav_sample (s : R) :
  Rabs s <= 1 ->
  let q := Np.astype_int16 (s * 32767) in
  q = Py.int (s * 32767)
  /\ (-32767 <= q <= 32767)%Z
  /\ Rabs (IZR q / 32767 - s) < 1 / 32767.
Proof.
  intros Hs q.
  assert (Rabs (s * 32767) <= 32767) as Hx.
  { rewrite Rabs_mult, (Rabs_pos_eq 32767) by lra. nra. }
  pose proof (int_abs_le _ _ Hx) as Hq.
  assert (q = Py.int (s * 32767)) as Heq.
  { unfold q, Np.astype_int16. apply wrap16_small. lia. }
  split; [done|]. split; [lia|].
  rewrite Heq. destruct (int_bounds (s * 32767)) as [Hlt _].
  replace (IZR (Py.int (s * 32767)) / 32767 - s)
    with ((IZR (Py.int (s * 32767)) - s * 32767) * / 32767) by (field; lra).
  rewrite Rabs_mult, (Rabs_pos_eq (/ 32767)) by lra.
  apply Rabs_def2 in Hlt. destruct Hlt as [Hlt1 Hlt2].
  assert (Rabs (IZR (Py.int (s * 32767)) - s * 32767) < 1) as Hlt
    by (apply Rabs_def1; lra).
  nra.
Qed.

(** C7, as the code has it: [astype(np.int16)] truncates toward zero, it
    does not round.  On a buffer whose samples lie in [-1, 1] (a normalised
    buffer stays within 0.9) every exported integer is the truncation of
    [sample * 32767], fits in 16 bits, and decodes to within 1/32767 of the
    sample. *)
Theorem pcm_truncated_roundtrip (audio : list R) :
  Forall (fun s => Rabs s <= 1) audio ->
  Forall2 (fun q s => q = Py.int (s * 32767)
                      /\ (-32767 <= q <= 32767)%Z
                      /\ Rabs (IZR q / 32767 - s) < 1 / 32767)
          (save_wav audio) audio.
Proof.
  unfold save_wav. induction 1 as [|s audio Hs _ IH]; simpl.
  - constructor.
  - constructor; [by apply save_wav_sample|done].
Qed.

Lemma Rabs_le_1_intro (x : R) : -1 <= x <= 1 -> Rabs x <= 1.
Proof. intros Hx. apply Rabs_le. lra. Qed.

Lemma pcm_truncated_roundtrip_witness :
  Forall2 (fun q s => q = Py.int (s * 32767)
                      /\ (-32767 <= q <= 32767)%Z
                      /\ Rabs (IZR q / 32767 - s) < 1 / 32767)
          (save_wav [9 / 10; -1 / 4]) [9 / 10; -1 / 4].
Proof.
  apply (pcm_truncated_roundtrip [9 / 10; -1 / 4]).
  do 2 (constructor; [apply Rabs_le_1_intro; lra|]). constructor.
Defined.

Lemma astype_int16_eq (x : R) (n : Z) :
  0 <= x -> IZR n <= x < IZR n + 1 -> (n < 32768)%Z ->
  Np.astype_int16 x = n.
Proof.
  intros Hx Hn Hlt. unfold Np.astype_int16. rewrite (int_eq n) by done.
  apply wrap16_small. assert (0 <= n)%Z; [|lia].
  rewrite <- (int_eq n x) by done. by apply int_nonneg.
Qed.

Lemma normalize_example :
  normalize [1; 5 / 18] = Some [1 / 1 * 0.9; 5 / 18 / 1 * 0.9].
Proof.
  unfold normalize, Np.max, Np.abs. simpl.
  rewrite !Rabs_pos_eq by lra. rewrite Rmax_left by lra.
  destruct (Rlt_dec 0 1) as [_|Hn]; [done|lra].
Qed.

(** C7 as stated fails: the sample 0.25 of the normalised buffer [0.9; 0.25]
    is exported as 8191, and [round(0.25 * 32767)], the rounding of 8191.75,
    is 8192. *)
Lemma pcm_not_rounded :
  (exists out, normalize [1; 5 / 18] = Some out /\ Forall2 eq out [0.9; 0.25])
  /\ save_wav [0.9; 0.25] = [29490; 8191]%Z
  /\ Py.round (0.25 * 32767) = 8192%Z.
Proof.
  split_and!.
  - eexists. split; [apply normalize_example|].
    do 2 (constructor; [lra|]). constructor.
  - unfold save_wav. simpl. f_equal; [|f_equal].
    + apply astype_int16_eq; [lra|lra|lia].
    + apply astype_int16_eq; [lra|lra|lia].
  - apply round_up_eq. lra.
Qed.

(** ** Pitch resolution *)

(** C8: a pitch symbol that is not a key of the frequency table resolves to
    440 Hz, in either file. *)
Theorem unknown_pitch_fallback (symbol : string) (note : Score.Note) :
  Electric.NOTE_FREQUENCIES !! symbol = None ->
  Score.NOTE_FREQUENCIES !! Score.pitch note = None ->
  Electric.get_frequency symbol = 440
  /\ Score.get_frequency note = 440.
Proof.
  intros He Hs. unfold Electric.get_frequency, Score.get_frequency.
  rewrite He, Hs. simpl. lra.
Qed.

Lemma unknown_pitch_fallback_witness :
  Electric.get_frequency "C2" = 440
  /\ Score.get_frequency (Score.mkNote "Kick" 0 1 0.9) = 440.
Proof.
  apply (unknown_pitch_fallback "C2" (Score.mkNote "Kick" 0 1 0.9));
    reflexivity.
Defined.

Lemma note_names_inv (i : nat) (name : string) :
  Score.NOTE_NAMES !! i = Some name ->
  (i, name) ∈ [(0, "C"); (1, "C#"); (2, "D"); (3, "D#"); (4, "E"); (5, "F");
               (6, "F#"); (7, "G"); (8, "G#"); (9, "A"); (10, "A#");
               (11, "B")]%nat.
Proof.
  unfold Score.NOTE_NAMES. intros Hi.
  do 12 (destruct i as [|i]; [injection Hi as <-; set_solver|]). done.
Qed.

Lemma score_table_lookup (i : nat) (name : string) (octave : Z) :
  Score.NOTE_NAMES !! i = Some name -> (2 <= octave <= 6)%Z ->
  Score.NOTE_FREQUENCIES !! (name +:+ Py.str octave)
  = Some (Score.note_frequency octave (Z.of_nat i)).
Proof.
  intros Hi Ho.
  assert (octave = 2 \/ octave = 3 \/ octave = 4 \/ octave = 5
          \/ octave = 6)%Z as Hcases by lia.
  apply note_names_inv in Hi.
  destruct Hcases as [-> | [-> | [-> | [-> | ->]]]];
    repeat (apply elem_of_cons in Hi as [[= -> ->]|Hi]);
    try (by apply elem_of_nil in Hi); reflexivity.
Qed.

(** C4, as the code has it: the table of [music_composer_with_score.py] is
    generated, and on it every note name with an octave digit from 2 to 6
    resolves to the equal-temperament frequency anchored at A4 = 440 Hz. *)
Theorem score_pitch_equal_temperament
    (i : nat) (name : string) (octave : Z) (note : Score.Note) :
  Score.NOTE_NAMES !! i = Some name ->
  (2 <= octave <= 6)%Z ->
  Score.pitch note = name +:+ Py.str octave ->
  let semitones_from_A4 := ((octave - 4) * 12 + (Z.of_nat i - 9))%Z in
  Score.get_frequency note = 440 * Rpower 2 (IZR semitones_from_A4 / 12).
Proof.
  intros Hi Ho Hp k. unfold Score.get_frequency.
  rewrite Hp, (score_table_lookup i) by done. simpl.
  unfold Score.note_frequency. fold k. lra.
Qed.

Lemma score_pitch_equal_temperament_witness :
  Score.get_frequency (Score.mkNote "F#3" 0 1 0.8)
  = 440 * Rpower 2 (IZR (-15) / 12).
Proof.
  apply (score_pitch_equal_temperament 6 "F#" 3 (Score.mkNote "F#3" 0 1 0.8));
    [reflexivity|lia|reflexivity].
Defined.

Lemma Rpower_2_neg_lt_1 (x : R) : x < 0 -> Rpower 2 x < 1.
Proof.
  intros Hx. unfold Rpower. rewrite <- exp_0. apply exp_increasing.
  assert (0 < ln 2) by (rewrite <- ln_1; apply ln_increasing; lra).
  nra.
Qed.

(** C4 as stated fails on the hand-written table of
    [electric_music_composer.py] and [music_composer_app.py]: it has no
    octave 2, so "C2" resolves to the fallback 440 Hz, and the
    equal-temperament frequency of C2, 33 semitones under A4, is lower. *)
Lemma electric_pitch_not_equal_temperament :
  Electric.get_frequency "C2" = 440
  /\ 440 * Rpower 2 (IZR ((2 - 4) * 12 + (0 - 9)) / 12) < 440.
Proof.
  split.
  - unfold Electric.get_frequency.
    replace (Electric.NOTE_FREQUENCIES !! "C2") with (@None R) by reflexivity.
    simpl. lra.
  - change ((2 - 4) * 12 + (0 - 9))%Z with (-33)%Z.
    pose proof (Rpower_2_neg_lt_1 (-33 / 12)) as H. lra.
Qed.

(** ** Mixing and peak normalisation *)

Lemma foldl_Rmax_ge (x : R) (l : list R) :
  x <= foldl Rmax x l /\ Forall (fun y => y <= foldl Rmax x l) l.
Proof.
  revert x. induction l as [|y l IH]; intros x; simpl.
  - split; [lra|constructor].
  - destruct (IH (Rmax x y)) as [H1 H2].
    pose proof (Rmax_l x y). pose proof (Rmax_r x y).
    split; [lra|]. constructor; [lra|done].
Qed.

Lemma foldl_Rmax_mono (f : R -> R) (x : R) (l : list R) :
  (forall a b, a <= b -> f a <= f b) ->
  foldl Rmax (f x) (map f l) = f (foldl Rmax x l).
Proof.
  intros Hf. revert x. induction l as [|y l IH]; intros x; simpl; [done|].
  rewrite <- IH. f_equal. unfold Rmax.
  destruct (Rle_dec x y) as [Hxy|Hxy], (Rle_dec (f x) (f y)) as [Hf1|Hf1];
    try done.
  - apply Hf in Hxy. lra.
  - assert (f y <= f x) by (apply Hf; lra). lra.
Qed.

Lemma max_abs_nonneg (a : list R) (peak : R) :
  Np.max (Np.abs a) = Some peak ->
  0 <= peak /\ Forall (fun x => Rabs x <= peak) a.
Proof.
  destruct a as [|x a]; [done|]. unfold Np.abs. simpl. intros [= <-].
  destruct (foldl_Rmax_ge (Rabs x) (map Rabs a)) as [H1 H2].
  pose proof (Rabs_pos x). split; [lra|].
  constructor; [done|]. by rewrite Forall_map in H2.
Qed.

Lemma scaled_peak (mix : list R) (peak : R) :
  Np.max (Np.abs mix) = Some peak -> 0 < peak ->
  Np.max (Np.abs (map (fun x => x / peak * 0.9) mix)) = Some 0.9.
Proof.
  intros Hmax Hpos.
  assert (Np.abs (map (fun x => x / peak * 0.9) mix)
          = map (fun a => a / peak * 0.9) (Np.abs mix)) as ->.
  { unfold Np.abs. rewrite <- !list_fmap_compose. apply list_fmap_ext.
    intros _ x _. simpl. unfold Rdiv.
    rewrite !Rabs_mult, (Rabs_pos_eq (/ peak)), (Rabs_pos_eq 0.9); [done|lra|].
    apply Rlt_le. by apply Rinv_0_lt_compat. }
  destruct (Np.abs mix) as [|a l]; [done|]. simpl in *.
  injection Hmax as Hmax. f_equal.
  rewrite (foldl_Rmax_mono (fun a => a / peak * 0.9)).
  - rewrite Hmax. field. lra.
  - intros u v Huv. unfold Rdiv.
    assert (0 < / peak) by by apply Rinv_0_lt_compat. nra.
Qed.

Lemma normalize_spec (mix out : list R) :
  normalize mix = Some out -> peak_normalized mix out.
Proof.
  unfold normalize.
  destruct (Np.max (Np.abs mix)) as [peak|] eqn:Hmax; [simpl|done].
  intros [= <-]. exists peak.
  destruct (max_abs_nonneg _ _ Hmax) as [Hpos Hle].
  split_and!; [done..| |].
  - intros Hp. destruct (Rlt_dec 0 peak) as [_|Hn]; [|lra].
    split; [done|]. by apply scaled_peak.
  - intros ->. destruct (Rlt_dec 0 0) as [Hn|_]; [lra|].
    split; [done|]. eapply Forall_impl; [exact Hle|]. simpl.
    intros x Hx. pose proof (Rabs_pos x).
    assert (Rabs x = 0) as Hx0 by lra.
    destruct (Req_dec x 0) as [->|Hne]; [done|].
    by apply Rabs_no_R0 in Hne.
Qed.

Lemma normalize_total (mix : list R) : mix <> [] -> is_Some (normalize mix).
Proof.
  destruct mix as [|x mix]; [done|]. intros _. unfold normalize. simpl. eauto.
Qed.

(** C2: normalisation returns on every non-empty mix; a mix with a positive
    peak is scaled by [0.9 / peak], sample by sample [x / peak * 0.9], and the
    peak of the result is exactly 0.9; a mix whose peak is 0 is returned as it
    is, all zero.  The output of [compose_from_tracks] and of the mixing end
    of [compose] is the normalisation of the summed mix. *)
Theorem mix_peak_normalized :
  (forall mix, mix <> [] ->
     exists out, normalize mix = Some out /\ peak_normalized mix out)
  /\ (forall self tracks total_beats g out g',
        Score.compose_from_tracks self tracks total_beats g = Some (out, g') ->
        let total_samples :=
          Py.int (SAMPLE_RATE * (total_beats * Score.beat_duration self)) in
        exists silence mix,
          Np.zeros total_samples = Some silence
          /\ Rng.for_each (Score.mix_track self total_beats total_samples)
                          tracks silence g = Some (mix, g')
          /\ peak_normalized mix out)
  /\ (forall drums bassline chords melody total_samples out,
        Electric.compose_mix drums bassline chords melody total_samples
        = Some out ->
        exists d b c m m1 m2 mix,
          Electric.pad_to_length drums total_samples = Some d
          /\ Electric.pad_to_length bassline total_samples = Some b
          /\ Electric.pad_to_length chords total_samples = Some c
          /\ Electric.pad_to_length melody total_samples = Some m
          /\ Np.add (map (fun x => x * 0.35) d) (map (fun x => x * 0.25) b)
             = Some m1
          /\ Np.add m1 (map (fun x => x * 0.25) c) = Some m2
          /\ Np.add m2 (map (fun x => x * 0.15) m) = Some mix
          /\ peak_normalized mix out).
Proof.
  split_and!.
  - intros mix Hne. destruct (normalize_total mix Hne) as [out Hout].
    exists out. split; [done|]. by apply normalize_spec.
  - intros self tracks total_beats g out g' Hc total_samples.
    unfold Score.compose_from_tracks, Rng.bind, Rng.lift in Hc.
    fold total_samples in Hc.
    destruct (Np.zeros total_samples) as [silence|] eqn:Hz; [|done].
    destruct (Rng.for_each _ tracks silence g) as [[mix g1]|] eqn:Hm; [|done].
    destruct (normalize mix) as [out'|] eqn:Hn; [|done].
    injection Hc as <- <-. exists silence, mix.
    split_and!; [done..|]. by apply normalize_spec.
  - intros drums bassline chords melody total_samples out Hc.
    unfold Electric.compose_mix in Hc.
    destruct (Electric.pad_to_length drums _) as [d|] eqn:Hd;
      [simpl in Hc|done].
    destruct (Electric.pad_to_length bassline _) as [b|] eqn:Hb;
      [simpl in Hc|done].
    destruct (Electric.pad_to_length chords _) as [c|] eqn:Hch;
      [simpl in Hc|done].
    destruct (Electric.pad_to_length melody _) as [m|] eqn:Hmel;
      [simpl in Hc|done].
    destruct (Np.add _ _) as [m1|] eqn:H1; [simpl in Hc|done].
    destruct (Np.add m1 _) as [m2|] eqn:H2; [simpl in Hc|done].
    destruct (Np.add m2 _) as [mix|] eqn:H3; [simpl in Hc|done].
    exists d, b, c, m, m1, m2, mix. split_and!; [done..|].
    by apply normalize_spec.
Qed.

(** A mix of two samples with peak 1, and a silent one. *)
Lemma mix_peak_normalized_witness :
  (exists out, normalize [1 / 2; -1] = Some out
               /\ peak_normalized [1 / 2; -1] out)
  /\ (exists out, normalize [0; 0] = Some out /\ peak_normalized [0; 0] out).
Proof.
  destruct mix_peak_normalized as (Hn & _ & _).
  split; apply Hn; done.
Defined.

(** ** Track rendering *)

(** The accumulation [audio[start:end] += wave[:end - start]] of
    [render_track], for a start offset inside the buffer: the wave is added
    from [start] on and its tail past the end of the buffer is dropped. *)
Lemma iadd_slice_window (audio wave : list R) (start total : Z) :
  Py.len audio = total -> (0 <= start <= total)%Z ->
  let end_sample := Py.min (start + Py.len wave) total in
  let s := Z.to_nat start in
  let m := Z.to_nat (Z.min (Py.len wave) (total - start)) in
  Np.iadd_slice audio (Some start) (Some end_sample)
                (Py.slice wave None (Some (end_sample - start)%Z))
  = Some (take s audio ++ zip_with Rplus (take m (drop s audio)) (take m wave)
            ++ drop (s + m) audio).
Proof.
  intros Hlen Hs end_sample s m.
  assert (0 <= Py.len wave)%Z as Hw by (unfold Py.len; lia).
  assert (Py.slice wave None (Some (end_sample - start)%Z) = take m wave) as ->.
  { unfold Py.slice, Py.bounds, Py.slice_index. simpl.
    destruct (Z.ltb_spec (end_sample - start) 0) as [Hneg|_].
    { unfold end_sample, Py.min in Hneg. lia. }
    f_equal. unfold m, end_sample, Py.min. lia. }
  unfold Np.iadd_slice, Py.bounds, Py.slice_index. simpl. rewrite Hlen.
  destruct (Z.ltb_spec start 0); [lia|].
  destruct (Z.ltb_spec end_sample 0) as [Hneg|_].
  { unfold end_sample, Py.min in Hneg. lia. }
  replace (Z.to_nat (start `min` total)) with s by (unfold s; lia).
  replace (Z.to_nat (end_sample `min` total - start `min` total)) with m
    by (unfold m, end_sample, Py.min; lia).
  assert (length (take m wave) = m) as Hm.
  { rewrite length_take. unfold m, Py.len in *. lia. }
  unfold Np.broadcast_to. destruct (decide _) as [_|Hne]; [done|lia].
Qed.

Lemma score_finger_bass_len (freq duration velocity : R) :
  0 < duration ->
  returns_len (Score.ElectricBass.finger_bass freq duration velocity)
              (Py.int (SAMPLE_RATE * duration)).
Proof.
  intros Hd. unfold Score.ElectricBass.finger_bass. run_time_axis Hd.
  apply score_shaped_len. rewrite <- list_fmap_compose.
  by apply len_map_of_nat.
Qed.

Lemma A4_frequency (note : Score.Note) :
  Score.pitch note = "A4" -> Score.get_frequency note = 440.
Proof.
  intros Hp. unfold Score.get_frequency. rewrite Hp.
  replace (Score.NOTE_FREQUENCIES !! "A4")
    with (Some (Score.note_frequency 4 9)) by reflexivity.
  simpl. unfold Score.note_frequency.
  change ((4 - 4) * 12 + (9 - 9))%Z with 0%Z.
  replace (0 / 12) with 0 by lra. rewrite Rpower_O by lra. lra.
Qed.

Lemma composer_init (bpm : R) (self : Score.MusicComposer) :
  Score.MusicComposer_init bpm = Some self ->
  bpm <> 0 /\ Score.bpm self = bpm /\ Score.beat_duration self = 60 / bpm.
Proof.
  unfold Score.MusicComposer_init. destruct (Req_dec_T bpm 0); [done|].
  intros [= <-]. simpl. split_and!; [done..|]. lra.
Qed.

(** C3, as the code has it.  Every note starts at
    [int(start_beat * beat_seconds * 44100)], the truncation of the product,
    and its wave is added into the track buffer from that offset on.  At 120
    BPM the bass note A4 with start 2, duration 1 and velocity 0.9 starts at
    sample 44100 and is the 22050 samples of [finger_bass] at 220 Hz. *)
Theorem bass_note_render_offsets :
  (forall self track note total_samples audio wave g g',
     Score.note_wave self track note g = Some (Some wave, g') ->
     Py.len audio = total_samples ->
     (0 <= Score.start_sample self note <= total_samples)%Z ->
     let s := Z.to_nat (Score.start_sample self note) in
     let m := Z.to_nat (Z.min (Py.len wave)
                              (total_samples - Score.start_sample self note)) in
     Score.start_sample self note
     = Py.int (Score.start_beat note * Score.beat_duration self * SAMPLE_RATE)
     /\ Score.render_note self track total_samples audio note g
        = Some (take s audio
                  ++ zip_with Rplus (take m (drop s audio)) (take m wave)
                  ++ drop (s + m) audio, g'))
  /\ (forall self track g,
        Score.MusicComposer_init 120 = Some self ->
        Score.instrument_type track = "bass" ->
        let note := Score.mkNote "A4" 2 1 0.9 in
        Score.beat_duration self = 1 / 2
        /\ Score.start_sample self note = 44100%Z
        /\ Score.get_frequency note / 2 = 220
        /\ exists wave,
             Score.ElectricBass.finger_bass 220 (1 / 2) 0.9 = Some wave
             /\ Py.len wave = 22050%Z
             /\ Score.note_wave self track note g = Some (Some wave, g)).
Proof.
  split.
  - intros self track note total_samples audio wave g g' Hw Hlen Hs s m.
    split; [done|]. unfold Score.render_note, Rng.bind. rewrite Hw.
    unfold Rng.lift. by rewrite iadd_slice_window.
  - intros self track g Hinit Hbass note.
    apply composer_init in Hinit as (_ & _ & Hbeat).
    assert (Score.beat_duration self = 1 / 2) as Hb by lra.
    assert (Score.get_frequency note / 2 = 220) as Hf.
    { rewrite (A4_frequency note) by done. lra. }
    split_and!; [done| |done|].
    + unfold Score.start_sample. rewrite Hb. simpl.
      apply int_eq; unfold SAMPLE_RATE; lra.
    + destruct (score_finger_bass_len 220 (1 / 2) 0.9) as (wave & Hw & Hl);
        [lra|].
      exists wave. split_and!; [done| |].
      * rewrite Hl. apply int_eq; unfold SAMPLE_RATE; lra.
      * unfold Score.note_wave. rewrite Hbass. simpl.
        rewrite Hf, Hb. replace (1 * (1 / 2)) with (1 / 2) by lra.
        unfold Rng.bind, Rng.lift. by rewrite Hw.
Qed.

Lemma bass_note_render_offsets_witness :
  let self := Score.mkComposer 120 (60.0 / 120) in
  let note := Score.mkNote "A4" 2 1 0.9 in
  Score.start_sample self note = 44100%Z
  /\ exists wave,
       Score.ElectricBass.finger_bass 220 (1 / 2) 0.9 = Some wave
       /\ Py.len wave = 22050%Z.
Proof.
  intros self note.
  destruct bass_note_render_offsets as [_ H].
  destruct (H self (Score.mkTrack "Electric Bass" "bass" [note] false 0.8)
              (Rng.State (fun _ => 0) 0)) as (_ & Hs & _ & wave & Hw & Hl & _).
  - unfold Score.MusicComposer_init.
    destruct (Req_dec_T 120 0) as [Heq|_]; [lra|done].
  - done.
  - split; [done|]. by exists wave.
Defined.

(** C3 as stated fails in its general part: at 128 BPM a note on beat 1
    starts at sample 20671, the truncation of 20671.875, and not at the
    rounding 20672. *)
Lemma start_sample_not_rounded :
  let self := Score.mkComposer 128 (60.0 / 128) in
  let note := Score.mkNote "A4" 1 1 0.9 in
  Score.MusicComposer_init 128 = Some self
  /\ Score.start_sample self note = 20671%Z
  /\ Py.round (Score.start_beat note * Score.beat_duration self * SAMPLE_RATE)
     = 20672%Z.
Proof.
  intros self note. split_and!.
  - unfold Score.MusicComposer_init.
    destruct (Req_dec_T 128 0) as [Heq|_]; [lra|done].
  - unfold Score.start_sample. simpl. apply int_eq; unfold SAMPLE_RATE; lra.
  - simpl. apply round_up_eq. unfold SAMPLE_RATE. lra.
Qed.

(** ** Notes without samples, and notes with a negative duration *)

Lemma for_each_app {A S} (body : S -> A -> Rng.M S) (l1 l2 : list A) (s : S)
    (g : Rng.state) :
  Rng.for_each body (l1 ++ l2) s g
  = Rng.bind (Rng.for_each body l1 s) (Rng.for_each body l2) g.
Proof.
  revert s g. induction l1 as [|x l1 IH]; intros s g; simpl; [reflexivity|].
  unfold Rng.bind in *. destruct (body s x g) as [[s' g']|]; [|reflexivity].
  apply IH.
Qed.

(** A loop raises as soon as one of its iterations always does. *)
Lemma for_each_raises {A S} (body : S -> A -> Rng.M S) (l : list A) (x : A)
    (s : S) (g : Rng.state) :
  x ∈ l -> (forall s g, body s x g = None) -> Rng.for_each body l s g = None.
Proof.
  intros Hx Hnone. revert s g.
  induction l as [|y l IH]; intros s g; [by apply elem_of_nil in Hx|].
  simpl. unfold Rng.bind.
  apply elem_of_cons in Hx as [<-|Hx]; [by rewrite Hnone|].
  destruct (body s y g) as [[s' g']|]; [by apply IH|done].
Qed.

Lemma score_envelope_nil (duration attack release : R) :
  Score.Synthesizer._apply_envelope [] duration attack release = Some [].
Proof. by rewrite score_envelope_exact. Qed.

Lemma linspace_0 (start stop : R) (endpoint : bool) :
  Np.linspace start stop 0 endpoint = Some [].
Proof. done. Qed.

(** A pitched note whose sample count is 0 has an empty wave. *)
Lemma note_wave_empty (self : Score.MusicComposer) (track : Score.Track)
    (note : Score.Note) (g : Rng.state) :
  pitched track ->
  Py.int (SAMPLE_RATE * (Score.duration note * Score.beat_duration self)) = 0%Z ->
  Score.note_wave self track note g = Some (Some [], g).
Proof.
  intros Hp Hn. unfold Score.note_wave.
  destruct Hp as [Hp|[Hp|Hp]]; rewrite Hp; simpl.
  - unfold Score.Synthesizer.pad_sound. rewrite Hn, linspace_0. simpl.
    by rewrite score_envelope_nil.
  - unfold Score.ElectricGuitar.clean_tone. rewrite Hn, linspace_0. simpl.
    by rewrite score_envelope_nil.
  - unfold Score.ElectricBass.finger_bass. rewrite Hn, linspace_0. simpl.
    by rewrite score_envelope_nil.
Qed.

(** A pitched note whose sample count is negative makes its voice raise. *)
Lemma note_wave_raises (self : Score.MusicComposer) (track : Score.Track)
    (note : Score.Note) (g : Rng.state) :
  pitched track ->
  (Py.int (SAMPLE_RATE * (Score.duration note * Score.beat_duration self))
   < 0)%Z ->
  Score.note_wave self track note g = None.
Proof.
  intros Hp Hn. unfold Score.note_wave.
  destruct Hp as [Hp|[Hp|Hp]]; rewrite Hp; simpl.
  - unfold Score.Synthesizer.pad_sound. by rewrite linspace_negative.
  - unfold Score.ElectricGuitar.clean_tone. by rewrite linspace_negative.
  - unfold Score.ElectricBass.finger_bass. by rewrite linspace_negative.
Qed.

Lemma render_note_empty (self : Score.MusicComposer) (track : Score.Track)
    (total_samples : Z) (audio : list R) (note : Score.Note) (g : Rng.state) :
  pitched track ->
  Py.int (SAMPLE_RATE * (Score.duration note * Score.beat_duration self)) = 0%Z ->
  Py.len audio = total_samples ->
  Score.render_note self track total_samples audio note g = Some (audio, g).
Proof.
  intros Hp Hn Hlen. unfold Score.render_note, Rng.bind.
  rewrite note_wave_empty by done. unfold Rng.lift.
  rewrite slice_nil. change (Py.len (@nil R)) with 0%Z.
  rewrite Z.add_0_r, <- Hlen. by rewrite iadd_slice_empty.
Qed.

Lemma render_note_length (self : Score.MusicComposer) (track : Score.Track)
    (total_samples : Z) (audio audio' : list R) (note : Score.Note)
    (g g' : Rng.state) :
  Score.render_note self track total_samples audio note g = Some (audio', g') ->
  length audio' = length audio.
Proof.
  unfold Score.render_note, Rng.bind.
  destruct (Score.note_wave self track note g) as [[[wave|] g1]|]; [| |done].
  - unfold Rng.lift.
    destruct (Np.iadd_slice _ _ _ _) as [a|] eqn:Ha; [|done].
    intros [= <- <-]. by eapply iadd_slice_length.
  - by intros [= <- <-].
Qed.

Lemma render_loop_length (self : Score.MusicComposer) (track : Score.Track)
    (total_samples : Z) (notes : list Score.Note) (audio audio' : list R)
    (g g' : Rng.state) :
  Rng.for_each (Score.render_note self track total_samples) notes audio g
  = Some (audio', g') ->
  length audio' = length audio.
Proof.
  revert audio g. induction notes as [|note notes IH]; intros audio g; simpl.
  - by intros [= <- <-].
  - unfold Rng.bind.
    destruct (Score.render_note _ _ _ _ _ _) as [[a1 g1]|] eqn:H1; [|done].
    intros H2. apply IH in H2. apply render_note_length in H1. lia.
Qed.

Lemma render_track_unfold (self : Score.MusicComposer) (track : Score.Track)
    (total_beats : R) (g : Rng.state) :
  Score.render_track self track total_beats g
  = match Np.zeros (Py.int (SAMPLE_RATE
                            * (total_beats * Score.beat_duration self))) with
    | Some silence =>
        match Rng.for_each
                (Score.render_note self track
                   (Py.int (SAMPLE_RATE
                            * (total_beats * Score.beat_duration self))))
                (Score.notes track) silence g with
        | Some (audio, g') =>
            Some (map (fun x => x * Score.volume track) audio, g')
        | None => None
        end
    | None => None
    end.
Proof.
  unfold Score.render_track, Rng.bind, Rng.lift, Rng.ret.
  destruct (Np.zeros _); [|done]. by destruct (Rng.for_each _ _ _ _) as [[??]|].
Qed.

(** C6, as the code has it.  The renderer does not validate durations.  A
    note of a synth, guitar or bass track whose sample count
    [int(44100 * duration * beat_seconds)] is 0, as it is for a zero
    duration, has an empty wave: rendering the track gives what it gives
    without the note, and every buffer it returns has the full length. *)
Theorem zero_sample_note_contributes_nothing
    (self : Score.MusicComposer) (track : Score.Track) (total_beats : R)
    (note : Score.Note) (before after : list Score.Note) (g : Rng.state) :
  pitched track ->
  Py.int (SAMPLE_RATE * (Score.duration note * Score.beat_duration self)) = 0%Z ->
  Score.notes track = before ++ note :: after ->
  let without :=
    Score.mkTrack (Score.name track) (Score.instrument_type track)
                  (before ++ after) (Score.muted track) (Score.volume track) in
  Score.render_track self track total_beats g
  = Score.render_track self without total_beats g
  /\ forall audio g',
       Score.render_track self track total_beats g = Some (audio, g') ->
       Py.len audio
       = Py.int (SAMPLE_RATE * (total_beats * Score.beat_duration self)).
Proof.
  intros Hp Hn Hnotes without. rewrite !render_track_unfold. simpl.
  set (total_samples := Py.int _). rewrite Hnotes. unfold Np.zeros.
  destruct (Z.ltb_spec total_samples 0) as [?|Hts]; [done|].
  set (silence := replicate (Z.to_nat total_samples) 0).
  assert (length silence = Z.to_nat total_samples) as Hl0
    by apply length_replicate.
  clearbody silence. split.
  - rewrite !for_each_app. unfold Rng.bind.
    change (Score.render_note self without)
      with (Score.render_note self track).
    destruct (Rng.for_each _ before silence g) as [[a1 g1]|] eqn:H1; [|done].
    simpl. unfold Rng.bind. rewrite render_note_empty; [done..|].
    apply render_loop_length in H1. unfold Py.len. lia.
  - intros audio g'.
    destruct (Rng.for_each _ _ silence g) as [[a2 g2]|] eqn:H2; [|done].
    intros [= <- <-]. apply render_loop_length in H2.
    unfold Py.len. rewrite length_map. lia.
Qed.

Lemma zero_sample_note_contributes_nothing_witness :
  let self := Score.mkComposer 120 (60.0 / 120) in
  let g := Rng.State (fun _ => 0) 0 in
  let rest := Score.mkNote "C4" 1 1 0.7 in
  let track :=
    Score.mkTrack "Electric Bass" "bass"
                  [Score.mkNote "A4" 0 0 0.9; rest] false 0.8 in
  Score.render_track self track 4 g
  = Score.render_track self (Score.mkTrack "Electric Bass" "bass" [rest]
                                           false 0.8) 4 g.
Proof.
  intros self g rest track.
  apply (zero_sample_note_contributes_nothing self track 4
           (Score.mkNote "A4" 0 0 0.9) [] [rest] g).
  - unfold pitched. by right; right.
  - simpl. apply int_eq; unfold SAMPLE_RATE; lra.
  - done.
Defined.

(** A pitched track with a note of negative sample count cannot be
    rendered. *)
Lemma render_track_raises (self : Score.MusicComposer) (track : Score.Track)
    (total_beats : R) (note : Score.Note) (g : Rng.state) :
  pitched track -> note ∈ Score.notes track ->
  (Py.int (SAMPLE_RATE * (Score.duration note * Score.beat_duration self))
   < 0)%Z ->
  Score.render_track self track total_beats g = None.
Proof.
  intros Hp Hin Hn. rewrite render_track_unfold.
  destruct (Np.zeros _) as [silence|]; [|done].
  rewrite (for_each_raises _ _ note); [done..|].
  intros a g2. unfold Score.render_note, Rng.bind.
  by rewrite note_wave_raises.
Qed.

(** On a drums track the duration of a note is not read at all. *)
Lemma drum_note_ignores_duration (self : Score.MusicComposer)
    (track : Score.Track) (pitch : string) (start d1 d2 velocity : R)
    (g : Rng.state) :
  Score.instrument_type track = "drums" ->
  Score.note_wave self track (Score.mkNote pitch start d1 velocity) g
  = Score.note_wave self track (Score.mkNote pitch start d2 velocity) g.
Proof.
  intros Hd. unfold Score.note_wave. rewrite Hd. simpl. done.
Qed.

(** C6 as stated fails: a bass note of duration -1 at 120 BPM asks
    [np.linspace] for -22050 samples, and rendering the track raises. *)
Lemma negative_duration_note_raises :
  let self := Score.mkComposer 120 (60.0 / 120) in
  let track :=
    Score.mkTrack "Electric Bass" "bass" [Score.mkNote "A4" 0 (-1) 0.9]
                  false 0.8 in
  Py.int (SAMPLE_RATE * (-1 * (60.0 / 120))) = (-22050)%Z
  /\ Score.render_track self track 4 (Rng.State (fun _ => 0) 0) = None.
Proof.
  intros self track.
  assert (Py.int (SAMPLE_RATE * (-1 * (60.0 / 120))) = (-22050)%Z) as Hn.
  { apply int_neg_eq; unfold SAMPLE_RATE; lra. }
  split; [done|].
  apply (render_track_raises self track 4 (Score.mkNote "A4" 0 (-1) 0.9)).
  - unfold pitched. by right; right.
  - set_solver.
  - simpl. rewrite Hn. lia.
Qed.

(** ** Noise percussion and the global generator *)

Lemma uniform_run (t : list R) (g : Rng.state) :
  Rng.uniform (-1) 1 (Py.len t) g
  = Some (next_noise (length t) g, advance (length t) g).
Proof.
  unfold Rng.uniform. destruct (Z.ltb_spec (Py.len t) 0) as [Hneg|_].
  { unfold Py.len in Hneg. lia. }
  by rewrite len_nat.
Qed.

Lemma time_axis_Some (duration : R) :
  0 <= duration ->
  Np.linspace 0 duration (Py.int (SAMPLE_RATE * duration)) false
  = Some (time_axis duration)
  /\ length (time_axis duration)
     = Z.to_nat (Py.int (SAMPLE_RATE * duration)).
Proof.
  intros Hd. unfold time_axis.
  destruct (linspace_Some 0 duration (Py.int (SAMPLE_RATE * duration)) false)
    as (t & -> & Hl); [|done].
  apply int_nonneg. unfold SAMPLE_RATE. nra.
Qed.

(** C9, as the code has it.  [snare], [hihat] and [clap] take a duration and
    a velocity only; their randomness is read from the process-wide
    generator, which each call advances by one draw per sample.  The buffer
    is a function of the two parameters and of those draws: two renders give
    the same buffer when they start from generator states that deliver the
    same draws, as after seeding the generator anew. *)
Theorem percussion_reads_global_generator (duration velocity : R) :
  0 <= duration ->
  let n := Z.to_nat (Py.int (SAMPLE_RATE * duration)) in
  exists snare_of hihat_of clap_of : list R -> list R,
    forall g,
      DrumMachine.snare duration velocity g
      = Some (snare_of (next_noise n g), advance n g)
      /\ DrumMachine.hihat duration velocity g
         = Some (hihat_of (next_noise n g), advance n g)
      /\ DrumMachine.clap duration velocity g
         = Some (clap_of (next_noise n g), advance n g).
Proof.
  intros Hd n. destruct (time_axis_Some duration Hd) as [Ht Hl].
  fold n in Hl. set (t := time_axis duration) in *.
  exists
    (fun u =>
       map (fun x => x * velocity * 0.8)
           (zip_with Rplus
              (map (fun ti => sin (2 * PI * 200 * ti) * exp (- ti * 20)) t)
              (zip_with (fun ui ti => ui * exp (- ti * 15) * 0.5) u t))),
    (fun u =>
       zip_with (fun ni ti => ni * exp (- ti * 30) * velocity * 0.4) u t),
    (fun u =>
       zip_with (fun ne ti => ne * exp (- ti * 20) * velocity * 0.5)
                (zip_with Rmult u
                   (foldl DrumMachine.clap_onset (replicate (length t) 0)
                          [0; 1; 2; 3]%Z)) t).
  intros g. split_and!.
  - unfold DrumMachine.snare, Rng.bind, Rng.lift. rewrite Ht.
    by rewrite uniform_run, Hl.
  - unfold DrumMachine.hihat, Rng.bind, Rng.lift. rewrite Ht.
    by rewrite uniform_run, Hl.
  - unfold DrumMachine.clap, Rng.bind, Rng.lift. rewrite Ht.
    by rewrite uniform_run, Hl.
Qed.

Lemma percussion_reads_global_generator_witness :
  exists snare_of hihat_of clap_of : list R -> list R,
    forall g,
      let n := Z.to_nat (Py.int (SAMPLE_RATE * 0.1)) in
      DrumMachine.snare 0.1 0.6 g
      = Some (snare_of (next_noise n g), advance n g)
      /\ DrumMachine.hihat 0.1 0.6 g
         = Some (hihat_of (next_noise n g), advance n g)
      /\ DrumMachine.clap 0.1 0.6 g
         = Some (clap_of (next_noise n g), advance n g).
Proof.
  apply (percussion_reads_global_generator 0.1 0.6). lra.
Defined.

(** C9 as stated fails: no random source is passed, and two renders with the
    same duration and velocity differ.  From a generator state whose next
    two draws are 0 and 1/2, a one-sample hi-hat is first negative and then
    0. *)
Lemma hihat_not_reproducible :
  let g0 := Rng.State (fun i => match i with O => 0 | S _ => 1 / 2 end) 0 in
  exists b1 g1 b2 g2,
    DrumMachine.hihat (1 / 44100) 1 g0 = Some (b1, g1)
    /\ DrumMachine.hihat (1 / 44100) 1 g1 = Some (b2, g2)
    /\ b1 <> b2.
Proof.
  intros g0.
  assert (Py.int (SAMPLE_RATE * (1 / 44100)) = 1%Z) as Hn.
  { apply int_eq; unfold SAMPLE_RATE; lra. }
  assert (forall g,
    DrumMachine.hihat (1 / 44100) 1 g
    = Some ([(-1 + (1 - -1) * Rng.draws g (Rng.pos g + 0))
             * exp (- (0 + INR 0 * ((1 / 44100 - 0) / 1)) * 30) * 1 * 0.4],
            advance 1 g)) as Hrun.
  { intros g. unfold DrumMachine.hihat, Rng.bind, Rng.lift. rewrite Hn.
    reflexivity. }
  eexists _, _, _, _. split_and!; [apply Hrun..|].
  simpl. intros [= Heq]. revert Heq.
  replace (- (0 + 0 * ((1 / 44100 - 0) / 1)) * 30) with 0 by lra.
  rewrite exp_0. lra.
Qed.

(** * Further properties of the engine *)

(** ** No voice is louder than its velocity *)

Lemma bounded_by_map {A} (f : A -> R) (B : R) (l : list A) :
  (forall x, Rabs (f x) <= B) -> bounded_by B (map f l).
Proof.
  intros Hf. unfold bounded_by. rewrite Forall_map. apply Forall_forall.
  intros x _. apply Hf.
Qed.

Lemma shaped_bounded (B : R) (wave envelope out : list R) :
  shaped_by wave envelope out -> bounded_by B wave -> bounded_by B out.
Proof.
  intros Hs Hb. apply shaped_by_attenuates in Hs. unfold bounded_by in *.
  induction Hs as [|y x out wave Hyx _ IH]; [constructor|].
  inversion Hb; subst. constructor; [lra|by apply IH].
Qed.

Lemma score_envelope_bounded (B : R) (wave : list R)
    (duration attack release : R) :
  bounded_by B wave ->
  exists out,
    Score.Synthesizer._apply_envelope wave duration attack release = Some out
    /\ length out = length wave /\ bounded_by B out.
Proof.
  intros Hb.
  destruct (score_envelope_shaped wave duration attack release)
    as (envelope & out & Hout & Hs).
  exists out. split_and!; [done|by eapply shaped_by_length|].
  by eapply shaped_bounded.
Qed.

Lemma electric_envelope_bounded (B : R) (wave out : list R)
    (duration attack release : R) :
  Electric.Synthesizer._apply_envelope wave duration attack release = Some out ->
  bounded_by B wave -> length out = length wave /\ bounded_by B out.
Proof.
  intros Hout Hb.
  destruct (electric_envelope_shaped _ _ _ _ _ Hout) as [envelope Hs].
  split; [by eapply shaped_by_length|by eapply shaped_bounded].
Qed.

Lemma Rabs_sin_le_1 (x : R) : Rabs (sin x) <= 1.
Proof. apply Rabs_le. pose proof (SIN_bound x). lra. Qed.

Lemma Rabs_scale (x v k : R) :
  Rabs x <= 1 -> 0 <= k -> Rabs (x * v * k) <= k * Rabs v.
Proof.
  intros Hx Hk. rewrite !Rabs_mult, (Rabs_pos_eq k) by done.
  pose proof (Rabs_pos v) as Hv. pose proof (Rabs_pos x).
  pose proof (Rmult_le_pos _ _ Hv Hk).
  replace (Rabs x * Rabs v * k) with (Rabs x * (Rabs v * k)) by ring. nra.
Qed.

Lemma Rabs_sign_le_1 (x : R) : Rabs (Np.sign x) <= 1.
Proof.
  unfold Np.sign. destruct (Rlt_dec x 0); [|destruct (Rlt_dec 0 x)];
    apply Rabs_le; lra.
Qed.

(** One period of the sawtooth stays within [-1, 1]. *)
Lemma Rabs_saw_le_1 (x : R) : Rabs (2 * (x - Np.floor (0.5 + x))) <= 1.
Proof.
  unfold Np.floor. pose proof (Zfloor_bound (0.5 + x)).
  apply Rabs_le. lra.
Qed.

Lemma Rabs_clip_le (b x : R) : 0 <= b -> Rabs (Np.clip (- b) b x) <= b.
Proof.
  intros Hb. unfold Np.clip, Rmin, Rmax.
  repeat destruct (Rle_dec _ _); apply Rabs_le; lra.
Qed.

Lemma sine_sample (freq velocity ti : R) :
  Rabs (sin (2 * PI * freq * ti) * velocity) <= Rabs velocity.
Proof.
  replace (sin (2 * PI * freq * ti) * velocity)
    with (sin (2 * PI * freq * ti) * velocity * 1) by lra.
  rewrite <- (Rmult_1_l (Rabs velocity)).
  apply Rabs_scale; [apply Rabs_sin_le_1|lra].
Qed.

Lemma square_sample (freq velocity ti : R) :
  Rabs (Np.sign (sin (2 * PI * freq * ti)) * velocity * 0.5)
  <= 0.5 * Rabs velocity.
Proof. apply Rabs_scale; [apply Rabs_sign_le_1|lra]. Qed.

Lemma sawtooth_sample (freq velocity ti : R) :
  Rabs (2 * (ti * freq - Np.floor (0.5 + ti * freq)) * velocity * 0.5)
  <= 0.5 * Rabs velocity.
Proof. apply Rabs_scale; [apply Rabs_saw_le_1|lra]. Qed.

(** A weighted sum of sines whose weights add up to 1 at most. *)
Lemma mix3_sample (a b c wa wb wc velocity : R) :
  0 <= wa -> 0 <= wb -> 0 <= wc -> wa + wb + wc <= 1 ->
  Rabs ((sin a * wa + sin b * wb + sin c * wc) * velocity) <= Rabs velocity.
Proof.
  intros Ha Hb Hc Hsum. rewrite Rabs_mult. pose proof (Rabs_pos velocity).
  assert (Rabs (sin a * wa + sin b * wb + sin c * wc) <= 1); [|nra].
  pose proof (SIN_bound a). pose proof (SIN_bound b). pose proof (SIN_bound c).
  apply Rabs_le. nra.
Qed.

Lemma mix4_sample (a b c d wa wb wc wd velocity : R) :
  0 <= wa -> 0 <= wb -> 0 <= wc -> 0 <= wd -> wa + wb + wc + wd <= 1 ->
  Rabs ((sin a * wa + sin b * wb + sin c * wc + sin d * wd) * velocity)
  <= Rabs velocity.
Proof.
  intros Ha Hb Hc Hd Hsum. rewrite Rabs_mult. pose proof (Rabs_pos velocity).
  assert (Rabs (sin a * wa + sin b * wb + sin c * wc + sin d * wd) <= 1);
    [|nra].
  pose proof (SIN_bound a). pose proof (SIN_bound b). pose proof (SIN_bound c).
  pose proof (SIN_bound d). apply Rabs_le. nra.
Qed.

Lemma score_voice_within (B : R) (wave : list R) (n : Z)
    (duration attack release : R) :
  Py.len wave = n -> bounded_by B wave ->
  returns_within
    (Score.Synthesizer._apply_envelope wave duration attack release) n B.
Proof.
  intros <- Hb.
  destruct (score_envelope_bounded B wave duration attack release Hb)
    as (out & Hout & Hl & Hbo).
  exists out. split_and!; [done| |done]. unfold Py.len. by rewrite Hl.
Qed.

Lemma electric_voice_within (B : R) (wave : list R)
    (duration attack release : R) :
  bounded_by B wave ->
  stays_within
    (Electric.Synthesizer._apply_envelope wave duration attack release) B.
Proof.
  intros Hb out Hout. by eapply electric_envelope_bounded.
Qed.

Lemma sample_count_nonneg0 (duration : R) :
  0 <= duration -> (0 <= Py.int (SAMPLE_RATE * duration))%Z.
Proof. intros Hd. apply int_nonneg. unfold SAMPLE_RATE. nra. Qed.

Ltac on_time_axis Hd :=
  match goal with
  | |- context [Np.linspace ?a ?b ?n ?e] =>
      let t := fresh "t" in
      let Ht := fresh "Ht" in
      let Hl := fresh "Hl" in
      destruct (linspace_Some a b n e) as (t & Ht & Hl);
      [exact (sample_count_nonneg0 _ Hd)|];
      rewrite Ht; simpl
  end.

Ltac any_time_axis :=
  match goal with
  | |- context [Np.linspace ?a ?b ?n ?e] =>
      let t := fresh "t" in
      destruct (Np.linspace a b n e) as [t|]; [simpl|done]
  end.

Lemma len_maps {A} (t : list A) (n : Z) (l : list R) :
  (0 <= n)%Z -> length t = Z.to_nat n -> length l = length t -> Py.len l = n.
Proof. intros Hn Hl Hll. unfold Py.len. lia. Qed.

(** X1: no oscillator is louder than its velocity.  Every sample of
    [sine_wave] and [pad_sound] lies within [|velocity|], and every sample of
    [square_wave] and [sawtooth_wave] within [0.5 * |velocity|]; with the
    guarded envelope the call returns for every duration that is not
    negative. *)
Theorem oscillators_within_velocity (freq duration velocity : R) :
  0 <= duration ->
  let n := Py.int (SAMPLE_RATE * duration) in
  (returns_within (Score.Synthesizer.sine_wave freq duration velocity)
                  n (Rabs velocity)
   /\ returns_within (Score.Synthesizer.square_wave freq duration velocity)
                     n (0.5 * Rabs velocity)
   /\ returns_within (Score.Synthesizer.sawtooth_wave freq duration velocity)
                     n (0.5 * Rabs velocity)
   /\ returns_within (Score.Synthesizer.pad_sound freq duration velocity)
                     n (Rabs velocity))
  /\ (stays_within (Electric.Synthesizer.sine_wave freq duration velocity)
                   (Rabs velocity)
      /\ stays_within (Electric.Synthesizer.square_wave freq duration velocity)
                      (0.5 * Rabs velocity)
      /\ stays_within
           (Electric.Synthesizer.sawtooth_wave freq duration velocity)
           (0.5 * Rabs velocity)
      /\ stays_within (Electric.Synthesizer.pad_sound freq duration velocity)
                      (Rabs velocity)).
Proof.
  intros Hd n. pose proof (sample_count_nonneg0 _ Hd) as Hn. split; split_and!.
  - unfold Score.Synthesizer.sine_wave. on_time_axis Hd.
    apply score_voice_within; [by apply len_map_of_nat|].
    apply bounded_by_map. intros ti. apply sine_sample.
  - unfold Score.Synthesizer.square_wave. on_time_axis Hd.
    apply score_voice_within; [by apply len_map_of_nat|].
    apply bounded_by_map. intros ti. apply square_sample.
  - unfold Score.Synthesizer.sawtooth_wave. on_time_axis Hd.
    apply score_voice_within; [by apply len_map_of_nat|].
    apply bounded_by_map. intros ti. apply sawtooth_sample.
  - unfold Score.Synthesizer.pad_sound. on_time_axis Hd.
    apply score_voice_within.
    + rewrite <- list_fmap_compose. by apply len_map_of_nat.
    + rewrite <- list_fmap_compose. apply bounded_by_map. intros ti. simpl.
      apply mix3_sample; lra.
  - unfold Electric.Synthesizer.sine_wave. any_time_axis.
    apply electric_voice_within, bounded_by_map. intros ti. apply sine_sample.
  - unfold Electric.Synthesizer.square_wave. any_time_axis.
    apply electric_voice_within, bounded_by_map. intros ti.
    apply square_sample.
  - unfold Electric.Synthesizer.sawtooth_wave. any_time_axis.
    apply electric_voice_within, bounded_by_map. intros ti.
    apply sawtooth_sample.
  - unfold Electric.Synthesizer.pad_sound. any_time_axis.
    apply electric_voice_within. rewrite <- list_fmap_compose.
    apply bounded_by_map. intros ti. simpl. apply mix3_sample; lra.
Qed.

Lemma oscillators_within_velocity_witness :
  returns_within (Score.Synthesizer.square_wave 440 (1 / 2) 0.8)
                 (Py.int (SAMPLE_RATE * (1 / 2))) (0.5 * Rabs 0.8).
Proof.
  apply (oscillators_within_velocity 440 (1 / 2) 0.8). lra.
Defined.

Lemma Rabs_clip1 (x : R) : Rabs (Np.clip (-1) 1 x) <= 1.
Proof.
  unfold Np.clip, Rmin, Rmax.
  repeat destruct (Rle_dec _ _); apply Rabs_le; lra.
Qed.

Lemma distortion_sample (x velocity : R) :
  Rabs (Np.clip (-1) 1 x * velocity * 0.7) <= 0.7 * Rabs velocity.
Proof. apply Rabs_scale; [apply Rabs_clip1|lra]. Qed.

Lemma slap_sample (x velocity : R) :
  Rabs (Np.clip (-1) 1 x * velocity) <= Rabs velocity.
Proof.
  replace (Np.clip (-1) 1 x * velocity)
    with (Np.clip (-1) 1 x * velocity * 1) by lra.
  rewrite <- (Rmult_1_l (Rabs velocity)).
  apply Rabs_scale; [apply Rabs_clip1|lra].
Qed.

(** What an elementwise operation makes of two arrays, whatever the
    broadcasting. *)
Lemma binop_Forall (P Q T : R -> Prop) (op : R -> R -> R) (a b c : list R) :
  (forall x y, P x -> Q y -> T (op x y)) ->
  Np.binop op a b = Some c -> Forall P a -> Forall Q b -> Forall T c.
Proof.
  intros Hop Hc Ha Hb. unfold Np.binop in Hc.
  destruct (decide (length a = length b)) as [Hl|Hl].
  - injection Hc as <-. clear Hl. revert b Hb.
    induction Ha as [|x a Hx Ha IH]; intros [|y b] Hb; simpl;
      try constructor; inversion Hb; subst; auto.
  - destruct a as [|x [|x' a]], b as [|y [|y' b]]; simplify_eq/=;
      rewrite ?Forall_cons, ?Forall_nil in *; try rewrite Forall_map;
      repeat split; try (apply Hop; tauto).
    all: try (apply Forall_forall; intros z Hz;
              repeat match goal with
                     | H : _ /\ _ |- _ => destruct H
                     end;
              match goal with
              | H : Forall _ _ |- _ =>
                  rewrite Forall_forall in H; specialize (H z Hz)
              end; simpl; apply Hop; tauto).
Qed.

Lemma power_chord_sample (B a b c : R) :
  Rabs a <= B -> Rabs b <= B -> Rabs c <= B ->
  Rabs (a * 0.4 + b * 0.35 + c * 0.25) <= B.
Proof.
  intros Ha%Rabs_le_elim Hb%Rabs_le_elim Hc%Rabs_le_elim.
  apply Rabs_le. lra.
Qed.

Ltac len_solve :=
  unfold Py.len;
  rewrite ?length_map, ?length_zip_with, ?length_map; lia.

(** X2: no guitar or bass voice is louder than its velocity.  Every sample
    of [clean_tone], [finger_bass] and [slap_bass] lies within [|velocity|],
    and every sample of [distortion] and [power_chord] within
    [0.7 * |velocity|]. *)
Theorem voices_within_velocity (freq duration velocity : R) :
  0 <= duration ->
  let n := Py.int (SAMPLE_RATE * duration) in
  (returns_within (Score.ElectricGuitar.clean_tone freq duration velocity)
                  n (Rabs velocity)
   /\ returns_within (Score.ElectricGuitar.distortion freq duration velocity)
                     n (0.7 * Rabs velocity)
   /\ returns_within (Score.ElectricBass.finger_bass freq duration velocity)
                     n (Rabs velocity))
  /\ (stays_within (Electric.ElectricGuitar.clean_tone freq duration velocity)
                   (Rabs velocity)
      /\ stays_within
           (Electric.ElectricGuitar.distortion freq duration velocity)
           (0.7 * Rabs velocity)
      /\ stays_within
           (Electric.ElectricGuitar.power_chord freq duration velocity)
           (0.7 * Rabs velocity)
      /\ stays_within
           (Electric.ElectricBass.finger_bass freq duration velocity)
           (Rabs velocity)
      /\ stays_within (Electric.ElectricBass.slap_bass freq duration velocity)
                      (Rabs velocity)).
Proof.
  intros Hd n. pose proof (sample_count_nonneg0 _ Hd) as Hn.
  assert (forall f,
    stays_within (Electric.ElectricGuitar.distortion f duration velocity)
                 (0.7 * Rabs velocity)) as Hdist.
  { intros f. unfold Electric.ElectricGuitar.distortion. any_time_axis.
    apply electric_voice_within, bounded_by_map. intros x.
    apply distortion_sample. }
  split; split_and!.
  - unfold Score.ElectricGuitar.clean_tone. on_time_axis Hd.
    apply score_voice_within; [len_solve|].
    rewrite <- list_fmap_compose. apply bounded_by_map. intros ti. simpl.
    apply mix4_sample; lra.
  - unfold Score.ElectricGuitar.distortion. on_time_axis Hd.
    apply score_voice_within; [len_solve|].
    apply bounded_by_map. intros x. apply distortion_sample.
  - unfold Score.ElectricBass.finger_bass. on_time_axis Hd.
    apply score_voice_within; [len_solve|].
    rewrite <- list_fmap_compose. apply bounded_by_map. intros ti. simpl.
    apply mix3_sample; lra.
  - unfold Electric.ElectricGuitar.clean_tone. any_time_axis.
    apply electric_voice_within. rewrite <- list_fmap_compose.
    apply bounded_by_map. intros ti. simpl. apply mix4_sample; lra.
  - apply Hdist.
  - intros buf. unfold Electric.ElectricGuitar.power_chord.
    destruct (Electric.ElectricGuitar.distortion freq _ _) as [w1|] eqn:H1;
      [simpl|done].
    destruct (Electric.ElectricGuitar.distortion (freq * 1.5) _ _)
      as [w2|] eqn:H2; [simpl|done].
    destruct (Electric.ElectricGuitar.distortion (freq * 2) _ _)
      as [w3|] eqn:H3; [simpl|done].
    apply Hdist in H1, H2, H3.
    destruct (Np.add _ _) as [w|] eqn:Hw; [simpl|done]. intros Hbuf.
    set (B := 0.7 * Rabs velocity) in *.
    assert (Forall (fun s => exists a b, s = a * 0.4 + b * 0.35
                                         /\ Rabs a <= B /\ Rabs b <= B) w)
      as Hw'.
    { eapply (binop_Forall (fun x => exists a, x = a * 0.4 /\ Rabs a <= B)
                           (fun y => exists b, y = b * 0.35 /\ Rabs b <= B));
        [|exact Hw|..].
      - intros x y (a & -> & Ha) (b & -> & Hb). by exists a, b.
      - rewrite Forall_map. eapply Forall_impl; [exact H1|].
        intros a Ha. by exists a.
      - rewrite Forall_map. eapply Forall_impl; [exact H2|].
        intros b Hb. by exists b. }
    eapply (binop_Forall _ (fun y => exists c, y = c * 0.25 /\ Rabs c <= B));
      [|exact Hbuf|exact Hw'|].
    + intros x y (a & b & -> & Ha & Hb) (c & -> & Hc).
      by apply power_chord_sample.
    + rewrite Forall_map. eapply Forall_impl; [exact H3|].
      intros c Hc. by exists c.
  - unfold Electric.ElectricBass.finger_bass. any_time_axis.
    apply electric_voice_within. rewrite <- list_fmap_compose.
    apply bounded_by_map. intros ti. simpl. apply mix3_sample; lra.
  - unfold Electric.ElectricBass.slap_bass. any_time_axis.
    destruct (Np.linspace 2 1 _ _) as [boost|]; [simpl|done].
    destruct (Np.imul_slice _ _ _ _) as [wave|]; [simpl|done].
    apply electric_voice_within, bounded_by_map. intros x.
    apply slap_sample.
Qed.

Lemma voices_within_velocity_witness :
  returns_within (Score.ElectricGuitar.distortion 440 (1 / 2) 0.8)
                 (Py.int (SAMPLE_RATE * (1 / 2))) (0.7 * Rabs 0.8).
Proof.
  apply (voices_within_velocity 440 (1 / 2) 0.8). lra.
Defined.

(** ** The envelope starts and ends in silence *)

Lemma ramp_lookup (start stop : R) (num : Z) (i : nat) :
  (i < Z.to_nat num)%nat ->
  ramp start stop num !! i
  = Some (start + INR i * ((stop - start) / IZR (num - 1))).
Proof.
  intros Hi. unfold ramp, Np.linspace.
  destruct (Z.ltb_spec num 0); [lia|]. simpl.
  rewrite list_lookup_fmap. unfold Np.arange. rewrite list_lookup_fmap.
  assert (seq 0 (Z.to_nat num) !! i = Some i) as ->; [|done].
  apply lookup_seq. lia.
Qed.

Lemma attack_stage_length (n A : Z) :
  (0 <= n)%Z ->
  length (if (0 <? A)%Z && (A <? n)%Z
          then ramp 0 1 A ++ drop (Z.to_nat A) (replicate (Z.to_nat n) 1)
          else replicate (Z.to_nat n) 1) = Z.to_nat n.
Proof.
  intros Hn.
  destruct (Z.ltb_spec 0 A), (Z.ltb_spec A n); simpl;
    rewrite ?length_app, ?length_drop, ?length_replicate; try done.
  destruct (ramp_Some 0 1 A) as [_ ->]; lia.
Qed.

Lemma guarded_envelope_head (n A Rl : Z) :
  (1 <= A < n)%Z -> guarded_envelope n A Rl !! 0%nat = Some 0.
Proof.
  intros HA. unfold guarded_envelope.
  pose proof (attack_stage_length n A ltac:(lia)) as Hl1.
  assert ((if (0 <? A)%Z && (A <? n)%Z
           then ramp 0 1 A ++ drop (Z.to_nat A) (replicate (Z.to_nat n) 1)
           else replicate (Z.to_nat n) 1) !! 0%nat = Some 0) as H0.
  { destruct (Z.ltb_spec 0 A), (Z.ltb_spec A n); try lia. simpl.
    destruct (ramp_Some 0 1 A) as [_ Hlr]; [lia|].
    rewrite lookup_app_l by lia. rewrite ramp_lookup by lia.
    f_equal. simpl. lra. }
  destruct ((0 <? Rl)%Z && (Rl <? n)%Z) eqn:HR; [|done].
  apply andb_prop in HR as [HR1%Z.ltb_lt HR2%Z.ltb_lt].
  rewrite lookup_app_l by (rewrite length_take; lia).
  rewrite lookup_take. destruct (decide _); [done|lia].
Qed.

Lemma guarded_envelope_last (n A Rl : Z) :
  (2 <= Rl < n)%Z ->
  guarded_envelope n A Rl !! (Z.to_nat n - 1)%nat = Some 0.
Proof.
  intros HR. unfold guarded_envelope.
  pose proof (attack_stage_length n A ltac:(lia)) as Hl1.
  destruct (Z.ltb_spec 0 Rl), (Z.ltb_spec Rl n); try lia. simpl.
  destruct (ramp_Some 1 0 Rl) as [_ Hlr]; [lia|].
  rewrite lookup_app_r by (rewrite length_take; lia).
  rewrite length_take, Hl1.
  replace (Z.to_nat n - 1 - Z.to_nat (n - Rl) `min` Z.to_nat n)%nat
    with (Z.to_nat (Rl - 1)) by lia.
  rewrite ramp_lookup by lia. f_equal.
  rewrite INR_IZR_INZ, Z2Nat.id by lia.
  assert (IZR (Rl - 1) <> 0) by (apply not_0_IZR; lia). by field.
Qed.

(** X3: the guarded envelope makes a note start and end in silence.  When
    the attack ramp is written (1 <= attack_samples < len(wave)) the first
    output sample is 0; when the release ramp is written with at least two
    samples (2 <= release_samples < len(wave)) the last output sample is
    0. *)
Theorem envelope_fades_to_silence (wave : list R)
    (duration attack release : R) :
  let n := Py.len wave in
  let A := Py.int (attack * SAMPLE_RATE) in
  let Rl := Py.int (release * SAMPLE_RATE) in
  exists out,
    Score.Synthesizer._apply_envelope wave duration attack release = Some out
    /\ ((1 <= A < n)%Z -> out !! 0%nat = Some 0)
    /\ ((2 <= Rl < n)%Z -> last out = Some 0).
Proof.
  intros n A Rl. rewrite score_envelope_exact. fold n A Rl.
  eexists. split; [reflexivity|].
  assert (length (guarded_envelope n A Rl) = length wave) as Hle.
  { rewrite guarded_envelope_length by (unfold n, Py.len; lia).
    unfold n. by rewrite len_nat. }
  split.
  - intros HA. rewrite lookup_zip_with, guarded_envelope_head by done.
    destruct wave as [|w0 wave]; [unfold n, Py.len in HA; simpl in HA; lia|].
    simpl. f_equal. lra.
  - intros HR. rewrite last_lookup, length_zip_with, Hle, Nat.min_id.
    rewrite lookup_zip_with.
    replace (pred (length wave)) with (Z.to_nat n - 1)%nat
      by (unfold n, Py.len; lia).
    rewrite guarded_envelope_last by done.
    destruct (lookup_lt_is_Some_2 wave (Z.to_nat n - 1)) as [w Hw].
    { unfold n, Py.len in *. lia. }
    rewrite Hw. simpl. f_equal. lra.
Qed.

Lemma envelope_fades_to_silence_witness :
  exists out,
    Score.Synthesizer._apply_envelope [1; 1; 1] 0 (2 / 44100) (2 / 44100)
    = Some out
    /\ out !! 0%nat = Some 0 /\ last out = Some 0.
Proof.
  assert (Py.int (2 / 44100 * SAMPLE_RATE) = 2%Z) as H2.
  { apply int_eq; unfold SAMPLE_RATE; lra. }
  destruct (envelope_fades_to_silence [1; 1; 1] 0 (2 / 44100) (2 / 44100))
    as (out & Hout & Hhead & Hlast).
  exists out. split; [exact Hout|]. rewrite H2 in Hhead, Hlast.
  split; [apply Hhead|apply Hlast]; unfold Py.len; simpl; lia.
Defined.

(** ** Percussion stays within its velocity *)

Lemma exp_decay_unit (ti k : R) : 0 <= ti -> 0 <= k -> 0 < exp (- ti * k) <= 1.
Proof.
  intros Ht Hk. split; [apply exp_pos|].
  destruct (Req_dec (- ti * k) 0) as [->|Hne]; [rewrite exp_0; lra|].
  rewrite <- exp_0. left. apply exp_increasing. nra.
Qed.

Lemma time_axis_nonneg (duration : R) (num : Z) (t : list R) :
  0 <= duration -> Np.linspace 0 duration num false = Some t ->
  Forall (fun ti => 0 <= ti) t.
Proof.
  intros Hd. unfold Np.linspace.
  destruct (Z.ltb_spec num 0) as [|Hn]; [done|]. intros [= <-].
  rewrite Forall_map. eapply Forall_impl; [apply arange_lt|].
  intros i [Hi _]. simpl.
  destruct (Z.eq_dec num 0%Z) as [->|Hne].
  - unfold Rdiv. rewrite Rinv_0. lra.
  - assert (0 < IZR num) by (apply IZR_lt; lia).
    assert (0 <= (duration - 0) / IZR num).
    { apply Rmult_le_pos; [lra|]. left. by apply Rinv_0_lt_compat. }
    nra.
Qed.

Lemma length_cumsum_from (acc : R) (a : list R) :
  length (Np.cumsum_from acc a) = length a.
Proof. revert acc. induction a as [|x a IH]; intros acc; simpl; auto. Qed.

Lemma damped_sample (x ti k velocity : R) :
  Rabs x <= 1 -> 0 <= ti -> 0 <= k ->
  Rabs (x * exp (- ti * k) * velocity) <= Rabs velocity.
Proof.
  intros Hx Ht Hk. destruct (exp_decay_unit ti k Ht Hk) as [He0 He1].
  rewrite !Rabs_mult, (Rabs_pos_eq (exp _)) by lra.
  pose proof (Rabs_pos velocity). pose proof (Rabs_pos x).
  assert (Rabs x * exp (- ti * k) <= 1) by nra. nra.
Qed.

(** X4: the kick drum has [int(44100 * duration)] samples, each within
    [|velocity|], for every duration that is not negative. *)
Theorem kick_within_velocity (duration velocity : R) :
  0 <= duration ->
  returns_within (DrumMachine.kick duration velocity)
                 (Py.int (SAMPLE_RATE * duration)) (Rabs velocity).
Proof.
  intros Hd. pose proof (sample_count_nonneg0 _ Hd) as Hn.
  unfold DrumMachine.kick.
  destruct (linspace_Some 0 duration (Py.int (SAMPLE_RATE * duration)) false)
    as (t & Ht & Hl); [done|].
  rewrite Ht. simpl. eexists. split; [reflexivity|].
  pose proof (time_axis_nonneg _ _ _ Hd Ht) as Hpos. split.
  - unfold Py.len, Np.cumsum.
    rewrite length_zip_with, length_cumsum_from, !length_map. lia.
  - apply Forall_lookup. intros i y Hy.
    apply lookup_zip_with_Some in Hy as (p & ti & -> & _ & Hti).
    apply damped_sample; [apply Rabs_sin_le_1| |lra].
    by eapply (Forall_lookup_1 _ _ _ _ Hpos).
Qed.

Lemma kick_within_velocity_witness :
  returns_within (DrumMachine.kick 0.3 0.8)
                 (Py.int (SAMPLE_RATE * 0.3)) (Rabs 0.8).
Proof. apply (kick_within_velocity 0.3 0.8). lra. Defined.

(** The values of [np.random.uniform(-1, 1, n)] when the generator delivers
    draws of the unit interval. *)
Lemma next_noise_unit (n : nat) (g : Rng.state) :
  (forall i, 0 <= Rng.draws g i <= 1) ->
  Forall (fun u => Rabs u <= 1) (next_noise n g).
Proof.
  intros Hg. unfold next_noise. rewrite Forall_map. apply Forall_forall.
  intros i _. simpl. specialize (Hg (Rng.pos g + i)%nat).
  apply Rabs_le. lra.
Qed.

Lemma clap_onset_bound (B : R) (envelope : list R) (i : Z) :
  Forall (fun e => 0 <= e <= B) envelope ->
  Forall (fun e => 0 <= e <= B + 1) (DrumMachine.clap_onset envelope i).
Proof.
  intros He.
  assert (Forall (fun e => 0 <= e <= B + 1) envelope) as He'.
  { eapply Forall_impl; [exact He|]. simpl. intros e ?. lra. }
  unfold DrumMachine.clap_onset. destruct (_ <? _)%Z; [|done].
  apply Forall_app. split; [by apply Forall_take|].
  apply Forall_lookup. intros j y Hy.
  apply lookup_zip_with_Some in Hy as (e & x & -> & He1 & Hx).
  apply list_lookup_fmap_Some in Hx as (k & -> & Hk).
  apply (Forall_lookup_1 _ _ _ _ (Forall_drop _ _ _ He)) in He1.
  apply (Forall_lookup_1 _ _ _ _ (arange_lt _)) in Hk. simpl in *.
  destruct (exp_decay_unit (k / SAMPLE_RATE) 50) as [? ?];
    [unfold SAMPLE_RATE; lra|lra|].
  replace (- k / SAMPLE_RATE * 50) with (- (k / SAMPLE_RATE) * 50)
    by (unfold SAMPLE_RATE; lra).
  lra.
Qed.

Lemma clap_onset_length (envelope : list R) (i : Z) :
  length (DrumMachine.clap_onset envelope i) = length envelope.
Proof.
  unfold DrumMachine.clap_onset.
  destruct (Z.ltb_spec (Py.int (IZR i * 0.01 * SAMPLE_RATE)) (Py.len envelope))
    as [Hlt|]; [|done].
  rewrite length_app, length_take, length_zip_with, length_drop, length_map,
    length_arange.
  unfold Py.len in *. lia.
Qed.

(** What the three noise instruments compute from the draws they read. *)
Lemma percussion_run (duration velocity : R) (g : Rng.state) :
  0 <= duration ->
  let n := Z.to_nat (Py.int (SAMPLE_RATE * duration)) in
  let t := time_axis duration in
  let u := next_noise n g in
  DrumMachine.snare duration velocity g
  = Some (map (fun x => x * velocity * 0.8)
            (zip_with Rplus
               (map (fun ti => sin (2 * PI * 200 * ti) * exp (- ti * 20)) t)
               (zip_with (fun ui ti => ui * exp (- ti * 15) * 0.5) u t)),
          advance n g)
  /\ DrumMachine.hihat duration velocity g
     = Some (zip_with (fun ni ti => ni * exp (- ti * 30) * velocity * 0.4)
                      u t, advance n g)
  /\ DrumMachine.clap duration velocity g
     = Some (zip_with (fun ne ti => ne * exp (- ti * 20) * velocity * 0.5)
               (zip_with Rmult u
                  (foldl DrumMachine.clap_onset (replicate (length t) 0)
                         [0; 1; 2; 3]%Z)) t, advance n g).
Proof.
  intros Hd n t u. destruct (time_axis_Some duration Hd) as [Ht Hl].
  fold n t in Hl, Ht. split_and!.
  - unfold DrumMachine.snare, Rng.bind, Rng.lift. rewrite Ht.
    by rewrite uniform_run, Hl.
  - unfold DrumMachine.hihat, Rng.bind, Rng.lift. rewrite Ht.
    by rewrite uniform_run, Hl.
  - unfold DrumMachine.clap, Rng.bind, Rng.lift. rewrite Ht.
    by rewrite uniform_run, Hl.
Qed.

(** X5: the noise percussion stays within a fixed multiple of its velocity
    and has [int(44100 * duration)] samples.  When the generator delivers
    draws of the unit interval, every sample of [hihat] lies within
    [0.4 * |velocity|], every sample of [snare] within [1.2 * |velocity|]
    (tone and noise add up to 1.5 before the factor 0.8), and every sample of
    [clap] within [2 * |velocity|] (four onsets add up in its envelope). *)
Theorem noise_percussion_within (duration velocity : R) (g : Rng.state) :
  0 <= duration ->
  (forall i, 0 <= Rng.draws g i <= 1) ->
  let n := Py.int (SAMPLE_RATE * duration) in
  exists snare hihat clap g',
    DrumMachine.snare duration velocity g = Some (snare, g')
    /\ DrumMachine.hihat duration velocity g = Some (hihat, g')
    /\ DrumMachine.clap duration velocity g = Some (clap, g')
    /\ (Py.len snare = n /\ bounded_by (1.2 * Rabs velocity) snare)
    /\ (Py.len hihat = n /\ bounded_by (0.4 * Rabs velocity) hihat)
    /\ (Py.len clap = n /\ bounded_by (2 * Rabs velocity) clap).
Proof.
  intros Hd Hg n. pose proof (sample_count_nonneg0 _ Hd) as Hn. fold n in Hn.
  destruct (percussion_run duration velocity g Hd) as (Hs & Hh & Hc).
  fold n in Hs, Hh, Hc.
  destruct (time_axis_Some duration Hd) as [Ht Hl]. fold n in Hl.
  pose proof (time_axis_nonneg _ _ _ Hd Ht) as Hpos.
  pose proof (next_noise_unit (Z.to_nat n) g Hg) as Hu.
  set (t := time_axis duration) in *. set (u := next_noise _ g) in *.
  assert (length u = Z.to_nat n) as Hlu.
  { unfold u, next_noise. by rewrite length_map, length_seq. }
  pose proof (Rabs_pos velocity) as Hv.
  eexists _, _, _, _. split_and!; [exact Hs|exact Hh|exact Hc|..].
  - unfold Py.len.
    rewrite length_map, !length_zip_with, length_map. lia.
  - apply Forall_lookup. intros i y Hy.
    apply list_lookup_fmap_Some in Hy as (x & -> & Hx).
    apply lookup_zip_with_Some in Hx as (a & b & -> & Ha & Hb).
    apply list_lookup_fmap_Some in Ha as (ti & -> & Hti).
    apply lookup_zip_with_Some in Hb as (ui & ti' & -> & Hui & Hti').
    assert (ti' = ti) as -> by congruence.
    apply (Forall_lookup_1 _ _ _ _ Hpos) in Hti.
    apply (Forall_lookup_1 _ _ _ _ Hu) in Hui. simpl in Hti.
    destruct (exp_decay_unit ti 20) as [? ?]; [lra..|].
    destruct (exp_decay_unit ti 15) as [? ?]; [lra..|].
    pose proof (SIN_bound (2 * PI * 200 * ti)).
    apply Rabs_le_elim in Hui.
    assert (Rabs (sin (2 * PI * 200 * ti) * exp (- ti * 20)
                  + ui * exp (- ti * 15) * 0.5) <= 1.5) as Hsum.
    { apply Rabs_le. nra. }
    rewrite !Rabs_mult, (Rabs_pos_eq 0.8) by lra. nra.
  - unfold Py.len. rewrite length_zip_with. lia.
  - apply Forall_lookup. intros i y Hy.
    apply lookup_zip_with_Some in Hy as (ui & ti & -> & Hui & Hti).
    apply (Forall_lookup_1 _ _ _ _ Hpos) in Hti.
    apply (Forall_lookup_1 _ _ _ _ Hu) in Hui. simpl in Hti.
    pose proof (damped_sample ui ti 30 velocity Hui Hti ltac:(lra)).
    rewrite Rabs_mult, (Rabs_pos_eq 0.4) by lra. lra.
  - unfold Py.len. rewrite !length_zip_with.
    assert (length (foldl DrumMachine.clap_onset (replicate (length t) 0)
                          [0; 1; 2; 3]%Z) = length t) as ->.
    { simpl. by rewrite !clap_onset_length, length_replicate. }
    lia.
  - assert (Forall (fun e => 0 <= e <= 4)
              (foldl DrumMachine.clap_onset (replicate (length t) 0)
                     [0; 1; 2; 3]%Z)) as He.
    { simpl.
      replace 4 with (0 + 1 + 1 + 1 + 1) by lra.
      do 4 apply clap_onset_bound.
      apply Forall_replicate. lra. }
    apply Forall_lookup. intros i y Hy.
    apply lookup_zip_with_Some in Hy as (ne & ti & -> & Hne & Hti).
    apply lookup_zip_with_Some in Hne as (ui & e & -> & Hui & He1).
    apply (Forall_lookup_1 _ _ _ _ Hpos) in Hti.
    apply (Forall_lookup_1 _ _ _ _ Hu) in Hui.
    apply (Forall_lookup_1 _ _ _ _ He) in He1. simpl in Hti, He1.
    destruct (exp_decay_unit ti 20) as [? ?]; [lra..|].
    apply Rabs_le_elim in Hui.
    assert (Rabs (ui * e * exp (- ti * 20)) <= 4) as Hb.
    { apply Rabs_le.
      assert (-4 <= ui * e <= 4) by nra. nra. }
    replace (ui * e * exp (- ti * 20) * velocity * 0.5)
      with (ui * e * exp (- ti * 20) * (velocity * 0.5)) by ring.
    rewrite Rabs_mult, (Rabs_mult velocity), (Rabs_pos_eq 0.5) by lra.
    pose proof (Rabs_pos (ui * e * exp (- ti * 20))). nra.
Qed.

Lemma noise_percussion_within_witness :
  exists snare hihat clap g',
    DrumMachine.snare 0.2 0.8 (Rng.State (fun _ => 1 / 2) 0) = Some (snare, g')
    /\ DrumMachine.hihat 0.2 0.8 (Rng.State (fun _ => 1 / 2) 0)
       = Some (hihat, g')
    /\ DrumMachine.clap 0.2 0.8 (Rng.State (fun _ => 1 / 2) 0)
       = Some (clap, g')
    /\ (Py.len snare = Py.int (SAMPLE_RATE * 0.2)
        /\ bounded_by (1.2 * Rabs 0.8) snare)
    /\ (Py.len hihat = Py.int (SAMPLE_RATE * 0.2)
        /\ bounded_by (0.4 * Rabs 0.8) hihat)
    /\ (Py.len clap = Py.int (SAMPLE_RATE * 0.2)
        /\ bounded_by (2 * Rabs 0.8) clap).
Proof.
  apply (noise_percussion_within 0.2 0.8 (Rng.State (fun _ => 1 / 2) 0)).
  - lra.
  - intros i. simpl. lra.
Defined.

(** ** The two frequency tables *)

Lemma Rpower_twelfth (k : Z) :
  (Rpower 2 (IZR k / 12)) ^ 12 = Rpower 2 (IZR k).
Proof.
  rewrite <- Rpower_pow by apply exp_pos.
  rewrite Rpower_mult. f_equal. simpl. field.
Qed.

Lemma Rpower_2_nat (p q : nat) :
  Rpower 2 (IZR (Z.of_nat p - Z.of_nat q)) = 2 ^ p / 2 ^ q.
Proof.
  rewrite minus_IZR, <- !INR_IZR_INZ. unfold Rminus.
  rewrite Rpower_plus, Rpower_Ropp, !Rpower_pow by lra. reflexivity.
Qed.

(** A twelfth root of a power of two lies between two numbers when their
    twelfth powers enclose that power of two. *)
Lemma et_bracket (p q : nat) (lo hi : R) :
  0 <= lo -> 0 <= hi ->
  lo ^ 12 * 2 ^ q < 2 ^ p -> 2 ^ p < hi ^ 12 * 2 ^ q ->
  lo < Rpower 2 (IZR (Z.of_nat p - Z.of_nat q) / 12) < hi.
Proof.
  intros Hlo Hhi H1 H2.
  set (x := Rpower 2 (IZR (Z.of_nat p - Z.of_nat q) / 12)).
  assert (0 < x) as Hx by apply exp_pos.
  assert (x ^ 12 = 2 ^ p / 2 ^ q) as Hx12.
  { unfold x. rewrite Rpower_twelfth. apply Rpower_2_nat. }
  assert (0 < 2 ^ q) as Hq by (apply pow_lt; lra).
  assert (lo ^ 12 < x ^ 12 < hi ^ 12) as [Ha Hb].
  { rewrite Hx12. split.
    - apply (Rmult_lt_reg_r (2 ^ q)); [done|]. field_simplify; lra.
    - apply (Rmult_lt_reg_r (2 ^ q)); [done|]. field_simplify; lra. }
  split.
  - destruct (Rlt_dec lo x) as [|Hn]; [done|]. exfalso.
    assert (x ^ 12 <= lo ^ 12) by (apply pow_incr; lra). lra.
  - destruct (Rlt_dec x hi) as [|Hn]; [done|]. exfalso.
    assert (hi ^ 12 <= x ^ 12) by (apply pow_incr; lra). lra.
Qed.

Lemma score_entry_between (i : nat) (name : string) (octave : Z) (p q : nat)
    (lo hi : R) :
  Score.NOTE_NAMES !! i = Some name -> (2 <= octave <= 6)%Z ->
  ((octave - 4) * 12 + (Z.of_nat i - 9) = Z.of_nat p - Z.of_nat q)%Z ->
  0 <= lo -> 0 <= hi ->
  (lo / 440) ^ 12 * 2 ^ q < 2 ^ p -> 2 ^ p < (hi / 440) ^ 12 * 2 ^ q ->
  exists f',
    Score.NOTE_FREQUENCIES !! (name +:+ Py.str octave) = Some f'
    /\ lo < f' < hi.
Proof.
  intros Hname Hoct Hk Hlo Hhi H1 H2.
  rewrite (score_table_lookup i name octave Hname Hoct).
  eexists. split; [reflexivity|]. unfold Score.note_frequency. rewrite Hk.
  destruct (et_bracket p q (lo / 440) (hi / 440)) as [Ha Hb];
    [lra|lra|done|done|].
  lra.
Qed.




Ltac entry i name o p q lo hi :=
  let f' := fresh "f'" in
  let Hf' := fresh "Hf'" in
  let Hlo := fresh "Hlo" in
  let Hhi := fresh "Hhi" in
  destruct (score_entry_between i name o p q lo hi)
    as (f' & Hf' & Hlo & Hhi); [done|lia|lia|lra|lra|lra|lra|];
  exists f'; split; [exact Hf'|].

Ltac close_entry :=
  split_and!;
  [apply Rabs_def1; lra|intros _; apply Rabs_def1; lra|intros [=]].

Ltac sharp_entry :=
  split_and!;
  [apply Rabs_def1; lra|intros []; reflexivity
  |intros _; rewrite Rabs_left by lra; lra].

(** X7: the hand-written table agrees with the generated one.  Every name
    of the hand-written table is in the generated table, and the two
    frequencies differ by less than 0.01 Hz; they differ by less than
    0.005 Hz, the rounding to two decimals, for every name but E5, whose
    entry 659.25 is more than 0.005 Hz below the generated value. *)
Theorem electric_table_near_equal_temperament (symbol : string) (f : R) :
  Electric.NOTE_FREQUENCIES !! symbol = Some f ->
  exists f',
    Score.NOTE_FREQUENCIES !! symbol = Some f'
    /\ Rabs (f - f') < 0.01
    /\ (symbol <> "E5" -> Rabs (f - f') < 0.005)
    /\ (symbol = "E5" -> 0.005 < Rabs (f - f')).
Proof.
  intros Hf. apply elem_of_list_to_map_2 in Hf.
  repeat (apply elem_of_cons in Hf as [Hf|Hf]; [injection Hf as -> ->|]);
    [..|by apply elem_of_nil in Hf].
  - entry 0%nat "C" 3%Z 0%nat 21%nat 130.805 130.815; close_entry.
  - entry 1%nat "C#" 3%Z 0%nat 20%nat 138.585 138.595; close_entry.
  - entry 2%nat "D" 3%Z 0%nat 19%nat 146.825 146.835; close_entry.
  - entry 3%nat "D#" 3%Z 0%nat 18%nat 155.555 155.565; close_entry.
  - entry 4%nat "E" 3%Z 0%nat 17%nat 164.805 164.815; close_entry.
  - entry 5%nat "F" 3%Z 0%nat 16%nat 174.605 174.615; close_entry.
  - entry 6%nat "F#" 3%Z 0%nat 15%nat 184.995 185.005; close_entry.
  - entry 7%nat "G" 3%Z 0%nat 14%nat 195.995 196.005; close_entry.
  - entry 8%nat "G#" 3%Z 0%nat 13%nat 207.645 207.655; close_entry.
  - entry 9%nat "A" 3%Z 0%nat 12%nat 219.995 220.005; close_entry.
  - entry 10%nat "A#" 3%Z 0%nat 11%nat 233.075 233.085; close_entry.
  - entry 11%nat "B" 3%Z 0%nat 10%nat 246.935 246.945; close_entry.
  - entry 0%nat "C" 4%Z 0%nat 9%nat 261.625 261.635; close_entry.
  - entry 1%nat "C#" 4%Z 0%nat 8%nat 277.175 277.185; close_entry.
  - entry 2%nat "D" 4%Z 0%nat 7%nat 293.655 293.665; close_entry.
  - entry 3%nat "D#" 4%Z 0%nat 6%nat 311.125 311.135; close_entry.
  - entry 4%nat "E" 4%Z 0%nat 5%nat 329.625 329.635; close_entry.
  - entry 5%nat "F" 4%Z 0%nat 4%nat 349.225 349.235; close_entry.
  - entry 6%nat "F#" 4%Z 0%nat 3%nat 369.985 369.995; close_entry.
  - entry 7%nat "G" 4%Z 0%nat 2%nat 391.995 392.005; close_entry.
  - entry 8%nat "G#" 4%Z 0%nat 1%nat 415.295 415.305; close_entry.
  - entry 9%nat "A" 4%Z 0%nat 0%nat 439.995 440.005; close_entry.
  - entry 10%nat "A#" 4%Z 1%nat 0%nat 466.155 466.165; close_entry.
  - entry 11%nat "B" 4%Z 2%nat 0%nat 493.875 493.885; close_entry.
  - entry 0%nat "C" 5%Z 3%nat 0%nat 523.245 523.255; close_entry.
  - entry 2%nat "D" 5%Z 5%nat 0%nat 587.325 587.335; close_entry.
  - entry 4%nat "E" 5%Z 7%nat 0%nat 659.255 659.26; sharp_entry.
  - entry 5%nat "F" 5%Z 8%nat 0%nat 698.455 698.465; close_entry.
  - entry 7%nat "G" 5%Z 10%nat 0%nat 783.985 783.995; close_entry.
  - entry 9%nat "A" 5%Z 12%nat 0%nat 879.995 880.005; close_entry.
  - entry 11%nat "B" 5%Z 14%nat 0%nat 987.765 987.775; close_entry.
Qed.

Lemma electric_table_near_equal_temperament_witness :
  exists f',
    Score.NOTE_FREQUENCIES !! "C4" = Some f' /\ Rabs (261.63 - f') < 0.01.
Proof.
  destruct (electric_table_near_equal_temperament "C4" 261.63)
    as (f' & Hf' & Hd & _); [reflexivity|].
  by exists f'.
Defined.

(** ** The renderer *)

Lemma for_each_invariant {A S} (I : S -> Prop) (P : A -> Prop)
    (body : S -> A -> Rng.M S) (l : list A) (s : S) (g : Rng.state) :
  (forall s x g, I s -> P x ->
     exists s' g', body s x g = Some (s', g') /\ I s') ->
  Forall P l -> I s ->
  exists s' g', Rng.for_each body l s g = Some (s', g') /\ I s'.
Proof.
  intros Hbody Hl. revert s g.
  induction Hl as [|x l Hx Hl IH]; intros s g Hs; simpl.
  - by exists s, g.
  - unfold Rng.bind. destruct (Hbody s x g Hs Hx) as (s1 & g1 & -> & Hs1).
    by apply IH.
Qed.

Lemma for_each_preserves {A S} (I : S -> Prop) (body : S -> A -> Rng.M S)
    (l : list A) (s s' : S) (g g' : Rng.state) :
  (forall s x g s' g', I s -> body s x g = Some (s', g') -> I s') ->
  I s -> Rng.for_each body l s g = Some (s', g') -> I s'.
Proof.
  intros Hbody. revert s g. induction l as [|x l IH]; intros s g Hs; simpl.
  - by intros [= <- <-].
  - unfold Rng.bind. destruct (body s x g) as [[s1 g1]|] eqn:H1; [|done].
    apply IH. by eapply Hbody.
Qed.

Lemma for_each_raises_inv {A S} (I : S -> Prop) (body : S -> A -> Rng.M S)
    (l : list A) (x : A) (s : S) (g : Rng.state) :
  (forall s x g s' g', I s -> body s x g = Some (s', g') -> I s') ->
  x ∈ l -> (forall s g, I s -> body s x g = None) -> I s ->
  Rng.for_each body l s g = None.
Proof.
  intros Hbody Hin Hx. revert s g.
  induction l as [|y l IH]; intros s g Hs; [by apply elem_of_nil in Hin|].
  simpl. unfold Rng.bind.
  apply elem_of_cons in Hin as [<-|Hin]; [by rewrite Hx|].
  destruct (body s y g) as [[s1 g1]|] eqn:H1; [|done].
  apply IH; [done|]. by eapply Hbody.
Qed.

Lemma score_voices_return (freq duration velocity : R) :
  0 <= duration ->
  let n := Py.int (SAMPLE_RATE * duration) in
  returns_len (Score.Synthesizer.pad_sound freq duration velocity) n
  /\ returns_len (Score.ElectricGuitar.clean_tone freq duration velocity) n
  /\ returns_len (Score.ElectricBass.finger_bass freq duration velocity) n.
Proof.
  intros Hd n. pose proof (sample_count_nonneg0 _ Hd) as Hn. split_and!.
  - unfold Score.Synthesizer.pad_sound. on_time_axis Hd.
    apply score_shaped_len. len_solve.
  - unfold Score.ElectricGuitar.clean_tone. on_time_axis Hd.
    apply score_shaped_len. len_solve.
  - unfold Score.ElectricBass.finger_bass. on_time_axis Hd.
    apply score_shaped_len. len_solve.
Qed.

Lemma kick_returns (duration velocity : R) :
  0 <= duration -> is_Some (DrumMachine.kick duration velocity).
Proof.
  intros Hd. unfold DrumMachine.kick. on_time_axis Hd. by eexists.
Qed.

(** The instrument dispatch returns whenever the voice it calls is asked
    for a duration that is not negative. *)
Lemma note_wave_returns (self : Score.MusicComposer) (track : Score.Track)
    (note : Score.Note) (g : Rng.state) :
  (pitched track -> 0 <= Score.duration note * Score.beat_duration self) ->
  exists w g', Score.note_wave self track note g = Some (w, g').
Proof.
  intros Hd. unfold Score.note_wave, pitched in *.
  repeat case_decide.
  - destruct (score_voices_return (Score.get_frequency note)
                (Score.duration note * Score.beat_duration self)
                (Score.velocity note)) as ((w & Hw & _) & _ & _); [tauto|].
    unfold Rng.bind, Rng.lift, Rng.ret. rewrite Hw. by eexists _, _.
  - destruct (score_voices_return (Score.get_frequency note)
                (Score.duration note * Score.beat_duration self)
                (Score.velocity note)) as (_ & (w & Hw & _) & _); [tauto|].
    unfold Rng.bind, Rng.lift, Rng.ret. rewrite Hw. by eexists _, _.
  - destruct (score_voices_return (Score.get_frequency note / 2)
                (Score.duration note * Score.beat_duration self)
                (Score.velocity note)) as (_ & _ & (w & Hw & _)); [tauto|].
    unfold Rng.bind, Rng.lift, Rng.ret. rewrite Hw. by eexists _, _.
  - destruct (kick_returns DrumMachine.kick_default_duration
                (Score.velocity note)) as [w Hw].
    { unfold DrumMachine.kick_default_duration. lra. }
    unfold Rng.bind, Rng.lift, Rng.ret. rewrite Hw. by eexists _, _.
  - destruct (percussion_run DrumMachine.snare_default_duration
                (Score.velocity note) g) as (Hs & _).
    { unfold DrumMachine.snare_default_duration. lra. }
    unfold Rng.bind, Rng.ret. rewrite Hs. by eexists _, _.
  - destruct (percussion_run DrumMachine.hihat_default_duration
                (Score.velocity note) g) as (_ & Hh & _).
    { unfold DrumMachine.hihat_default_duration. lra. }
    unfold Rng.bind, Rng.ret. rewrite Hh. by eexists _, _.
  - by eexists _, _.
  - by eexists _, _.
Qed.

Lemma render_note_returns (self : Score.MusicComposer) (track : Score.Track)
    (total : Z) (audio : list R) (note : Score.Note) (g : Rng.state) :
  Py.len audio = total ->
  (0 <= Score.start_sample self note <= total)%Z ->
  (pitched track -> 0 <= Score.duration note * Score.beat_duration self) ->
  exists audio' g',
    Score.render_note self track total audio note g = Some (audio', g')
    /\ Py.len audio' = total.
Proof.
  intros Hlen Hstart Hd.
  destruct (note_wave_returns self track note g Hd) as (w & g' & Hw).
  assert (exists audio',
    Score.render_note self track total audio note g = Some (audio', g'))
    as [audio' Hr].
  { unfold Score.render_note, Rng.bind. rewrite Hw.
    destruct w as [wave|]; [|by eexists].
    rewrite iadd_slice_window by done. by eexists. }
  exists audio', g'. split; [done|].
  apply render_note_length in Hr. unfold Py.len in *. lia.
Qed.

(** X8: the renderer returns a full-length buffer for every track whose
    notes start inside the buffer and whose pitched notes do not have a
    negative duration, whatever the instrument, the pitches and the state of
    the generator. *)
Theorem render_track_returns (self : Score.MusicComposer)
    (track : Score.Track) (total_beats : R) (g : Rng.state) :
  (0 <= total_samples self total_beats)%Z ->
  Forall (fun note =>
            (0 <= Score.start_sample self note
             <= total_samples self total_beats)%Z
            /\ (pitched track ->
                0 <= Score.duration note * Score.beat_duration self))
         (Score.notes track) ->
  exists audio g',
    Score.render_track self track total_beats g = Some (audio, g')
    /\ Py.len audio = total_samples self total_beats.
Proof.
  intros Htot Hnotes. rewrite render_track_unfold.
  fold (total_samples self total_beats).
  set (total := total_samples self total_beats) in *.
  unfold Np.zeros. destruct (Z.ltb_spec total 0); [lia|].
  destruct (for_each_invariant (fun audio => Py.len audio = total)
              (fun note =>
                 (0 <= Score.start_sample self note <= total)%Z
                 /\ (pitched track ->
                     0 <= Score.duration note * Score.beat_duration self))
              (Score.render_note self track total) (Score.notes track)
              (replicate (Z.to_nat total) 0) g)
    as (audio & g' & Hrun & Hlen); [|done| |].
  - intros s x g0 Hs [Hx1 Hx2]. by apply render_note_returns.
  - unfold Py.len. rewrite length_replicate. lia.
  - rewrite Hrun. eexists _, _. split; [reflexivity|].
    unfold Py.len in *. by rewrite length_map.
Qed.

Lemma render_track_returns_witness :
  let self := Score.mkComposer 120 (60.0 / 120) in
  let track :=
    Score.mkTrack "Drums" "drums"
                  [Score.mkNote "Kick" 0 1 0.8; Score.mkNote "Cowbell" 1 1 0.8]
                  false 0.8 in
  exists audio g',
    Score.render_track self track 4 (Rng.State (fun _ => 0) 0)
    = Some (audio, g')
    /\ Py.len audio = total_samples self 4.
Proof.
  intros self track.
  assert (total_samples self 4 = 88200%Z) as Htot.
  { apply int_eq; simpl; unfold SAMPLE_RATE; lra. }
  assert (Score.start_sample self (Score.mkNote "Kick" 0 1 0.8) = 0%Z) as H0.
  { apply int_eq; simpl; unfold SAMPLE_RATE; lra. }
  assert (Score.start_sample self (Score.mkNote "Cowbell" 1 1 0.8) = 22050%Z)
    as H1.
  { apply int_eq; simpl; unfold SAMPLE_RATE; lra. }
  apply (render_track_returns self track 4).
  - rewrite Htot. lia.
  - rewrite Htot. apply Forall_cons. split.
    { rewrite H0. split; [lia|]. intros _. simpl. lra. }
    apply Forall_cons. split; [|constructor].
    rewrite H1. split; [lia|]. intros _. simpl. lra.
Defined.

Lemma note_wave_skipped (self : Score.MusicComposer) (track : Score.Track)
    (note : Score.Note) (g : Rng.state) :
  skipped track note -> Score.note_wave self track note g = Some (None, g).
Proof.
  unfold skipped. rewrite !not_elem_of_cons.
  intros [(? & ? & ? & ? & _)|[Hi (? & ? & ? & _)]];
    unfold Score.note_wave; repeat case_decide; try congruence;
    reflexivity.
Qed.

Lemma render_loop_skipped (self : Score.MusicComposer) (track : Score.Track)
    (total : Z) (notes : list Score.Note) (audio : list R) (g : Rng.state) :
  Forall (skipped track) notes ->
  Rng.for_each (Score.render_note self track total) notes audio g
  = Some (audio, g).
Proof.
  induction 1 as [|note notes Hs _ IH]; [done|]. simpl.
  unfold Rng.bind at 1. unfold Score.render_note at 1, Rng.bind.
  by rewrite note_wave_skipped.
Qed.

Lemma scale_silence (n : nat) (v : R) :
  map (fun x => x * v) (replicate n 0) = replicate n 0.
Proof. induction n as [|n IH]; simpl; [done|]. rewrite IH. f_equal. lra. Qed.

(** X9: a track all of whose notes the renderer passes over (its instrument
    is none of synth, guitar, bass and drums, or it is a drums track and the
    pitch is none of Kick, Snare and HiHat) renders to silence of the full
    length, and the generator is not read. *)
Theorem skipped_notes_render_silence (self : Score.MusicComposer)
    (track : Score.Track) (total_beats : R) (g : Rng.state) :
  Forall (skipped track) (Score.notes track) ->
  Score.render_track self track total_beats g
  = if (total_samples self total_beats <? 0)%Z then None
    else Some (replicate (Z.to_nat (total_samples self total_beats)) 0, g).
Proof.
  intros Hs. rewrite render_track_unfold.
  fold (total_samples self total_beats). unfold Np.zeros.
  destruct (_ <? _)%Z; [done|].
  rewrite render_loop_skipped by done. by rewrite scale_silence.
Qed.

Lemma skipped_notes_render_silence_witness :
  let self := Score.mkComposer 120 (60.0 / 120) in
  let track :=
    Score.mkTrack "Piano" "piano" [Score.mkNote "C4" 0 1 0.8] false 0.8 in
  let g := Rng.State (fun _ => 0) 0 in
  Score.render_track self track 4 g
  = if (total_samples self 4 <? 0)%Z then None
    else Some (replicate (Z.to_nat (total_samples self 4)) 0, g).
Proof.
  intros self track g. apply (skipped_notes_render_silence self track 4 g).
  apply Forall_cons. split; [|constructor]. left. simpl.
  rewrite !not_elem_of_cons. split_and!; try done. apply not_elem_of_nil.
Defined.

Lemma iadd_slice_past_end (audio wave : list R) (start total : Z) :
  Py.len audio = total -> (total < start)%Z ->
  (start - total + 2 <= Py.len wave)%Z ->
  Np.iadd_slice audio (Some start)
                (Some (Py.min (start + Py.len wave) total))
                (Py.slice wave None
                   (Some (Py.min (start + Py.len wave) total - start)%Z))
  = None.
Proof.
  intros Hlen Hlate Hlong. unfold Py.min.
  assert (0 <= total)%Z by (unfold Py.len in Hlen; lia).
  replace (Z.min (start + Py.len wave) total) with total by lia.
  unfold Np.iadd_slice, Py.bounds. simpl. rewrite Hlen.
  unfold Py.slice_index.
  destruct (Z.ltb_spec start 0); [lia|].
  destruct (Z.ltb_spec total 0); [lia|].
  replace (Z.min total total - Z.min start total)%Z with 0%Z by lia.
  set (v := Py.slice wave None (Some (total - start)%Z)).
  assert (2 <= length v)%nat as Hv.
  { unfold v, Py.slice, Py.bounds, Py.slice_index. simpl.
    destruct (Z.ltb_spec (total - start) 0); [|lia].
    rewrite length_take, length_drop. unfold Py.len in *. lia. }
  unfold Np.broadcast_to. destruct (decide _) as [Hz|_]; [simpl in Hz; lia|].
  destruct v as [|x [|y v]]; simpl in Hv; try lia. done.
Qed.

Lemma note_wave_pitched (self : Score.MusicComposer) (track : Score.Track)
    (note : Score.Note) :
  pitched track -> (0 <= note_samples self note)%Z ->
  0 <= Score.duration note * Score.beat_duration self ->
  exists wave,
    Py.len wave = note_samples self note
    /\ forall g, Score.note_wave self track note g = Some (Some wave, g).
Proof.
  intros Hp Hn Hd. unfold Score.note_wave, note_samples in *.
  destruct Hp as [Hp|[Hp|Hp]]; rewrite Hp; simpl.
  - destruct (score_voices_return (Score.get_frequency note)
                (Score.duration note * Score.beat_duration self)
                (Score.velocity note) Hd) as ((w & Hw & Hl) & _ & _).
    exists w. split; [done|]. intros g.
    unfold Rng.bind, Rng.lift, Rng.ret. by rewrite Hw.
  - destruct (score_voices_return (Score.get_frequency note)
                (Score.duration note * Score.beat_duration self)
                (Score.velocity note) Hd) as (_ & (w & Hw & Hl) & _).
    exists w. split; [done|]. intros g.
    unfold Rng.bind, Rng.lift, Rng.ret. by rewrite Hw.
  - destruct (score_voices_return (Score.get_frequency note / 2)
                (Score.duration note * Score.beat_duration self)
                (Score.velocity note) Hd) as (_ & _ & (w & Hw & Hl)).
    exists w. split; [done|]. intros g.
    unfold Rng.bind, Rng.lift, Rng.ret. by rewrite Hw.
Qed.

Lemma int_pos_arg (x : R) : (0 < Py.int x)%Z -> 0 < x.
Proof.
  unfold Py.int. destruct (Rle_dec 0 x) as [Hx|Hx].
  - intros Hf. destruct (Req_dec x 0) as [->|]; [|lra].
    rewrite (Zfloor_eq 0 0) in Hf by lra. lia.
  - intros Hf. pose proof (Zfloor_bound (- x)).
    assert (IZR (Zfloor (- x)) <= -1) as Hlt by (apply IZR_le; lia).
    lra.
Qed.

(** X10: a long note that starts after the end of the buffer stops the
    rendering.  When a note of a synth, guitar or bass track starts [k > 0]
    samples past the end and its voice has at least [k + 2] samples, the
    slice assignment receives at least two samples for an empty target and
    [render_track] raises, whatever the other notes are. *)
Theorem note_past_end_raises (self : Score.MusicComposer)
    (track : Score.Track) (total_beats : R) (note : Score.Note)
    (g : Rng.state) :
  pitched track -> note ∈ Score.notes track ->
  (total_samples self total_beats < Score.start_sample self note)%Z ->
  (Score.start_sample self note - total_samples self total_beats + 2
   <= note_samples self note)%Z ->
  Score.render_track self track total_beats g = None.
Proof.
  intros Hp Hin Hlate Hlong. rewrite render_track_unfold.
  fold (total_samples self total_beats).
  set (total := total_samples self total_beats) in *.
  unfold Np.zeros. destruct (Z.ltb_spec total 0) as [|Htot]; [done|].
  rewrite (for_each_raises_inv (fun audio => Py.len audio = total) _ _ note);
    [done| |done| |].
  - intros s x g0 s' g' Hs Hr. apply render_note_length in Hr.
    unfold Py.len in *. lia.
  - intros audio g0 Hlen.
    destruct (note_wave_pitched self track note Hp) as (wave & Hl & Hw).
    { lia. }
    { assert (0 < Score.duration note * Score.beat_duration self); [|lra].
      assert (0 < SAMPLE_RATE
                  * (Score.duration note * Score.beat_duration self)) as Hpos.
      { apply int_pos_arg. unfold note_samples in Hlong. lia. }
      unfold SAMPLE_RATE in Hpos. lra. }
    unfold Score.render_note, Rng.bind. rewrite Hw. unfold Rng.lift.
    rewrite iadd_slice_past_end; [done..|]. rewrite Hl. lia.
  - unfold Py.len. rewrite length_replicate. lia.
Qed.

Lemma note_past_end_raises_witness :
  let self := Score.mkComposer 120 (60.0 / 120) in
  let track :=
    Score.mkTrack "Synth" "synth" [Score.mkNote "C4" 5 4 0.6] false 0.8 in
  Score.render_track self track 4 (Rng.State (fun _ => 0) 0) = None.
Proof.
  intros self track.
  assert (total_samples self 4 = 88200%Z) as Htot.
  { apply int_eq; simpl; unfold SAMPLE_RATE; lra. }
  assert (Score.start_sample self (Score.mkNote "C4" 5 4 0.6) = 110250%Z)
    as Hstart.
  { apply int_eq; simpl; unfold SAMPLE_RATE; lra. }
  assert (note_samples self (Score.mkNote "C4" 5 4 0.6) = 88200%Z) as Hn.
  { apply int_eq; simpl; unfold SAMPLE_RATE; lra. }
  apply (note_past_end_raises self track 4 (Score.mkNote "C4" 5 4 0.6)).
  - by left.
  - simpl. set_solver.
  - rewrite Htot, Hstart. lia.
  - rewrite Htot, Hstart, Hn. lia.
Defined.

(** ** The mixer *)

Lemma iadd_length (a v a' : list R) :
  Np.iadd a v = Some a' -> length a' = length a.
Proof.
  unfold Np.iadd. destruct (Np.broadcast_to v (length a)) as [v'|] eqn:Hv;
    [|done].
  simpl. intros [= <-]. apply broadcast_to_length in Hv.
  rewrite length_zip_with. lia.
Qed.

Lemma mix_track_length (self : Score.MusicComposer) (total_beats : R)
    (total : Z) (mix mix' : list R) (track : Score.Track) (g g' : Rng.state) :
  Score.mix_track self total_beats total mix track g = Some (mix', g') ->
  length mix' = length mix.
Proof.
  unfold Score.mix_track. destruct (_ && _); [|by intros [= <- <-]].
  unfold Rng.bind, Rng.lift.
  destruct (Score.render_track _ _ _ _) as [[audio g1]|]; [|done].
  destruct (if (_ <? _)%Z then _ else _) as [padded|]; [|done].
  destruct (Np.iadd _ _) as [m|] eqn:Hm; [|done].
  intros [= <- <-]. by eapply iadd_length.
Qed.

Lemma mix_track_skipped (self : Score.MusicComposer) (total_beats : R)
    (total : Z) (mix : list R) (track : Score.Track) (g : Rng.state) :
  Score.muted track = true \/ Score.notes track = [] ->
  Score.mix_track self total_beats total mix track g = Some (mix, g).
Proof.
  unfold Score.mix_track. intros [->| ->]; [done|].
  rewrite bool_decide_eq_false_2 by (intros H; by apply H).
  by rewrite andb_false_r.
Qed.

(** X11: a muted track and a track without notes are left out of the mix:
    composing with such a track gives what composing without it gives, and
    the track is not rendered, so the generator is not advanced for it. *)
Theorem muted_track_not_mixed (self : Score.MusicComposer)
    (before after : list Score.Track) (track : Score.Track)
    (total_beats : R) (g : Rng.state) :
  Score.muted track = true \/ Score.notes track = [] ->
  Score.compose_from_tracks self (before ++ track :: after) total_beats g
  = Score.compose_from_tracks self (before ++ after) total_beats g.
Proof.
  intros Hskip. unfold Score.compose_from_tracks, Rng.bind at 1 3.
  destruct (Rng.lift (Np.zeros _) g) as [[silence g0]|]; [|done].
  unfold Rng.bind. rewrite !for_each_app. unfold Rng.bind.
  destruct (Rng.for_each _ before silence g0) as [[mix g1]|]; [|done].
  simpl. unfold Rng.bind. by rewrite mix_track_skipped.
Qed.

Lemma muted_track_not_mixed_witness :
  let self := Score.mkComposer 120 (60.0 / 120) in
  let drums :=
    Score.mkTrack "Drums" "drums" [Score.mkNote "Snare" 1 1 0.7] true 0.8 in
  let g := Rng.State (fun _ => 0) 0 in
  Score.compose_from_tracks self [drums] 4 g
  = Score.compose_from_tracks self [] 4 g.
Proof.
  intros self drums g.
  apply (muted_track_not_mixed self [] [] drums 4 g). by left.
Defined.

(** X12: a mix without samples cannot be composed.  When the total number
    of samples [int(44100 * total_beats * beat_seconds)] is 0 or negative,
    as it is for zero beats, [compose_from_tracks] raises whatever the tracks
    are: [np.zeros] refuses a negative length and [np.max] an empty mix. *)
Theorem empty_mix_raises (self : Score.MusicComposer)
    (tracks : list Score.Track) (total_beats : R) (g : Rng.state) :
  (total_samples self total_beats <= 0)%Z ->
  Score.compose_from_tracks self tracks total_beats g = None.
Proof.
  intros Htot. unfold Score.compose_from_tracks.
  fold (total_samples self total_beats).
  set (total := total_samples self total_beats) in *.
  unfold Rng.bind, Rng.lift at 1, Np.zeros.
  destruct (Z.ltb_spec total 0); [done|].
  assert (total = 0%Z) as -> by lia. simpl.
  destruct (Rng.for_each _ tracks [] g) as [[mix g']|] eqn:Hrun; [|done].
  apply (for_each_preserves (fun mix => mix = [])) in Hrun; [by subst|..|done].
  intros s x g0 s' g1 -> Hs. apply mix_track_length in Hs.
  by destruct s'.
Qed.

Lemma empty_mix_raises_witness :
  let self := Score.mkComposer 120 (60.0 / 120) in
  let tracks :=
    [Score.mkTrack "Drums" "drums" [Score.mkNote "Kick" 0 1 0.8] false 0.8] in
  Score.compose_from_tracks self tracks 0 (Rng.State (fun _ => 0) 0) = None.
Proof.
  intros self tracks.
  apply (empty_mix_raises self tracks 0 (Rng.State (fun _ => 0) 0)).
  assert (total_samples self 0 = 0%Z) as ->; [|lia].
  apply int_eq; simpl; unfold SAMPLE_RATE; lra.
Defined.

Lemma normalize_bounded (mix out : list R) :
  normalize mix = Some out -> length out = length mix /\ bounded_by 0.9 out.
Proof.
  intros Hn. apply normalize_spec in Hn as (peak & Hmax & Hpeak & Hpos & Hzero).
  apply max_abs_nonneg in Hmax as [_ Hall].
  destruct (Rle_lt_or_eq_dec 0 peak Hpeak) as [Hlt|Heq].
  - destruct (Hpos Hlt) as [-> _]. split; [by rewrite length_map|].
    unfold bounded_by. rewrite Forall_map.
    eapply Forall_impl; [exact Hall|]. intros x Hx%Rabs_le_elim. simpl.
    set (y := x / peak). assert (x = y * peak) as Hy by (unfold y; field; lra).
    apply Rabs_le. nra.
  - destruct (Hzero (eq_sym Heq)) as [-> Hall0]. split; [done|].
    eapply Forall_impl; [exact Hall0|]. intros x <-. rewrite Rabs_R0. lra.
Qed.

(** A sample within 0.9 is exported as an integer within 29490: the
    conversion to 16 bits never wraps around on a normalised mix. *)
Lemma export_sample (s : R) :
  Rabs s <= 0.9 -> (-29490 <= Np.astype_int16 (s * 32767) <= 29490)%Z.
Proof.
  intros Hs. unfold Np.astype_int16.
  destruct (int_bounds (s * 32767)) as [_ Hle].
  assert (Rabs (s * 32767) <= 29490.3) as Hb.
  { rewrite Rabs_mult, (Rabs_pos_eq 32767) by lra. lra. }
  assert (-29490 <= Py.int (s * 32767) <= 29490)%Z as Hint.
  { apply Rabs_le_elim in Hle.
    assert (IZR (Py.int (s * 32767)) < IZR 29491) as H1 by lra.
    assert (IZR (-29491) < IZR (Py.int (s * 32767))) as H2 by lra.
    apply lt_IZR in H1, H2. lia. }
  rewrite wrap16_small; lia.
Qed.

Lemma export_bounded (audio : list R) :
  bounded_by 0.9 audio ->
  Forall (fun q => (-29490 <= q <= 29490)%Z) (save_wav audio).
Proof.
  intros Hb. unfold save_wav. rewrite Forall_map.
  eapply Forall_impl; [exact Hb|]. intros s Hs. by apply export_sample.
Qed.

Lemma pad_to_length_spec (arr : list R) (n : Z) :
  (0 <= n)%Z ->
  exists out,
    Electric.pad_to_length arr n = Some out
    /\ out = take (Z.to_nat n) arr
             ++ replicate (Z.to_nat n - length arr) 0
    /\ Py.len out = n.
Proof.
  intros Hn. unfold Electric.pad_to_length, Np.pad_right.
  destruct (Z.ltb_spec (Py.len arr) n) as [Hlt|Hge].
  - destruct (Z.ltb_spec (n - Py.len arr) 0); [lia|].
    eexists. split; [reflexivity|]. unfold Py.len in *. split.
    + rewrite take_ge by lia. f_equal. f_equal. lia.
    + rewrite length_app, length_replicate. lia.
  - unfold Py.slice, Py.bounds, Py.slice_index. simpl.
    destruct (Z.ltb_spec n 0); [lia|].
    eexists. split; [reflexivity|]. unfold Py.len in *. split.
    + replace (Z.to_nat n - length arr)%nat with 0%nat by lia.
      rewrite app_nil_r. change (Z.to_nat 0) with 0%nat. rewrite drop_0.
      f_equal. lia.
    + rewrite length_take, length_drop. lia.
Qed.

Lemma add_same_length (a b : list R) :
  length a = length b ->
  Np.add a b = Some (zip_with Rplus a b)
  /\ length (zip_with Rplus a b) = length a.
Proof.
  intros Hl. unfold Np.add, Np.binop. rewrite decide_True by done.
  split; [done|]. rewrite length_zip_with. lia.
Qed.

Lemma add_length (a b c : list R) :
  Np.add a b = Some c -> length a = length b -> length c = length a.
Proof.
  intros Hc Hl. destruct (add_same_length a b Hl) as [Heq Hlen].
  rewrite Heq in Hc. by injection Hc as <-.
Qed.

Lemma compose_mix_unfold (drums bassline chords melody : list R) (total : Z)
    (d b c m : list R) :
  Electric.pad_to_length drums total = Some d ->
  Electric.pad_to_length bassline total = Some b ->
  Electric.pad_to_length chords total = Some c ->
  Electric.pad_to_length melody total = Some m ->
  length d = Z.to_nat total -> length b = Z.to_nat total ->
  length c = Z.to_nat total -> length m = Z.to_nat total ->
  exists mix,
    length mix = Z.to_nat total
    /\ Electric.compose_mix drums bassline chords melody total = normalize mix.
Proof.
  intros Hd Hb Hc Hm Hld Hlb Hlc Hlm. unfold Electric.compose_mix.
  rewrite Hd, Hb, Hc, Hm. simpl.
  destruct (add_same_length (map (fun x => x * 0.35) d)
                            (map (fun x => x * 0.25) b)) as [-> Hl1].
  { rewrite !length_map. lia. }
  simpl. rewrite length_map in Hl1.
  destruct (add_same_length
              (zip_with Rplus (map (fun x => x * 0.35) d)
                        (map (fun x => x * 0.25) b))
              (map (fun x => x * 0.25) c)) as [-> Hl2].
  { rewrite length_map. lia. }
  simpl.
  destruct (add_same_length
              (zip_with Rplus
                 (zip_with Rplus (map (fun x => x * 0.35) d)
                           (map (fun x => x * 0.25) b))
                 (map (fun x => x * 0.25) c))
              (map (fun x => x * 0.15) m)) as [-> Hl3].
  { rewrite length_map. lia. }
  simpl. eexists. split; [|reflexivity]. lia.
Qed.

(** X13: a composed mix never overflows the 16-bit export.  Whatever the
    three normalisation lines return has every sample within 0.9, and
    [save_wav] turns it into integers within 29490 in absolute value, so the
    conversion to [int16] does not wrap around; this holds for what
    [compose_from_tracks] returns, which has the full length, and for what
    [compose] returns. *)
Theorem composed_mix_fits_int16 :
  (forall mix out,
     normalize mix = Some out ->
     length out = length mix
     /\ bounded_by 0.9 out
     /\ Forall (fun q => (-29490 <= q <= 29490)%Z) (save_wav out))
  /\ (forall self tracks total_beats g out g',
        Score.compose_from_tracks self tracks total_beats g = Some (out, g') ->
        Py.len out = total_samples self total_beats
        /\ bounded_by 0.9 out
        /\ Forall (fun q => (-29490 <= q <= 29490)%Z) (save_wav out))
  /\ (forall drums bassline chords melody total out,
        Electric.compose_mix drums bassline chords melody total = Some out ->
        bounded_by 0.9 out
        /\ Forall (fun q => (-29490 <= q <= 29490)%Z) (save_wav out)).
Proof.
  assert (forall mix out,
    normalize mix = Some out ->
    length out = length mix
    /\ bounded_by 0.9 out
    /\ Forall (fun q => (-29490 <= q <= 29490)%Z) (save_wav out)) as Hnorm.
  { intros mix out Hn. destruct (normalize_bounded mix out Hn) as [Hl Hb].
    split_and!; [done..|]. by apply export_bounded. }
  split_and!; [exact Hnorm|..].
  - intros self tracks total_beats g out g'.
    unfold Score.compose_from_tracks.
    fold (total_samples self total_beats).
    set (total := total_samples self total_beats).
    unfold Rng.bind, Rng.lift at 1, Np.zeros.
    destruct (Z.ltb_spec total 0) as [|Htot]; [done|].
    destruct (Rng.for_each _ tracks _ g) as [[mix g1]|] eqn:Hrun; [|done].
    apply (for_each_preserves (fun mix => Py.len mix = total)) in Hrun.
    + unfold Rng.lift. destruct (normalize mix) as [o|] eqn:Hn; [|done].
      intros [= -> <-]. destruct (Hnorm mix out Hn) as (Hl & Hb & He).
      split_and!; [|done..]. unfold Py.len in *. lia.
    + intros s x g0 s' g2 Hs Hm. apply mix_track_length in Hm.
      unfold Py.len in *. lia.
    + unfold Py.len. rewrite length_replicate. lia.
  - intros drums bassline chords melody total out.
    unfold Electric.compose_mix.
    destruct (Electric.pad_to_length drums total); [simpl|done].
    destruct (Electric.pad_to_length bassline total); [simpl|done].
    destruct (Electric.pad_to_length chords total); [simpl|done].
    destruct (Electric.pad_to_length melody total); [simpl|done].
    destruct (Np.add _ _); [simpl|done].
    destruct (Np.add _ _); [simpl|done].
    destruct (Np.add _ _) as [mix|]; [simpl|done].
    intros Hn. by destruct (Hnorm mix out Hn) as (_ & Hb & He).
Qed.

Lemma composed_mix_fits_int16_witness :
  exists out,
    normalize [1 / 2; -1] = Some out
    /\ bounded_by 0.9 out
    /\ Forall (fun q => (-29490 <= q <= 29490)%Z) (save_wav out).
Proof.
  destruct (normalize_total [1 / 2; -1]) as [out Hout]; [done|].
  exists out. split; [exact Hout|].
  destruct composed_mix_fits_int16 as (Hnorm & _ & _).
  by destruct (Hnorm _ _ Hout) as (_ & Hb & He).
Defined.

(** X14: the mixing stage of [compose].  [pad_to_length] cuts a track or
    pads it with zeros to exactly [length] samples; for a total of at least
    one sample the four tracks are mixed into a buffer of that many samples,
    each within 0.9, whatever the lengths of the tracks; for a total of zero
    samples the mix is empty and [np.max] raises. *)
Theorem compose_mix_returns (drums bassline chords melody : list R)
    (total : Z) :
  (0 <= total)%Z ->
  (forall arr,
     Electric.pad_to_length arr total
     = Some (take (Z.to_nat total) arr
               ++ replicate (Z.to_nat total - length arr) 0))
  /\ (total = 0%Z ->
      Electric.compose_mix drums bassline chords melody total = None)
  /\ ((1 <= total)%Z ->
      exists out,
        Electric.compose_mix drums bassline chords melody total = Some out
        /\ Py.len out = total /\ bounded_by 0.9 out).
Proof.
  intros Htot.
  assert (forall arr,
    Electric.pad_to_length arr total
    = Some (take (Z.to_nat total) arr
              ++ replicate (Z.to_nat total - length arr) 0)) as Hpad.
  { intros arr. by destruct (pad_to_length_spec arr total Htot)
      as (out & -> & -> & _). }
  split; [exact Hpad|].
  destruct (pad_to_length_spec drums total Htot) as (d & Hd & _ & Hld).
  destruct (pad_to_length_spec bassline total Htot) as (b & Hb & _ & Hlb).
  destruct (pad_to_length_spec chords total Htot) as (c & Hc & _ & Hlc).
  destruct (pad_to_length_spec melody total Htot) as (m & Hm & _ & Hlm).
  destruct (compose_mix_unfold drums bassline chords melody total d b c m)
    as (mix & Hlmix & ->);
    [done|done|done|done|unfold Py.len in *; lia..|].
  split.
  - intros ->. by destruct mix.
  - intros Hpos. destruct (normalize_total mix) as [out Hout].
    { destruct mix; [simpl in Hlmix; lia|done]. }
    exists out. split; [done|].
    destruct (normalize_bounded mix out Hout) as [Hl Hb'].
    split; [|done]. unfold Py.len. lia.
Qed.

Lemma compose_mix_returns_witness :
  exists out,
    Electric.compose_mix [1] [] [1; 1; 1] [0; 1] 2 = Some out
    /\ Py.len out = 2%Z /\ bounded_by 0.9 out.
Proof.
  apply (compose_mix_returns [1] [] [1; 1; 1] [0; 1] 2); lia.
Defined.

Lemma render_track_renderable (self : Score.MusicComposer)
    (track : Score.Track) (total_beats : R) (g : Rng.state) :
  (0 <= total_samples self total_beats)%Z ->
  renderable self total_beats track ->
  exists audio g',
    Score.render_track self track total_beats g = Some (audio, g')
    /\ Py.len audio = total_samples self total_beats.
Proof.
  intros Htot Hnotes. rewrite render_track_unfold.
  fold (total_samples self total_beats).
  set (total := total_samples self total_beats) in *.
  unfold Np.zeros. destruct (Z.ltb_spec total 0); [lia|].
  destruct (for_each_invariant (fun audio => Py.len audio = total)
              (fun note =>
                 (0 <= Score.start_sample self note <= total)%Z
                 /\ (pitched track ->
                     0 <= Score.duration note * Score.beat_duration self))
              (Score.render_note self track total) (Score.notes track)
              (replicate (Z.to_nat total) 0) g)
    as (audio & g' & Hrun & Hlen); [|done| |].
  - intros s x g0 Hs [Hx1 Hx2]. by apply render_note_returns.
  - unfold Py.len. rewrite length_replicate. lia.
  - rewrite Hrun. eexists _, _. split; [reflexivity|].
    unfold Py.len in *. by rewrite length_map.
Qed.

Lemma slice_whole (a : list R) : Py.slice a None (Some (Py.len a)) = a.
Proof.
  unfold Py.slice, Py.bounds, Py.slice_index. simpl.
  destruct (Z.ltb_spec (Py.len a) 0) as [Hneg|_].
  { unfold Py.len in Hneg. lia. }
  rewrite drop_0, take_ge; [done|]. unfold Py.len. lia.
Qed.

Lemma mix_track_returns (self : Score.MusicComposer) (total_beats : R)
    (mix : list R) (track : Score.Track) (g : Rng.state) :
  Py.len mix = total_samples self total_beats ->
  renderable self total_beats track ->
  exists mix' g',
    Score.mix_track self total_beats (total_samples self total_beats)
                    mix track g = Some (mix', g')
    /\ Py.len mix' = total_samples self total_beats.
Proof.
  intros Hmix Htrack.
  set (total := total_samples self total_beats) in *.
  assert (0 <= total)%Z as Htot by (unfold Py.len in Hmix; lia).
  assert (exists mix' g',
    Score.mix_track self total_beats total mix track g = Some (mix', g'))
    as (mix' & g' & Hrun).
  { unfold Score.mix_track. destruct (_ && _); [|by eexists _, _].
    destruct (render_track_renderable self track total_beats g Htot Htrack)
      as (audio & g' & Hr & Hl).
    unfold Rng.bind. rewrite Hr. fold total in Hl. unfold Rng.lift at 1.
    destruct (Z.ltb_spec (Py.len audio) total); [lia|].
    rewrite <- Hl, slice_whole. unfold Rng.lift, Np.iadd.
    assert (length audio = length mix) as Heq by (unfold Py.len in *; lia).
    rewrite <- Heq, broadcast_to_same. simpl. by eexists _, _. }
  exists mix', g'. split; [done|]. apply mix_track_length in Hrun.
  unfold Py.len in *. lia.
Qed.

Lemma compose_from_tracks_total (self : Score.MusicComposer)
    (tracks : list Score.Track) (total_beats : R) (g : Rng.state) :
  (1 <= total_samples self total_beats)%Z ->
  Forall (renderable self total_beats) tracks ->
  exists out g',
    Score.compose_from_tracks self tracks total_beats g = Some (out, g')
    /\ Py.len out = total_samples self total_beats
    /\ bounded_by 0.9 out.
Proof.
  intros Htot Htracks. unfold Score.compose_from_tracks.
  fold (total_samples self total_beats).
  set (total := total_samples self total_beats) in *.
  unfold Rng.bind, Rng.lift at 1, Np.zeros.
  destruct (Z.ltb_spec total 0); [lia|].
  destruct (for_each_invariant (fun mix => Py.len mix = total)
              (renderable self total_beats)
              (Score.mix_track self total_beats total) tracks
              (replicate (Z.to_nat total) 0) g)
    as (mix & g' & Hrun & Hlen); [|done| |].
  - intros s x g0 Hs Hx. by apply mix_track_returns.
  - unfold Py.len. rewrite length_replicate. lia.
  - rewrite Hrun. destruct (normalize_total mix) as [out Hout].
    { destruct mix; [unfold Py.len in Hlen; simpl in Hlen; lia|done]. }
    unfold Rng.lift. rewrite Hout. exists out, g'. split; [done|].
    destruct (normalize_bounded mix out Hout) as [Hl Hb].
    split; [|done]. unfold Py.len in *. lia.
Qed.

(** X15: [compose_from_tracks] returns for every set of renderable tracks.
    When the buffer has at least one sample and every track has its notes
    starting inside the buffer, without negative durations on the synth,
    guitar and bass tracks, the composition returns a mix of the full length
    whose samples lie within 0.9, whatever the generator delivers. *)
Theorem compose_from_tracks_returns (self : Score.MusicComposer)
    (tracks : list Score.Track) (total_beats : R) (g : Rng.state) :
  (1 <= total_samples self total_beats)%Z ->
  Forall (renderable self total_beats) tracks ->
  exists out g',
    Score.compose_from_tracks self tracks total_beats g = Some (out, g')
    /\ Py.len out = total_samples self total_beats
    /\ bounded_by 0.9 out.
Proof. apply compose_from_tracks_total. Qed.

Lemma compose_from_tracks_returns_witness :
  let self := Score.mkComposer 120 (60.0 / 120) in
  let drums :=
    Score.mkTrack "Drums" "drums" [Score.mkNote "Kick" 0 1 0.8] false 0.8 in
  exists out g',
    Score.compose_from_tracks self [drums] 4 (Rng.State (fun _ => 0) 0)
    = Some (out, g')
    /\ Py.len out = total_samples self 4
    /\ bounded_by 0.9 out.
Proof.
  intros self drums.
  assert (total_samples self 4 = 88200%Z) as Htot.
  { apply int_eq; simpl; unfold SAMPLE_RATE; lra. }
  assert (Score.start_sample self (Score.mkNote "Kick" 0 1 0.8) = 0%Z) as H0.
  { apply int_eq; simpl; unfold SAMPLE_RATE; lra. }
  apply (compose_from_tracks_returns self [drums] 4).
  - rewrite Htot. lia.
  - apply Forall_cons. split; [|constructor].
    unfold renderable. simpl. apply Forall_cons. split; [|constructor].
    rewrite Htot, H0. split; [lia|]. intros _. simpl. lra.
Defined.

(** ** The notes of a track *)

Lemma sounds_at_spec (p : string) (beat : R) (note : Score.Note) :
  Score.sounds_at p beat note = true
  <-> Score.pitch note = p
      /\ Score.start_beat note <= beat
         < Score.start_beat note + Score.duration note.
Proof.
  unfold Score.sounds_at. rewrite !andb_true_iff, bool_decide_eq_true.
  destruct (Rle_dec _ _), (Rlt_dec _ _); intuition (try lra; done).
Qed.

Lemma find_app {A} (f : A -> bool) (l1 l2 : list A) :
  List.find f (l1 ++ l2) = match List.find f l1 with
                           | Some x => Some x
                           | None => List.find f l2
                           end.
Proof.
  induction l1 as [|x l1 IH]; [done|]. simpl. by destruct (f x).
Qed.

(** X16: a note that was added is found where it sounds, unless an older
    note of the same pitch sounds there too.  After [add_note(note)],
    [get_note_at(note.pitch, beat)] on a beat inside the note returns the
    note the track had there before, and [note] itself when it had none;
    after [clear()] it returns [None]. *)
Theorem added_note_is_found (track : Score.Track) (note : Score.Note)
    (beat : R) :
  Score.start_beat note <= beat
  < Score.start_beat note + Score.duration note ->
  Score.get_note_at (Score.add_note track note) (Score.pitch note) beat
  = Some (default note (Score.get_note_at track (Score.pitch note) beat))
  /\ Score.get_note_at (Score.clear (Score.add_note track note))
                       (Score.pitch note) beat = None.
Proof.
  intros Hbeat. split; [|done].
  unfold Score.get_note_at, Score.add_note. simpl. rewrite find_app.
  destruct (List.find _ (Score.notes track)); [done|]. simpl.
  by rewrite (proj2 (sounds_at_spec _ _ _)).
Qed.

Lemma added_note_is_found_witness :
  let track := Score.mkTrack "Synthesizer" "synth" [] false 0.8 in
  let note := Score.mkNote "C4" 4 2 0.8 in
  Score.get_note_at (Score.add_note track note) "C4" 5 = Some note.
Proof.
  intros track note.
  apply (added_note_is_found track note 5). simpl. lra.
Defined.

(** X17: [get_note_at] returns the first note of the track that has the
    pitch and sounds on the beat: no note before it in the track does, and
    its duration is positive, so that a note of zero or negative duration is
    never found; it returns [None] exactly when no note of the track has
    the pitch and sounds on the beat. *)
Theorem get_note_at_first_sounding (track : Score.Track) (p : string)
    (beat : R) :
  let sounding note :=
    Score.pitch note = p
    /\ Score.start_beat note <= beat
       < Score.start_beat note + Score.duration note in
  match Score.get_note_at track p beat with
  | Some note =>
      exists before after,
        Score.notes track = before ++ note :: after
        /\ Forall (fun n => ~ sounding n) before
        /\ sounding note /\ 0 < Score.duration note
  | None => Forall (fun n => ~ sounding n) (Score.notes track)
  end.
Proof.
  intros sounding. unfold Score.get_note_at.
  induction (Score.notes track) as [|n notes IH]; [constructor|]. simpl.
  destruct (Score.sounds_at p beat n) eqn:Hn.
  - apply sounds_at_spec in Hn. exists [], notes.
    split_and!; [done|constructor|done|]. destruct Hn as [_ Hn]. lra.
  - assert (~ sounding n) as Hnot.
    { intros Hs. apply sounds_at_spec in Hs. congruence. }
    destruct (List.find _ notes) as [note|].
    + destruct IH as (before & after & -> & Hb & Hs & Hd).
      exists (n :: before), after. split_and!; [done| |done..].
      by constructor.
    + by constructor.
Qed.

(** ** Chord tones of the automatic accompaniment *)

Lemma table_entry (i : nat) (name : string) (octave : Z) (p : string) :
  Score.NOTE_NAMES !! i = Some name -> (2 <= octave <= 6)%Z ->
  p = name +:+ Py.str octave ->
  frequency_of p = Score.note_frequency octave (Z.of_nat i)
  /\ is_Some (Score.NOTE_FREQUENCIES !! p).
Proof.
  intros Hname Hoct ->. unfold frequency_of, Score.get_frequency.
  cbn [Score.pitch].
  rewrite (score_table_lookup i name octave Hname Hoct). by split.
Qed.

Lemma note_frequency_shift (octave octave' i j : Z) :
  Score.note_frequency octave' j
  = Score.note_frequency octave i
    * Rpower 2 (IZR ((octave' - octave) * 12 + (j - i)) / 12).
Proof.
  unfold Score.note_frequency. rewrite Rmult_assoc, <- Rpower_plus.
  f_equal. f_equal.
  match goal with
  | |- IZR ?a / 12 = IZR ?b / 12 + IZR ?c / 12 =>
      replace a with (b + c)%Z by lia
  end.
  rewrite plus_IZR. lra.
Qed.

Lemma chord_tone_frequency (i j : nat) (name name' : string)
    (octave octave' k : Z) (root tone : string) :
  Score.NOTE_NAMES !! i = Some name -> Score.NOTE_NAMES !! j = Some name' ->
  (2 <= octave <= 6)%Z -> (2 <= octave' <= 6)%Z ->
  root = name +:+ Py.str octave -> tone = name' +:+ Py.str octave' ->
  k = ((octave' - octave) * 12 + (Z.of_nat j - Z.of_nat i))%Z ->
  frequency_of tone = frequency_of root * Rpower 2 (IZR k / 12)
  /\ is_Some (Score.NOTE_FREQUENCIES !! tone).
Proof.
  intros Hi Hj Ho Ho' Hroot Htone ->.
  destruct (table_entry i name octave root Hi Ho Hroot) as [-> _].
  destruct (table_entry j name' octave' tone Hj Ho' Htone) as [-> Hin].
  split; [apply note_frequency_shift|done].
Qed.

Ltac chord_tone i j name name' o o' :=
  apply (chord_tone_frequency i j name name' o o');
  [reflexivity|reflexivity|lia|lia|reflexivity|reflexivity|reflexivity].

(** X18: the third and the fifth that the chord helper puts above a root.
    For a natural root name in octaves 2 to 5, [get_third] returns a pitch of
    the generated table 4 semitones above the root for C, F and G and 3
    semitones above it for D, E, A and B, and [get_fifth] returns a pitch of
    the table 7 semitones above the root, except for B, where it is 6
    semitones above it. *)
Theorem chord_tones_intervals (name : string) (octave : Z) :
  name ∈ natural_names -> (2 <= octave <= 5)%Z ->
  let root := name +:+ Py.str octave in
  exists third fifth,
    Score.MusicComposerApp.get_third root = Some (Some third)
    /\ Score.MusicComposerApp.get_fifth root = Some (Some fifth)
    /\ frequency_of third
       = frequency_of root * Rpower 2 (IZR (third_semitones name) / 12)
    /\ frequency_of fifth
       = frequency_of root * Rpower 2 (IZR (fifth_semitones name) / 12)
    /\ is_Some (Score.NOTE_FREQUENCIES !! third)
    /\ is_Some (Score.NOTE_FREQUENCIES !! fifth).
Proof.
  intros Hname Hoct root. unfold root, natural_names in *.
  assert (octave = 2 \/ octave = 3 \/ octave = 4 \/ octave = 5)%Z
    as Ho by lia.
  assert (forall third fifth : string,
    (frequency_of third
     = frequency_of (name +:+ Py.str octave)
       * Rpower 2 (IZR (third_semitones name) / 12)
     /\ is_Some (Score.NOTE_FREQUENCIES !! third)) ->
    (frequency_of fifth
     = frequency_of (name +:+ Py.str octave)
       * Rpower 2 (IZR (fifth_semitones name) / 12)
     /\ is_Some (Score.NOTE_FREQUENCIES !! fifth)) ->
    Score.MusicComposerApp.get_third (name +:+ Py.str octave)
    = Some (Some third) ->
    Score.MusicComposerApp.get_fifth (name +:+ Py.str octave)
    = Some (Some fifth) ->
    exists third fifth,
      Score.MusicComposerApp.get_third (name +:+ Py.str octave)
      = Some (Some third)
      /\ Score.MusicComposerApp.get_fifth (name +:+ Py.str octave)
         = Some (Some fifth)
      /\ frequency_of third
         = frequency_of (name +:+ Py.str octave)
           * Rpower 2 (IZR (third_semitones name) / 12)
      /\ frequency_of fifth
         = frequency_of (name +:+ Py.str octave)
           * Rpower 2 (IZR (fifth_semitones name) / 12)
      /\ is_Some (Score.NOTE_FREQUENCIES !! third)
      /\ is_Some (Score.NOTE_FREQUENCIES !! fifth)) as Hpack.
  { intros third fifth [H3 H3'] [H5 H5'] Ht Hf. by exists third, fifth. }
  repeat (apply elem_of_cons in Hname as [->|Hname]);
    [..|by apply elem_of_nil in Hname].
  - destruct Ho as [->|[->|[->| ->]]].
    + apply (Hpack "E2" "G2"); [chord_tone 0%nat 4%nat "C" "E" 2%Z 2%Z
        |chord_tone 0%nat 7%nat "C" "G" 2%Z 2%Z|reflexivity..].
    + apply (Hpack "E3" "G3"); [chord_tone 0%nat 4%nat "C" "E" 3%Z 3%Z
        |chord_tone 0%nat 7%nat "C" "G" 3%Z 3%Z|reflexivity..].
    + apply (Hpack "E4" "G4"); [chord_tone 0%nat 4%nat "C" "E" 4%Z 4%Z
        |chord_tone 0%nat 7%nat "C" "G" 4%Z 4%Z|reflexivity..].
    + apply (Hpack "E5" "G5"); [chord_tone 0%nat 4%nat "C" "E" 5%Z 5%Z
        |chord_tone 0%nat 7%nat "C" "G" 5%Z 5%Z|reflexivity..].
  - destruct Ho as [->|[->|[->| ->]]].
    + apply (Hpack "F2" "A2"); [chord_tone 2%nat 5%nat "D" "F" 2%Z 2%Z
        |chord_tone 2%nat 9%nat "D" "A" 2%Z 2%Z|reflexivity..].
    + apply (Hpack "F3" "A3"); [chord_tone 2%nat 5%nat "D" "F" 3%Z 3%Z
        |chord_tone 2%nat 9%nat "D" "A" 3%Z 3%Z|reflexivity..].
    + apply (Hpack "F4" "A4"); [chord_tone 2%nat 5%nat "D" "F" 4%Z 4%Z
        |chord_tone 2%nat 9%nat "D" "A" 4%Z 4%Z|reflexivity..].
    + apply (Hpack "F5" "A5"); [chord_tone 2%nat 5%nat "D" "F" 5%Z 5%Z
        |chord_tone 2%nat 9%nat "D" "A" 5%Z 5%Z|reflexivity..].
  - destruct Ho as [->|[->|[->| ->]]].
    + apply (Hpack "G2" "B2"); [chord_tone 4%nat 7%nat "E" "G" 2%Z 2%Z
        |chord_tone 4%nat 11%nat "E" "B" 2%Z 2%Z|reflexivity..].
    + apply (Hpack "G3" "B3"); [chord_tone 4%nat 7%nat "E" "G" 3%Z 3%Z
        |chord_tone 4%nat 11%nat "E" "B" 3%Z 3%Z|reflexivity..].
    + apply (Hpack "G4" "B4"); [chord_tone 4%nat 7%nat "E" "G" 4%Z 4%Z
        |chord_tone 4%nat 11%nat "E" "B" 4%Z 4%Z|reflexivity..].
    + apply (Hpack "G5" "B5"); [chord_tone 4%nat 7%nat "E" "G" 5%Z 5%Z
        |chord_tone 4%nat 11%nat "E" "B" 5%Z 5%Z|reflexivity..].
  - destruct Ho as [->|[->|[->| ->]]].
    + apply (Hpack "A2" "C3"); [chord_tone 5%nat 9%nat "F" "A" 2%Z 2%Z
        |chord_tone 5%nat 0%nat "F" "C" 2%Z 3%Z|reflexivity..].
    + apply (Hpack "A3" "C4"); [chord_tone 5%nat 9%nat "F" "A" 3%Z 3%Z
        |chord_tone 5%nat 0%nat "F" "C" 3%Z 4%Z|reflexivity..].
    + apply (Hpack "A4" "C5"); [chord_tone 5%nat 9%nat "F" "A" 4%Z 4%Z
        |chord_tone 5%nat 0%nat "F" "C" 4%Z 5%Z|reflexivity..].
    + apply (Hpack "A5" "C6"); [chord_tone 5%nat 9%nat "F" "A" 5%Z 5%Z
        |chord_tone 5%nat 0%nat "F" "C" 5%Z 6%Z|reflexivity..].
  - destruct Ho as [->|[->|[->| ->]]].
    + apply (Hpack "B2" "D3"); [chord_tone 7%nat 11%nat "G" "B" 2%Z 2%Z
        |chord_tone 7%nat 2%nat "G" "D" 2%Z 3%Z|reflexivity..].
    + apply (Hpack "B3" "D4"); [chord_tone 7%nat 11%nat "G" "B" 3%Z 3%Z
        |chord_tone 7%nat 2%nat "G" "D" 3%Z 4%Z|reflexivity..].
    + apply (Hpack "B4" "D5"); [chord_tone 7%nat 11%nat "G" "B" 4%Z 4%Z
        |chord_tone 7%nat 2%nat "G" "D" 4%Z 5%Z|reflexivity..].
    + apply (Hpack "B5" "D6"); [chord_tone 7%nat 11%nat "G" "B" 5%Z 5%Z
        |chord_tone 7%nat 2%nat "G" "D" 5%Z 6%Z|reflexivity..].
  - destruct Ho as [->|[->|[->| ->]]].
    + apply (Hpack "C3" "E3"); [chord_tone 9%nat 0%nat "A" "C" 2%Z 3%Z
        |chord_tone 9%nat 4%nat "A" "E" 2%Z 3%Z|reflexivity..].
    + apply (Hpack "C4" "E4"); [chord_tone 9%nat 0%nat "A" "C" 3%Z 4%Z
        |chord_tone 9%nat 4%nat "A" "E" 3%Z 4%Z|reflexivity..].
    + apply (Hpack "C5" "E5"); [chord_tone 9%nat 0%nat "A" "C" 4%Z 5%Z
        |chord_tone 9%nat 4%nat "A" "E" 4%Z 5%Z|reflexivity..].
    + apply (Hpack "C6" "E6"); [chord_tone 9%nat 0%nat "A" "C" 5%Z 6%Z
        |chord_tone 9%nat 4%nat "A" "E" 5%Z 6%Z|reflexivity..].
  - destruct Ho as [->|[->|[->| ->]]].
    + apply (Hpack "D3" "F3"); [chord_tone 11%nat 2%nat "B" "D" 2%Z 3%Z
        |chord_tone 11%nat 5%nat "B" "F" 2%Z 3%Z|reflexivity..].
    + apply (Hpack "D4" "F4"); [chord_tone 11%nat 2%nat "B" "D" 3%Z 4%Z
        |chord_tone 11%nat 5%nat "B" "F" 3%Z 4%Z|reflexivity..].
    + apply (Hpack "D5" "F5"); [chord_tone 11%nat 2%nat "B" "D" 4%Z 5%Z
        |chord_tone 11%nat 5%nat "B" "F" 4%Z 5%Z|reflexivity..].
    + apply (Hpack "D6" "F6"); [chord_tone 11%nat 2%nat "B" "D" 5%Z 6%Z
        |chord_tone 11%nat 5%nat "B" "F" 5%Z 6%Z|reflexivity..].
Qed.

Lemma chord_tones_intervals_witness :
  exists third fifth,
    Score.MusicComposerApp.get_third "B4" = Some (Some third)
    /\ Score.MusicComposerApp.get_fifth "B4" = Some (Some fifth)
    /\ frequency_of third = frequency_of "B4" * Rpower 2 (IZR 3 / 12)
    /\ frequency_of fifth = frequency_of "B4" * Rpower 2 (IZR 6 / 12)
    /\ is_Some (Score.NOTE_FREQUENCIES !! third)
    /\ is_Some (Score.NOTE_FREQUENCIES !! fifth).
Proof.
  apply (chord_tones_intervals "B" 4); [|lia].
  unfold natural_names. rewrite !elem_of_cons. tauto.
Defined.

(** ** The automatic accompaniment *)

Lemma range_bounds (a b : Z) :
  Forall (fun x => (a <= x < b)%Z) (Py.range a b).
Proof.
  unfold Py.range. rewrite Forall_map. apply Forall_forall.
  intros k Hk%elem_of_seq. simpl. lia.
Qed.

Lemma mapM_concat_Forall {A B} (f : A -> option (list B)) (P : B -> Prop)
    (Q : A -> Prop) (l : list A) :
  (forall x, Q x -> exists ys, f x = Some ys /\ Forall P ys) ->
  Forall Q l ->
  exists yss, mapM f l = Some yss /\ Forall P (concat yss).
Proof.
  intros Hf. induction 1 as [|x l Hx _ (yss & Hyss & Hall)].
  - by exists [].
  - destruct (Hf x Hx) as (ys & Hys & Hpys). exists (ys :: yss). simpl.
    rewrite Hys. simpl. rewrite Hyss. simpl. split; [done|].
    by apply Forall_app.
Qed.

Lemma well_placed_intro (total_beats b d : Z) (p : string) (v : R) :
  (0 <= b)%Z -> (b + d <= total_beats)%Z -> (0 < d)%Z -> 0 < v <= 1 ->
  well_placed total_beats (Score.mkNote p (IZR b) (IZR d) v).
Proof.
  intros Hb Hend Hd Hv. unfold well_placed. simpl.
  rewrite <- plus_IZR. split_and!; try lra.
  - by apply IZR_le.
  - by apply IZR_le.
  - by apply IZR_lt.
Qed.

Lemma progression_of_style (style : string) :
  exists electronic,
    Score.PROGRESSIONS !! "electronic" = Some electronic
    /\ Py.len (default electronic (Score.PROGRESSIONS !! style)) = 4%Z
    /\ Forall (fun root => root ∈ progression_roots)
              (default electronic (Score.PROGRESSIONS !! style)).
Proof.
  exists ["C4"; "G4"; "A4"; "F4"]. split; [reflexivity|].
  assert (forall l : list string,
    l ∈ [ ["C4"; "G4"; "A4"; "F4"]; ["E4"; "A4"; "B4"; "E4"];
          ["C4"; "A4"; "D4"; "G4"]; ["C4"; "E4"; "F4"; "G4"];
          ["G4"; "D4"; "E4"; "C4"]; ["A4"; "D4"; "E4"; "A4"] ] ->
    Py.len l = 4%Z /\ Forall (fun root => root ∈ progression_roots) l)
    as Hall.
  { intros l Hl. unfold progression_roots.
    repeat (apply elem_of_cons in Hl as [->|Hl]);
      [..|by apply elem_of_nil in Hl];
      (split; [reflexivity|]);
      repeat (apply Forall_cons; split; [rewrite !elem_of_cons; tauto|]);
      constructor. }
  destruct (Score.PROGRESSIONS !! style) as [l|] eqn:Hl; simpl.
  - apply Hall. apply elem_of_list_to_map_2 in Hl.
    repeat (apply elem_of_cons in Hl as [Hl|Hl]; [injection Hl as -> ->|]);
      [..|by apply elem_of_nil in Hl]; rewrite !elem_of_cons; tauto.
  - apply Hall. rewrite !elem_of_cons. tauto.
Qed.

Lemma progression_getitem (progression : list string) (bar : Z) :
  Py.len progression = 4%Z -> (0 <= bar)%Z ->
  Forall (fun root => root ∈ progression_roots) progression ->
  exists root,
    (Py.mod_ bar (Py.len progression) ≫= Py.getitem progression) = Some root
    /\ root ∈ progression_roots.
Proof.
  intros Hlen Hbar Hroots. rewrite Hlen. unfold Py.mod_. simpl.
  unfold Py.getitem.
  assert (0 <= bar mod 4 < 4)%Z as Hmod by (apply Z.mod_pos_bound; lia).
  destruct (Z.ltb_spec (bar mod 4) 0); [lia|].
  destruct (lookup_lt_is_Some_2 progression (Z.to_nat (bar mod 4)))
    as [root Hroot].
  { unfold Py.len in Hlen. lia. }
  exists root. split; [done|].
  by apply (Forall_lookup_1 _ _ _ _ Hroots Hroot).
Qed.

Lemma root_in_table (root : string) :
  root ∈ progression_roots ->
  is_Some (Score.NOTE_FREQUENCIES !! root)
  /\ is_Some (Score.NOTE_FREQUENCIES
                !! Py.replace "5" "4" (Py.replace "4" "3" root))
  /\ exists third fifth,
       Score.MusicComposerApp.get_third root = Some (Some third)
       /\ Score.MusicComposerApp.get_fifth root = Some (Some fifth)
       /\ third <> "" /\ fifth <> ""
       /\ is_Some (Score.NOTE_FREQUENCIES !! third)
       /\ is_Some (Score.NOTE_FREQUENCIES !! fifth).
Proof.
  assert (forall (i : nat) (name : string) (octave : Z) (p : string),
    Score.NOTE_NAMES !! i = Some name -> (2 <= octave <= 6)%Z ->
    p = name +:+ Py.str octave ->
    is_Some (Score.NOTE_FREQUENCIES !! p)) as Hin.
  { intros i name octave p Hi Ho Hp.
    by destruct (table_entry i name octave p Hi Ho Hp). }
  unfold progression_roots. intros Hroot.
  repeat (apply elem_of_cons in Hroot as [->|Hroot]);
    [..|by apply elem_of_nil in Hroot].
  - split_and!; [by apply (Hin 0%nat "C" 4%Z)|by apply (Hin 0%nat "C" 3%Z)|].
    exists "E4", "G4". split_and!; [reflexivity|reflexivity|done|done|..].
    + by apply (Hin 4%nat "E" 4%Z).
    + by apply (Hin 7%nat "G" 4%Z).
  - split_and!; [by apply (Hin 2%nat "D" 4%Z)|by apply (Hin 2%nat "D" 3%Z)|].
    exists "F4", "A4". split_and!; [reflexivity|reflexivity|done|done|..].
    + by apply (Hin 5%nat "F" 4%Z).
    + by apply (Hin 9%nat "A" 4%Z).
  - split_and!; [by apply (Hin 4%nat "E" 4%Z)|by apply (Hin 4%nat "E" 3%Z)|].
    exists "G4", "B4". split_and!; [reflexivity|reflexivity|done|done|..].
    + by apply (Hin 7%nat "G" 4%Z).
    + by apply (Hin 11%nat "B" 4%Z).
  - split_and!; [by apply (Hin 5%nat "F" 4%Z)|by apply (Hin 5%nat "F" 3%Z)|].
    exists "A4", "C5". split_and!; [reflexivity|reflexivity|done|done|..].
    + by apply (Hin 9%nat "A" 4%Z).
    + by apply (Hin 0%nat "C" 5%Z).
  - split_and!; [by apply (Hin 7%nat "G" 4%Z)|by apply (Hin 7%nat "G" 3%Z)|].
    exists "B4", "D5". split_and!; [reflexivity|reflexivity|done|done|..].
    + by apply (Hin 11%nat "B" 4%Z).
    + by apply (Hin 2%nat "D" 5%Z).
  - split_and!; [by apply (Hin 9%nat "A" 4%Z)|by apply (Hin 9%nat "A" 3%Z)|].
    exists "C5", "E5". split_and!; [reflexivity|reflexivity|done|done|..].
    + by apply (Hin 0%nat "C" 5%Z).
    + by apply (Hin 4%nat "E" 5%Z).
  - split_and!; [by apply (Hin 11%nat "B" 4%Z)|by apply (Hin 11%nat "B" 3%Z)|].
    exists "D5", "F5". split_and!; [reflexivity|reflexivity|done|done|..].
    + by apply (Hin 2%nat "D" 5%Z).
    + by apply (Hin 5%nat "F" 5%Z).
Qed.

Ltac place_note :=
  match goal with
  | |- well_placed _ (Score.mkNote _ (IZR _) ?d _) =>
      apply well_placed_intro; [lia|lia|lia|lra]
  end.

Lemma bass_bar_generated (progression : list string) (bar total_beats : Z) :
  Py.len progression = 4%Z ->
  Forall (fun root => root ∈ progression_roots) progression ->
  (0 <= bar)%Z -> (bar * 4 + 4 <= total_beats)%Z ->
  exists notes,
    Score.MusicComposerApp.bass_notes_in progression bar = Some notes
    /\ Forall (fun n => well_placed total_beats n /\ playable "bass" n) notes.
Proof.
  intros Hlen Hroots Hbar Hend.
  destruct (progression_getitem progression bar Hlen Hbar Hroots)
    as (root & Hroot & Hok).
  destruct (root_in_table root Hok) as (_ & Hlow & _).
  unfold Score.MusicComposerApp.bass_notes_in.
  unfold Py.mod_ in *. destruct (_ =? _)%Z; [done|]. simpl in *.
  rewrite Hroot. simpl.
  eexists. split; [reflexivity|].
  repeat (apply Forall_cons; split; [split; [place_note|exact Hlow]|]).
  constructor.
Qed.

Lemma guitar_bar_generated (progression : list string)
    (bar total_beats : Z) :
  Py.len progression = 4%Z ->
  Forall (fun root => root ∈ progression_roots) progression ->
  (0 <= bar)%Z -> (bar * 4 + 4 <= total_beats)%Z ->
  exists notes,
    Score.MusicComposerApp.guitar_notes_in progression bar = Some notes
    /\ Forall (fun n => well_placed total_beats n /\ playable "guitar" n)
              notes.
Proof.
  intros Hlen Hroots Hbar Hend.
  destruct (progression_getitem progression bar Hlen Hbar Hroots)
    as (root & Hroot & Hok).
  destruct (root_in_table root Hok) as (Hin & _ & _).
  unfold Score.MusicComposerApp.guitar_notes_in.
  unfold Py.mod_ in *. destruct (_ =? _)%Z; [done|]. simpl in *.
  rewrite Hroot. simpl.
  eexists. split; [reflexivity|].
  repeat (apply Forall_cons; split; [split; [place_note|exact Hin]|]).
  constructor.
Qed.

Lemma synth_bar_generated (progression : list string) (bar total_beats : Z) :
  Py.len progression = 4%Z ->
  Forall (fun root => root ∈ progression_roots) progression ->
  (0 <= bar)%Z -> (bar * 4 + 4 <= total_beats)%Z ->
  exists notes,
    Score.MusicComposerApp.synth_notes_in progression bar = Some notes
    /\ Forall (fun n => well_placed total_beats n /\ playable "synth" n)
              notes.
Proof.
  intros Hlen Hroots Hbar Hend.
  destruct (progression_getitem progression bar Hlen Hbar Hroots)
    as (root & Hroot & Hok).
  destruct (root_in_table root Hok)
    as (Hin & _ & third & fifth & Ht & Hf & Ht0 & Hf0 & Htin & Hfin).
  unfold Score.MusicComposerApp.synth_notes_in.
  unfold Py.mod_ in *. destruct (_ =? _)%Z; [done|]. simpl in *.
  rewrite Hroot. simpl. rewrite Ht. simpl. rewrite Hf. simpl.
  rewrite !decide_False by done.
  eexists. split; [reflexivity|]. simpl.
  apply Forall_cons. split; [split; [place_note|exact Hin]|].
  apply Forall_cons. split; [split; [place_note|exact Htin]|].
  apply Forall_cons. split; [split; [place_note|exact Hfin]|].
  constructor.
Qed.

Lemma drum_beat_generated (style : string) (beat total_beats : Z) :
  (0 <= beat < total_beats)%Z ->
  Forall (fun n => well_placed total_beats n /\ playable "drums" n)
         (Score.MusicComposerApp.drum_notes_at style beat).
Proof.
  intros Hbeat. unfold Score.MusicComposerApp.drum_notes_at.
  assert (forall p v, 0 < v <= 1 -> p ∈ ["Kick"; "Snare"; "HiHat"] ->
    well_placed total_beats (Score.mkNote p (IZR beat) 1 v)
    /\ playable "drums" (Score.mkNote p (IZR beat) 1 v)) as Hnote.
  { intros p v Hv Hp. split; [apply well_placed_intro; [lia|lia|lia|lra]|].
    exact Hp. }
  repeat case_decide;
    repeat match goal with
           | |- context [if ?c then _ else _] => destruct c
           end;
    simpl;
    repeat (apply Forall_cons; split;
            [apply Hnote; [lra|rewrite !elem_of_cons; tauto]|]);
    constructor.
Qed.

Lemma bars_inside (total_beats : Z) :
  Forall (fun bar => (0 <= bar)%Z /\ (bar * 4 + 4 <= total_beats)%Z)
         (Py.range 0 (total_beats / 4)).
Proof.
  eapply Forall_impl; [apply range_bounds|]. intros bar Hbar. simpl in Hbar.
  pose proof (Z.mul_div_le total_beats 4 ltac:(lia)). lia.
Qed.

Lemma generated_notes_spec (style track_id : string)
    (total_beats : Z) :
  exists notes,
    Score.MusicComposerApp.generated_notes style total_beats track_id
    = Some notes
    /\ Forall (fun n => well_placed total_beats n /\ playable track_id n)
              notes.
Proof.
  unfold Score.MusicComposerApp.generated_notes.
  destruct (progression_of_style style) as (electronic & -> & Hlen & Hroots).
  simpl. set (progression := default electronic _) in *.
  repeat case_decide; subst.
  - eexists. split; [reflexivity|]. rewrite Forall_flat_map.
    eapply Forall_impl; [apply range_bounds|]. intros beat Hbeat.
    by apply drum_beat_generated.
  - destruct (mapM_concat_Forall
                (Score.MusicComposerApp.bass_notes_in progression)
                (fun n => well_placed total_beats n /\ playable "bass" n)
                _ _ (fun bar '(conj H1 H2) =>
                       bass_bar_generated progression bar total_beats
                                          Hlen Hroots H1 H2)
                (bars_inside total_beats)) as (yss & -> & Hall).
    by eexists.
  - destruct (mapM_concat_Forall
                (Score.MusicComposerApp.synth_notes_in progression)
                (fun n => well_placed total_beats n /\ playable "synth" n)
                _ _ (fun bar '(conj H1 H2) =>
                       synth_bar_generated progression bar total_beats
                                           Hlen Hroots H1 H2)
                (bars_inside total_beats)) as (yss & -> & Hall).
    by eexists.
  - destruct (mapM_concat_Forall
                (Score.MusicComposerApp.guitar_notes_in progression)
                (fun n => well_placed total_beats n /\ playable "guitar" n)
                _ _ (fun bar '(conj H1 H2) =>
                       guitar_bar_generated progression bar total_beats
                                            Hlen Hroots H1 H2)
                (bars_inside total_beats)) as (yss & -> & Hall).
    by eexists.
  - by exists [].
Qed.

(** X19: what [auto_generate_all] writes into a track.  For every style,
    known or not, every number of beats and every track key, the generation
    returns; every note it writes lies inside the score (it starts at beat 0
    or later and ends by the last beat), has a positive duration and a
    velocity between 0 and 1; on the drums track every pitch is Kick, Snare
    or HiHat, and on the other tracks every pitch is a name of the frequency
    table, so that no note falls back to 440 Hz. *)
Theorem generated_notes_well_placed (style track_id : string)
    (total_beats : Z) :
  exists notes,
    Score.MusicComposerApp.generated_notes style total_beats track_id
    = Some notes
    /\ Forall (fun n => well_placed total_beats n /\ playable track_id n)
              notes.
Proof. apply generated_notes_spec. Qed.

Lemma int_mono (x y : R) : 0 <= x <= y -> (Py.int x <= Py.int y)%Z.
Proof.
  intros [Hx Hxy]. unfold Py.int.
  destruct (Rle_dec 0 x); [|lra]. destruct (Rle_dec 0 y); [|lra].
  apply Zfloor_lub. pose proof (Zfloor_bound x). lra.
Qed.

Lemma well_placed_renderable (self : Score.MusicComposer) (total_beats : Z)
    (track : Score.Track) :
  0 <= Score.beat_duration self ->
  Forall (well_placed total_beats) (Score.notes track) ->
  renderable self (IZR total_beats) track.
Proof.
  intros Hbd Hnotes. unfold renderable.
  eapply Forall_impl; [exact Hnotes|].
  intros note (Hstart & Hend & Hdur & _). simpl. split.
  - unfold Score.start_sample, total_samples. split.
    + apply int_nonneg. unfold SAMPLE_RATE. nra.
    + apply int_mono. unfold SAMPLE_RATE. nra.
  - intros _. nra.
Qed.

Lemma set_bpm_spec (self0 self : Score.MusicComposer) (bpm : R) :
  Score.set_bpm self0 bpm = Some self ->
  bpm <> 0 /\ Score.bpm self = bpm /\ Score.beat_duration self = 60 / bpm.
Proof.
  unfold Score.set_bpm. destruct (Req_dec_T bpm 0); [done|].
  intros [= <-]. simpl. split_and!; [done..|lra].
Qed.

Lemma auto_generate_all_spec (style : string) (bars : Z)
    (tracks : list (string * Score.Track)) :
  exists generated,
    Score.MusicComposerApp.auto_generate_all style bars tracks
    = Some generated
    /\ Forall2 (fun old new =>
                  new.1 = old.1
                  /\ Score.name new.2 = Score.name old.2
                  /\ Score.instrument_type new.2
                     = Score.instrument_type old.2
                  /\ Score.muted new.2 = Score.muted old.2
                  /\ Score.volume new.2 = Score.volume old.2
                  /\ Forall (fun n => well_placed (bars * 4) n
                                      /\ playable new.1 n)
                            (Score.notes new.2))
               tracks generated.
Proof.
  unfold Score.MusicComposerApp.auto_generate_all.
  induction tracks as [|[track_id track] tracks (generated & IH & Hall)].
  - exists []. split; [done|constructor].
  - destruct (generated_notes_spec style track_id (bars * 4))
      as (notes & Hnotes & Hplaced).
    simpl. rewrite Hnotes. simpl. rewrite IH. simpl.
    eexists. split; [reflexivity|]. by constructor.
Qed.

(** X20: what the automatic accompaniment writes can always be composed.
    For every style and at least one bar, after [set_bpm] with a positive
    tempo of at most 10584000 beats per minute, [auto_generate_all] returns
    tracks that keep their keys, names, instruments, mute flags and volumes,
    and [compose_from_tracks] on them, for [bars * 4] beats, returns a mix of
    the full length whose samples lie within 0.9, whatever instruments the
    tracks have and whatever the generator delivers. *)
Theorem auto_generated_music_composes (style : string) (bars : Z)
    (tracks : list (string * Score.Track)) (self0 self : Score.MusicComposer)
    (bpm : R) (g : Rng.state) :
  (1 <= bars)%Z -> 0 < bpm <= 10584000 ->
  Score.set_bpm self0 bpm = Some self ->
  exists generated out g',
    Score.MusicComposerApp.auto_generate_all style bars tracks
    = Some generated
    /\ Forall2 (fun old new =>
                  new.1 = old.1
                  /\ Score.name new.2 = Score.name old.2
                  /\ Score.instrument_type new.2
                     = Score.instrument_type old.2
                  /\ Score.muted new.2 = Score.muted old.2
                  /\ Score.volume new.2 = Score.volume old.2)
               tracks generated
    /\ Score.compose_from_tracks self (map snd generated) (IZR (bars * 4)) g
       = Some (out, g')
    /\ Py.len out = total_samples self (IZR (bars * 4))
    /\ bounded_by 0.9 out.
Proof.
  intros Hbars Hbpm Hset.
  destruct (set_bpm_spec self0 self bpm Hset) as (_ & _ & Hbd).
  assert (0 < Score.beat_duration self) as Hpos.
  { rewrite Hbd. apply Rdiv_lt_0_compat; lra. }
  destruct (auto_generate_all_spec style bars tracks)
    as (generated & Hgen & Hall).
  assert (1 <= total_samples self (IZR (bars * 4)))%Z as Htot.
  { unfold total_samples.
    assert (Py.int 1 = 1%Z) as <- by (apply int_eq; lra).
    apply int_mono. split; [lra|].
    assert (4 <= IZR (bars * 4)) by (apply IZR_le; lia).
    set (q := Score.beat_duration self) in *.
    assert (q * bpm = 60) as Hq by (rewrite Hbd; field; lra).
    unfold SAMPLE_RATE. nra. }
  destruct (fun H => compose_from_tracks_total self (map snd generated)
                       (IZR (bars * 4)) g Htot H)
    as (out & g' & Hout & Hlen & Hb).
  { rewrite Forall_map. apply (Forall2_Forall_r _ _ _ _ Hall).
    apply Forall_forall. intros old _ new (_ & _ & _ & _ & _ & Hnotes).
    simpl. apply well_placed_renderable; [lra|].
    eapply Forall_impl; [exact Hnotes|]. by intros n [Hn _]. }
  exists generated, out, g'. split_and!; [done| |done..].
  eapply Forall2_impl; [exact Hall|]. simpl. tauto.
Qed.

Lemma auto_generated_music_composes_witness :
  let self0 := Score.mkComposer 120 (60.0 / 120) in
  let tracks :=
    [("synth", Score.mkTrack "Synthesizer" "synth" [] false 0.8);
     ("drums", Score.mkTrack "Drum Machine" "drums" [] false 0.8)] in
  exists generated out g',
    Score.MusicComposerApp.auto_generate_all "rock" 8 tracks = Some generated
    /\ Score.compose_from_tracks (Score.mkComposer 120 (60.0 / 120))
         (map snd generated) (IZR (8 * 4)) (Rng.State (fun _ => 0) 0)
       = Some (out, g')
    /\ bounded_by 0.9 out.
Proof.
  intros self0 tracks.
  destruct (auto_generated_music_composes "rock" 8 tracks self0
              (Score.mkComposer 120 (60.0 / 120)) 120
              (Rng.State (fun _ => 0) 0))
    as (generated & out & g' & Hgen & _ & Hout & _ & Hb).
  - lia.
  - lra.
  - unfold Score.set_bpm. destruct (Req_dec_T 120 0); [lra|reflexivity].
  - by exists generated, out, g'.
Defined.

(** ** The chord, bass line and drum generators of electric_music_composer.py *)

Lemma py_for_each_counted {A St} (J : nat -> St -> Prop)
    (body : St -> A -> option St) (l : list A) (k : nat) (s s' : St) :
  (forall k s x s', J k s -> body s x = Some s' -> J (S k) s') ->
  J k s -> Py.for_each body l s = Some s' -> J (k + length l)%nat s'.
Proof.
  intros Hbody. revert k s. induction l as [|x l IH]; intros k s Hs; simpl.
  - intros [= <-]. by rewrite Nat.add_0_r.
  - destruct (body s x) as [s1|] eqn:H1; [|done]. intros Hrun.
    replace (k + S (length l))%nat with (S k + length l)%nat by lia.
    eapply IH; [|exact Hrun]. by eapply Hbody.
Qed.

Lemma py_for_each_returns {A S} (I : S -> Prop) (body : S -> A -> option S)
    (l : list A) (s : S) :
  (forall s x, I s -> exists s', body s x = Some s' /\ I s') ->
  I s -> exists s', Py.for_each body l s = Some s' /\ I s'.
Proof.
  intros Hbody. revert s. induction l as [|x l IH]; intros s Hs; simpl.
  - by exists s.
  - destruct (Hbody s x Hs) as (s1 & -> & Hs1). by apply IH.
Qed.

Lemma electric_chord_voices_within (freq duration velocity : R) :
  stays_within (Electric.Synthesizer.pad_sound freq duration velocity)
               (Rabs velocity)
  /\ stays_within (Electric.ElectricGuitar.clean_tone freq duration velocity)
                  (Rabs velocity)
  /\ stays_within (Electric.Synthesizer.sine_wave freq duration velocity)
                  (Rabs velocity).
Proof.
  split_and!.
  - unfold Electric.Synthesizer.pad_sound. any_time_axis.
    apply electric_voice_within. rewrite <- list_fmap_compose.
    apply bounded_by_map. intros ti. simpl. apply mix3_sample; lra.
  - unfold Electric.ElectricGuitar.clean_tone. any_time_axis.
    apply electric_voice_within. rewrite <- list_fmap_compose.
    apply bounded_by_map. intros ti. simpl. apply mix4_sample; lra.
  - unfold Electric.Synthesizer.sine_wave. any_time_axis.
    apply electric_voice_within, bounded_by_map. intros ti. apply sine_sample.
Qed.

Lemma chord_voice_within (instrument : string) (freq duration : R)
    (w : list R) :
  (if decide (instrument = "synth") then
     Electric.Synthesizer.pad_sound freq duration 0.5
   else if decide (instrument = "guitar") then
     Electric.ElectricGuitar.clean_tone freq duration 0.5
   else Electric.Synthesizer.sine_wave freq duration 0.5) = Some w ->
  bounded_by 0.5 w.
Proof.
  destruct (electric_chord_voices_within freq duration 0.5)
    as (Hpad & Hclean & Hsine).
  rewrite (Rabs_pos_eq 0.5) in Hpad, Hclean, Hsine by lra.
  repeat case_decide; intros Hw; [by apply Hpad|by apply Hclean|].
  by apply Hsine.
Qed.

Lemma bounded_by_weaken (B B' : R) (l : list R) :
  B <= B' -> bounded_by B l -> bounded_by B' l.
Proof.
  intros HB Hl. eapply Forall_impl; [exact Hl|]. simpl. intros x ?. lra.
Qed.

Lemma bounded_by_slice (B : R) (l : list R) (start stop : option Z) :
  bounded_by B l -> bounded_by B (Py.slice l start stop).
Proof.
  intros Hl. unfold Py.slice. destruct (Py.bounds _ _ _) as [lo m].
  by apply Forall_take, Forall_drop.
Qed.

Lemma iadd_bounded (B C : R) (a v a' : list R) :
  Np.iadd a v = Some a' -> bounded_by B a -> bounded_by C v ->
  length a' = length a /\ bounded_by (B + C) a'.
Proof.
  intros Hadd Ha Hv. split; [by eapply iadd_length|].
  unfold Np.iadd in Hadd.
  destruct (Np.broadcast_to v (length a)) as [v'|] eqn:Hv'; [|done].
  injection Hadd as <-.
  pose proof (broadcast_to_Forall _ _ _ _ Hv' Hv) as Hbv.
  apply Forall_lookup. intros i y Hy.
  apply lookup_zip_with_Some in Hy as (x & z & -> & Hx & Hz).
  apply (Forall_lookup_1 _ _ _ _ Ha) in Hx.
  apply (Forall_lookup_1 _ _ _ _ Hbv) in Hz. simpl in *.
  apply Rabs_le_elim in Hx. apply Rabs_le_elim in Hz. apply Rabs_le. lra.
Qed.

Lemma chord_note_bounded (B root_freq duration : R) (instrument : string)
    (chord_wave chord_wave' : list R) (semitones : Z) :
  0 <= B ->
  Electric.chord_note root_freq duration instrument chord_wave semitones
  = Some chord_wave' ->
  bounded_by B chord_wave ->
  length chord_wave' = length chord_wave /\ bounded_by (B + 0.5) chord_wave'.
Proof.
  intros HB Hnote Hb. unfold Electric.chord_note in Hnote.
  destruct (if decide (instrument = "synth") then _ else _) as [w|] eqn:Hw;
    [|done].
  apply chord_voice_within in Hw. simpl in Hnote.
  destruct (if (_ <? _)%Z then _ else _) as [padded|] eqn:Hpad; [|done].
  simpl in Hnote.
  assert (bounded_by 0.5 padded) as Hp.
  { destruct (_ <? _)%Z.
    - unfold Np.pad_right in Hpad. destruct (_ <? _)%Z; [done|].
      injection Hpad as <-. apply Forall_app. split; [done|].
      apply Forall_replicate. rewrite Rabs_R0. lra.
    - by injection Hpad as <-. }
  eapply iadd_bounded; [exact Hnote|done|]. by apply bounded_by_slice.
Qed.

Lemma chord_pattern_cases (chord_type : string) :
  exists major,
    Electric.CHORD_PATTERNS !! "major" = Some major
    /\ (1 <= length (default major (Electric.CHORD_PATTERNS !! chord_type)))%nat.
Proof.
  exists [0; 4; 7]%Z. split; [reflexivity|].
  destruct (Electric.CHORD_PATTERNS !! chord_type) as [l|] eqn:Hl;
    [|simpl; lia].
  apply elem_of_list_to_map_2 in Hl.
  repeat (apply elem_of_cons in Hl as [Hl|Hl]; [injection Hl as -> ->|]);
    [..|by apply elem_of_nil in Hl]; simpl; lia.
Qed.

Lemma electric_decimal_constants :
  Py.int (0.01 * SAMPLE_RATE) = 441%Z /\ Py.int (0.2 * SAMPLE_RATE) = 8820%Z
  /\ Py.int (0.02 * SAMPLE_RATE) = 882%Z
  /\ Py.int (0.15 * SAMPLE_RATE) = 6615%Z.
Proof. split_and!; apply int_eq; unfold SAMPLE_RATE; lra. Qed.

Lemma electric_chord_voice_returns (instrument : string)
    (freq duration : R) :
  (17640 <= Py.int (SAMPLE_RATE * duration))%Z ->
  returns_len
    (if decide (instrument = "synth") then
       Electric.Synthesizer.pad_sound freq duration 0.5
     else if decide (instrument = "guitar") then
       Electric.ElectricGuitar.clean_tone freq duration 0.5
     else Electric.Synthesizer.sine_wave freq duration 0.5)
    (Py.int (SAMPLE_RATE * duration)).
Proof.
  intros Hn.
  assert (0 < duration) as Hd.
  { assert (0 < SAMPLE_RATE * duration) as Hpos by (apply int_pos_arg; lia).
    unfold SAMPLE_RATE in Hpos. lra. }
  destruct (electric_oscillators_len freq duration 0.5 Hd) as [Hosc Hpad].
  repeat case_decide.
  - by apply Hpad.
  - unfold Electric.ElectricGuitar.clean_tone.
    pose proof (sample_count_nonneg0 duration ltac:(lra)) as Hn0.
    assert (0 <= duration) as Hd0 by lra. on_time_axis Hd0.
    destruct electric_decimal_constants as (H1 & H2 & _).
    apply electric_shaped_len; [len_solve|rewrite H1; lia|rewrite H2; lia].
  - apply Hosc. lia.
Qed.

Lemma electric_pad_raises (freq duration velocity : R) :
  (Py.int (SAMPLE_RATE * duration) < 17640)%Z ->
  Electric.Synthesizer.pad_sound freq duration velocity = None.
Proof.
  intros Hn. unfold Electric.Synthesizer.pad_sound.
  destruct (Z.lt_ge_cases (Py.int (SAMPLE_RATE * duration)) 0) as [Hneg|Hpos].
  { by rewrite linspace_negative. }
  destruct (linspace_Some 0 duration (Py.int (SAMPLE_RATE * duration)) false
              Hpos) as (t & -> & Hl).
  simpl. destruct int_decimal_constants as (_ & _ & HA & HR).
  set (wave := map _ (map _ t)).
  assert (Py.len wave = Py.int (SAMPLE_RATE * duration)) as Hw.
  { unfold wave. len_solve. }
  destruct (Z.lt_ge_cases (Py.len wave) 13230).
  - apply electric_envelope_raises; rewrite HA; lia.
  - apply electric_envelope_raises_release; rewrite ?HA, ?HR; lia.
Qed.

(** X21: [generate_chord] averages its notes.  Whatever it returns has
    [int(44100 * duration)] samples, each within 0.5, for every root, chord
    type and instrument; it returns whenever the chord has at least 17640
    samples (0.4 s, the release of the pad voice); and a synth chord of
    fewer samples raises, the envelope of [pad_sound] being longer than the
    note. *)
Theorem generate_chord_bounded (self : Electric.MusicComposer)
    (root_note chord_type : string) (duration : R) (instrument : string) :
  let n := Py.int (SAMPLE_RATE * duration) in
  let chord :=
    Electric.generate_chord self root_note chord_type duration instrument in
  (forall out, chord = Some out -> Py.len out = n /\ bounded_by 0.5 out)
  /\ ((17640 <= n)%Z -> is_Some chord)
  /\ (instrument = "synth" -> (n < 17640)%Z -> chord = None).
Proof.
  intros n chord. unfold chord, Electric.generate_chord.
  destruct (chord_pattern_cases chord_type) as (major & -> & Hpat). simpl.
  set (pattern := default major _) in *.
  set (root_freq := Electric.get_frequency root_note).
  unfold Np.zeros. fold n. split_and!.
  - intros out. destruct (Z.ltb_spec n 0) as [|Hn]; [done|]. simpl.
    destruct (Py.for_each _ pattern _) as [cw|] eqn:Hrun; [|done].
    simpl. intros [= <-].
    apply (py_for_each_counted
             (fun k cw => length cw = Z.to_nat n
                          /\ bounded_by (0.5 * INR k) cw)) with (k := 0%nat)
      in Hrun.
    + destruct Hrun as [Hlen Hb]. split; [len_solve|].
      unfold bounded_by. rewrite Forall_map.
      eapply Forall_impl; [exact Hb|]. intros x Hx. simpl in *.
      unfold Py.len. rewrite <- INR_IZR_INZ.
      assert (1 <= INR (length pattern)) as HL.
      { change 1 with (INR 1). apply le_INR. lia. }
      set (L := INR (length pattern)) in *.
      set (y := x / L). assert (x = y * L) as Hy by (unfold y; field; lra).
      apply Rabs_le_elim in Hx. apply Rabs_le. nra.
    + intros k s x s' [Hlen Hb] Hnote.
      destruct (chord_note_bounded (0.5 * INR k) _ _ _ _ _ _
                  ltac:(pose proof (pos_INR k); lra) Hnote Hb) as [Hl' Hb'].
      split; [lia|]. rewrite S_INR.
      eapply bounded_by_weaken; [|exact Hb']. lra.
    + split; [by rewrite length_replicate|].
      apply Forall_replicate. rewrite Rabs_R0. simpl. lra.
  - intros Hn. destruct (Z.ltb_spec n 0); [lia|]. simpl.
    destruct (py_for_each_returns (fun cw => Py.len cw = n)
                (Electric.chord_note root_freq duration instrument) pattern
                (replicate (Z.to_nat n) 0)) as (cw & -> & _); [| |done].
    + intros cw semitones Hcw. unfold Electric.chord_note.
      destruct (electric_chord_voice_returns instrument
                  (root_freq * Rpower 2 (IZR semitones / 12)) duration Hn)
        as (w & -> & Hw).
      simpl. fold n in Hw. rewrite Hw, Hcw, Z.ltb_irrefl. simpl.
      rewrite <- Hw, slice_whole. unfold Np.iadd.
      assert (length w = length cw) as Heq by (unfold Py.len in *; lia).
      rewrite <- Heq, broadcast_to_same. simpl. eexists. split; [done|].
      unfold Py.len in *. rewrite length_zip_with. lia.
    + unfold Py.len. rewrite length_replicate. lia.
  - intros -> Hn. destruct (Z.ltb_spec n 0); [done|]. simpl.
    destruct pattern as [|semitones pattern]; [simpl in Hpat; lia|].
    simpl. unfold Electric.chord_note at 1.
    rewrite decide_True by done. by rewrite electric_pad_raises.
Qed.

Lemma generate_chord_bounded_witness :
  is_Some (Electric.generate_chord (Electric.mkComposer 120 (60.0 / 120))
                                   "C4" "major" 1 "guitar").
Proof.
  destruct (generate_chord_bounded (Electric.mkComposer 120 (60.0 / 120))
              "C4" "major" 1 "guitar") as (_ & Hret & _).
  apply Hret.
  assert (Py.int (SAMPLE_RATE * 1) = 44100%Z) as ->; [|lia].
  apply int_eq; unfold SAMPLE_RATE; lra.
Defined.

Lemma range_nil (a b : Z) : (b <= a)%Z -> Py.range a b = [].
Proof.
  intros Hab. unfold Py.range. by replace (Z.to_nat (b - a)) with 0%nat by lia.
Qed.

Lemma range_cons (a b : Z) :
  (a < b)%Z -> Py.range a b = a :: Py.range (a + 1) b.
Proof.
  intros Hab. unfold Py.range.
  replace (Z.to_nat (b - a)) with (S (Z.to_nat (b - (a + 1)))) by lia.
  simpl. f_equal; [lia|]. rewrite <- seq_shift, map_map.
  apply map_ext. intros k. lia.
Qed.

Lemma length_range (a b : Z) : length (Py.range a b) = Z.to_nat (b - a).
Proof. unfold Py.range. by rewrite length_map, length_seq. Qed.

Lemma mapM_Forall {A B} (f : A -> option B) (P : A -> Prop) (Q : B -> Prop)
    (l : list A) :
  (forall x, P x -> exists y, f x = Some y /\ Q y) ->
  Forall P l ->
  exists ys, mapM f l = Some ys /\ length ys = length l /\ Forall Q ys.
Proof.
  intros Hf. induction 1 as [|x l Hx _ (ys & Hys & Hlen & Hall)].
  - by exists [].
  - destruct (Hf x Hx) as (y & Hy & Hq). exists (y :: ys). simpl.
    rewrite Hy. simpl. rewrite Hys. simpl. split_and!; [done|lia|].
    by constructor.
Qed.

Lemma length_concat_uniform {A} (m : nat) (ls : list (list A)) :
  Forall (fun l => length l = m) ls ->
  length (concat ls) = (m * length ls)%nat.
Proof.
  induction 1 as [|l ls Hl _ IH]; simpl; [lia|].
  rewrite length_app, IH, Hl. lia.
Qed.

Lemma electric_finger_bass_returns (freq duration velocity : R) :
  (6615 <= Py.int (SAMPLE_RATE * duration))%Z ->
  returns_within (Electric.ElectricBass.finger_bass freq duration velocity)
                 (Py.int (SAMPLE_RATE * duration)) (Rabs velocity).
Proof.
  intros Hn. unfold Electric.ElectricBass.finger_bass.
  destruct (linspace_Some 0 duration (Py.int (SAMPLE_RATE * duration)) false)
    as (t & -> & Hl); [lia|].
  simpl. destruct electric_decimal_constants as (_ & _ & HA & HR).
  set (wave := map _ (map _ t)).
  assert (Py.len wave = Py.int (SAMPLE_RATE * duration)) as Hw.
  { unfold wave. len_solve. }
  destruct (electric_shaped_len wave duration 0.02 0.15 _ Hw)
    as (buf & Hbuf & Hlen); [rewrite HA; lia|rewrite HR; lia|].
  exists buf. split_and!; [done..|].
  apply (electric_voice_within (Rabs velocity) wave duration 0.02 0.15);
    [|done].
  unfold wave. rewrite <- list_fmap_compose. apply bounded_by_map.
  intros ti. simpl. apply mix3_sample; lra.
Qed.

Lemma electric_finger_bass_raises (freq duration velocity : R) :
  (Py.int (SAMPLE_RATE * duration) < 6615)%Z ->
  Electric.ElectricBass.finger_bass freq duration velocity = None.
Proof.
  intros Hn. unfold Electric.ElectricBass.finger_bass.
  destruct (Z.lt_ge_cases (Py.int (SAMPLE_RATE * duration)) 0) as [Hneg|Hpos].
  { by rewrite linspace_negative. }
  destruct (linspace_Some 0 duration (Py.int (SAMPLE_RATE * duration)) false
              Hpos) as (t & -> & Hl).
  simpl. destruct electric_decimal_constants as (_ & _ & HA & HR).
  set (wave := map _ (map _ t)).
  assert (Py.len wave = Py.int (SAMPLE_RATE * duration)) as Hw.
  { unfold wave. len_solve. }
  destruct (Z.lt_ge_cases (Py.len wave) 882).
  - apply electric_envelope_raises; rewrite HA; lia.
  - apply electric_envelope_raises_release; rewrite ?HA, ?HR; lia.
Qed.

Lemma bassline_root (root_notes : list string) (bar : Z) :
  root_notes <> [] ->
  exists root,
    (Py.mod_ bar (Py.len root_notes) ≫= Py.getitem root_notes) = Some root.
Proof.
  intros Hne. unfold Py.mod_, Py.getitem.
  assert (0 < Py.len root_notes)%Z as Hlen.
  { destruct root_notes; [done|]. unfold Py.len. simpl. lia. }
  destruct (Z.eqb_spec (Py.len root_notes) 0); [lia|]. simpl.
  pose proof (Z.mod_pos_bound bar (Py.len root_notes) Hlen) as Hmod.
  destruct (Z.ltb_spec (bar mod Py.len root_notes) 0); [lia|].
  destruct (lookup_lt_is_Some_2 root_notes
              (Z.to_nat (bar mod Py.len root_notes))) as [root Hroot].
  { unfold Py.len in *. lia. }
  by exists root.
Qed.

Lemma bassline_bar_returns (self : Electric.MusicComposer)
    (root_notes : list string) (bar : Z) :
  root_notes <> [] ->
  (6615 <= Py.int (SAMPLE_RATE * Electric.beat_duration self))%Z ->
  exists waves,
    Electric.bassline_bar self root_notes bar = Some waves
    /\ length waves = 4%nat
    /\ Forall (fun w =>
                 Py.len w = Py.int (SAMPLE_RATE * Electric.beat_duration self)
                 /\ bounded_by 0.9 w) waves.
Proof.
  intros Hne Hn. unfold Electric.bassline_bar.
  destruct (bassline_root root_notes bar Hne) as (root & Hroot).
  destruct (Py.mod_ bar (Py.len root_notes)) as [idx|]; [|done].
  simpl in *. rewrite Hroot. simpl.
  set (freq := Electric.get_frequency _).
  assert (forall f v, 0 <= v <= 0.9 ->
    exists w,
      Electric.ElectricBass.finger_bass f (Electric.beat_duration self) v
      = Some w
      /\ Py.len w = Py.int (SAMPLE_RATE * Electric.beat_duration self)
      /\ bounded_by 0.9 w) as Hbass.
  { intros f v Hv.
    destruct (electric_finger_bass_returns f (Electric.beat_duration self)
                v Hn) as (w & Hw & Hl & Hb).
    exists w. split_and!; [done..|].
    eapply bounded_by_weaken; [|exact Hb]. rewrite Rabs_pos_eq; lra. }
  destruct (Hbass freq 0.9) as (w1 & -> & H1); [lra|].
  destruct (Hbass freq 0.7) as (w2 & -> & H2); [lra|].
  destruct (Hbass (freq * 1.5) 0.7) as (w3 & -> & H3); [lra|].
  simpl. eexists. split; [reflexivity|]. split; [done|].
  repeat (apply Forall_cons; split; [assumption|]). constructor.
Qed.

Lemma bassline_bar_raises (self : Electric.MusicComposer)
    (root_notes : list string) (bar : Z) :
  (Py.int (SAMPLE_RATE * Electric.beat_duration self) < 6615)%Z ->
  Electric.bassline_bar self root_notes bar = None.
Proof.
  intros Hn. unfold Electric.bassline_bar.
  destruct (Py.mod_ bar (Py.len root_notes)) as [idx|]; [|done]. simpl.
  destruct (Py.getitem root_notes idx) as [root|]; [|done]. simpl.
  rewrite !electric_finger_bass_raises by done. reflexivity.
Qed.

(** X22: [generate_bassline] returns four bass notes per bar, or raises.
    For at least one bar, a list of roots that is not empty and a beat of at
    least 6615 samples (0.15 s, the release of the bass voice, a tempo of at
    most 400 BPM) it returns [4 * bars] notes of one beat each, every sample
    within 0.9.  It raises when [bars] is 0 or negative ([np.concatenate]
    refuses an empty list), when the list of roots is empty, and when the
    beat is shorter than 6615 samples. *)
Theorem generate_bassline_length (self : Electric.MusicComposer)
    (root_notes : list string) (bars : Z) :
  let n := Py.int (SAMPLE_RATE * Electric.beat_duration self) in
  let bassline := Electric.generate_bassline self root_notes bars in
  ((bars <= 0)%Z -> bassline = None)
  /\ ((1 <= bars)%Z -> root_notes = [] -> bassline = None)
  /\ ((1 <= bars)%Z -> (n < 6615)%Z -> bassline = None)
  /\ ((1 <= bars)%Z -> root_notes <> [] -> (6615 <= n)%Z ->
      exists out,
        bassline = Some out
        /\ Py.len out = (4 * n * bars)%Z
        /\ bounded_by 0.9 out).
Proof.
  intros n bassline. unfold bassline, Electric.generate_bassline.
  split_and!.
  - intros Hbars. by rewrite range_nil by lia.
  - intros Hbars ->. rewrite range_cons by lia. reflexivity.
  - intros Hbars Hn. rewrite range_cons by lia. simpl.
    by rewrite bassline_bar_raises.
  - intros Hbars Hne Hn.
    destruct (mapM_Forall (Electric.bassline_bar self root_notes)
                (fun _ => True)
                (fun waves =>
                   length waves = 4%nat
                   /\ Forall (fun w => Py.len w = n /\ bounded_by 0.9 w)
                             waves)
                (Py.range 0 bars)) as (yss & -> & Hlen & Hall).
    { intros bar _. by apply bassline_bar_returns. }
    { apply Forall_forall. done. }
    simpl. rewrite length_range in Hlen.
    assert (length (concat yss) = (4 * length yss)%nat) as Hwaves.
    { apply length_concat_uniform. eapply Forall_impl; [exact Hall|].
      by intros waves [? _]. }
    assert (Forall (fun w => Py.len w = n /\ bounded_by 0.9 w) (concat yss))
      as Hw.
    { apply Forall_concat. eapply Forall_impl; [exact Hall|].
      by intros waves [_ ?]. }
    unfold Np.concatenate.
    destruct (concat yss) as [|w ws] eqn:Hc; [simpl in Hwaves; lia|].
    rewrite <- Hc in *. eexists. split; [reflexivity|]. split.
    + unfold Py.len.
      rewrite (length_concat_uniform (Z.to_nat n)), Hwaves.
      * assert (0 <= n)%Z by lia. lia.
      * eapply Forall_impl; [exact Hw|]. intros w' [Hl _].
        unfold Py.len in Hl. lia.
    + apply Forall_concat. eapply Forall_impl; [exact Hw|].
      by intros w' [_ ?].
Qed.

Lemma generate_bassline_length_witness :
  exists out,
    Electric.generate_bassline (Electric.mkComposer 120 (60.0 / 120))
                               ["C4"; "G4"] 2 = Some out
    /\ Py.len out = (4 * 22050 * 2)%Z
    /\ bounded_by 0.9 out.
Proof.
  assert (Py.int (SAMPLE_RATE
                  * Electric.beat_duration
                      (Electric.mkComposer 120 (60.0 / 120))) = 22050%Z)
    as Hn.
  { apply int_eq; simpl; unfold SAMPLE_RATE; lra. }
  destruct (generate_bassline_length (Electric.mkComposer 120 (60.0 / 120))
              ["C4"; "G4"] 2) as (_ & _ & _ & Hret).
  rewrite Hn in Hret. apply Hret; [lia|done|lia].
Defined.

Lemma for_each_counted {A St} (J : nat -> St -> Rng.state -> Prop)
    (P : A -> Prop) (body : St -> A -> Rng.M St) (l : list A) (k : nat)
    (s : St) (g : Rng.state) :
  (forall k s x g, J k s g -> P x ->
     exists s' g', body s x g = Some (s', g') /\ J (S k) s' g') ->
  Forall P l -> J k s g ->
  exists s' g',
    Rng.for_each body l s g = Some (s', g') /\ J (k + length l)%nat s' g'.
Proof.
  intros Hbody Hl. revert k s g.
  induction Hl as [|x l Hx Hl IH]; intros k s g Hs; simpl.
  - exists s, g. by rewrite Nat.add_0_r.
  - unfold Rng.bind. destruct (Hbody k s x g Hs Hx) as (s1 & g1 & -> & Hs1).
    replace (k + S (length l))%nat with (S k + length l)%nat by lia.
    by apply IH.
Qed.

Lemma hit_added (total : Z) (drums hit : list R) (start : Z) :
  Py.len drums = total -> (0 <= start <= total)%Z ->
  exists drums',
    Electric.add_hit total drums hit start = Some drums'
    /\ Py.len drums' = total.
Proof.
  intros Hlen Hstart. unfold Electric.add_hit.
  rewrite iadd_slice_window by done. eexists. split; [reflexivity|].
  pose proof (iadd_slice_window drums hit start total Hlen Hstart) as Heq.
  simpl in Heq. apply iadd_slice_length in Heq. unfold Py.len in *. lia.
Qed.

Lemma default_hit_counts :
  Z.to_nat (Py.int (SAMPLE_RATE * DrumMachine.snare_default_duration))
  = Z.to_nat 8820
  /\ Z.to_nat (Py.int (SAMPLE_RATE * DrumMachine.hihat_default_duration))
     = Z.to_nat 4410.
Proof.
  unfold DrumMachine.snare_default_duration,
    DrumMachine.hihat_default_duration.
  split.
  - rewrite (int_eq 8820); [done|unfold SAMPLE_RATE; lra..].
  - rewrite (int_eq 4410); [done|unfold SAMPLE_RATE; lra..].
Qed.

Lemma kick_hit_added (total : Z) (drums : list R) (start : Z)
    (g : Rng.state) :
  Py.len drums = total -> (0 <= start <= total)%Z ->
  exists drums',
    (kick <~ Rng.lift (DrumMachine.kick DrumMachine.kick_default_duration 1.0) ;;
     Rng.lift (Electric.add_hit total drums kick start)) g
    = Some (drums', g)
    /\ Py.len drums' = total.
Proof.
  intros Hlen Hstart.
  destruct (kick_returns DrumMachine.kick_default_duration 1.0) as [kick Hk].
  { unfold DrumMachine.kick_default_duration. lra. }
  destruct (hit_added total drums kick start Hlen Hstart)
    as (drums' & Hadd & Hlen').
  exists drums'. split; [|done].
  unfold Rng.bind, Rng.lift. by rewrite Hk, Hadd.
Qed.

Lemma snare_hit_added (total : Z) (drums : list R) (start : Z)
    (g : Rng.state) :
  Py.len drums = total -> (0 <= start <= total)%Z ->
  exists drums',
    (snare <~ DrumMachine.snare DrumMachine.snare_default_duration 1.0 ;;
     Rng.lift (Electric.add_hit total drums snare start)) g
    = Some (drums', advance (Z.to_nat 8820) g)
    /\ Py.len drums' = total.
Proof.
  intros Hlen Hstart.
  destruct (percussion_run DrumMachine.snare_default_duration 1.0 g)
    as (Hs & _).
  { unfold DrumMachine.snare_default_duration. lra. }
  destruct default_hit_counts as [Hc _]. rewrite Hc in Hs.
  unfold Rng.bind. rewrite Hs.
  destruct (hit_added total drums
              (map (fun x => x * 1.0 * 0.8)
                 (zip_with Rplus
                    (map (fun ti => sin (2 * PI * 200 * ti) * exp (- ti * 20))
                       (time_axis DrumMachine.snare_default_duration))
                    (zip_with (fun ui ti => ui * exp (- ti * 15) * 0.5)
                       (next_noise (Z.to_nat 8820) g)
                       (time_axis DrumMachine.snare_default_duration))))
              start Hlen Hstart) as (drums' & Hadd & Hlen').
  exists drums'. split; [|done]. unfold Rng.lift. by rewrite Hadd.
Qed.

Lemma hihat_hit_added (total : Z) (drums : list R) (start : Z) (v : R)
    (g : Rng.state) :
  Py.len drums = total -> (0 <= start <= total)%Z ->
  exists drums',
    (hihat <~ DrumMachine.hihat DrumMachine.hihat_default_duration v ;;
     Rng.lift (Electric.add_hit total drums hihat start)) g
    = Some (drums', advance (Z.to_nat 4410) g)
    /\ Py.len drums' = total.
Proof.
  intros Hlen Hstart.
  destruct (percussion_run DrumMachine.hihat_default_duration v g)
    as (_ & Hh & _).
  { unfold DrumMachine.hihat_default_duration. lra. }
  destruct default_hit_counts as [_ Hc]. rewrite Hc in Hh.
  unfold Rng.bind. rewrite Hh.
  destruct (hit_added total drums
              (zip_with (fun ni ti => ni * exp (- ti * 30) * v * 0.4)
                 (next_noise (Z.to_nat 4410) g)
                 (time_axis DrumMachine.hihat_default_duration))
              start Hlen Hstart) as (drums' & Hadd & Hlen').
  exists drums'. split; [|done]. unfold Rng.lift. by rewrite Hadd.
Qed.

Lemma advance_advance (a b : nat) (g : Rng.state) :
  advance b (advance a g) = advance (a + b) g.
Proof. unfold advance. simpl. f_equal. lia. Qed.

Lemma advance_0 (g : Rng.state) : advance 0 g = g.
Proof. destruct g. unfold advance. simpl. f_equal. lia. Qed.

Lemma drum_beat_runs (total n bar_start : Z) (drums : list R) (beat : Z)
    (g : Rng.state) :
  (0 <= n)%Z -> Py.len drums = total -> (0 <= bar_start)%Z ->
  (bar_start + 4 * n <= total)%Z -> beat ∈ [0; 1; 2; 3]%Z ->
  exists drums',
    Electric.drum_beat total n bar_start drums beat g
    = Some (drums',
            advance (if decide (beat ∈ [1; 3]%Z) then Z.to_nat 17640 else Z.to_nat 8820) g)
    /\ Py.len drums' = total.
Proof.
  intros Hn Hlen Hbar Hend Hbeat.
  assert (0 <= beat <= 3)%Z as Hb.
  { repeat (apply elem_of_cons in Hbeat as [->|Hbeat]); try lia.
    by apply elem_of_nil in Hbeat. }
  assert (0 <= n / 2 <= n)%Z as Hhalf.
  { split; [apply Z.div_pos; lia|].
    apply Z.div_le_upper_bound; lia. }
  assert (0 <= bar_start + beat * n <= total)%Z as Hstart by nia.
  assert (0 <= bar_start + beat * n + 1 * (n / 2) <= total)%Z as Hstart2
    by nia.
  unfold Electric.drum_beat. unfold Rng.bind at 1.
  assert (exists d1 g1,
    (if decide (beat ∈ [0; 2]%Z)
     then kick <~ Rng.lift
            (DrumMachine.kick DrumMachine.kick_default_duration 1.0) ;;
          Rng.lift (Electric.add_hit total drums kick
                                     (bar_start + beat * n))
     else Rng.ret drums) g = Some (d1, g1)
    /\ g1 = g /\ Py.len d1 = total) as (d1 & g1 & -> & -> & Hl1).
  { case_decide.
    - destruct (kick_hit_added total drums (bar_start + beat * n) g Hlen
                  Hstart) as (d1 & Hd1 & Hl1).
      by exists d1, g.
    - by exists drums, g. }
  unfold Rng.bind at 1.
  assert (exists d2 g2,
    (if decide (beat ∈ [1; 3]%Z)
     then snare <~ DrumMachine.snare DrumMachine.snare_default_duration
                     1.0 ;;
          Rng.lift (Electric.add_hit total d1 snare (bar_start + beat * n))
     else Rng.ret d1) g = Some (d2, g2)
    /\ g2 = advance (if decide (beat ∈ [1; 3]%Z) then Z.to_nat 8820 else 0%nat) g
    /\ Py.len d2 = total) as (d2 & g2 & -> & -> & Hl2).
  { case_decide.
    - destruct (snare_hit_added total d1 (bar_start + beat * n) g Hl1
                  Hstart) as (d2 & Hd2 & Hl2).
      by exists d2, (advance (Z.to_nat 8820) g).
    - exists d1, g. by rewrite advance_0. }
  set (g2 := advance (if decide (beat ∈ [1; 3]%Z) then Z.to_nat 8820 else 0%nat) g).
  replace (Py.range 0 2) with [0; 1]%Z by reflexivity. simpl.
  unfold Rng.bind at 1.
  replace (bar_start + beat * n + 0 * (n / 2))%Z
    with (bar_start + beat * n)%Z by lia.
  destruct (hihat_hit_added total d2 (bar_start + beat * n) 0.6 g2 Hl2
              Hstart) as (d3 & -> & Hl3).
  unfold Rng.bind at 1.
  destruct (hihat_hit_added total d3 (bar_start + beat * n + 1 * (n / 2))
              0.4 (advance (Z.to_nat 4410) g2) Hl3 Hstart2) as (d4 & -> & Hl4).
  exists d4. split; [|done]. unfold Rng.ret, g2. rewrite !advance_advance.
  case_decide; do 3 f_equal; lia.
Qed.

Lemma drum_bar_runs (total n bar_start : Z) (drums : list R)
    (g : Rng.state) :
  (0 <= n)%Z -> Py.len drums = total -> (0 <= bar_start)%Z ->
  (bar_start + 4 * n <= total)%Z ->
  exists drums',
    Rng.for_each (Electric.drum_beat total n bar_start) (Py.range 0 4)
                 drums g
    = Some (drums', advance (Z.to_nat 52920) g)
    /\ Py.len drums' = total.
Proof.
  intros Hn Hlen Hbar Hend.
  replace (Py.range 0 4) with [0; 1; 2; 3]%Z by reflexivity. simpl.
  unfold Rng.bind at 1.
  destruct (drum_beat_runs total n bar_start drums 0 g Hn Hlen Hbar Hend)
    as (d1 & -> & Hl1); [rewrite !elem_of_cons; tauto|].
  unfold Rng.bind at 1.
  match goal with |- context [Electric.drum_beat _ _ _ d1 1 ?g1] =>
    destruct (drum_beat_runs total n bar_start d1 1 g1 Hn Hl1 Hbar Hend)
      as (d2 & -> & Hl2); [rewrite !elem_of_cons; tauto|] end.
  unfold Rng.bind at 1.
  match goal with |- context [Electric.drum_beat _ _ _ d2 2 ?g2] =>
    destruct (drum_beat_runs total n bar_start d2 2 g2 Hn Hl2 Hbar Hend)
      as (d3 & -> & Hl3); [rewrite !elem_of_cons; tauto|] end.
  unfold Rng.bind at 1.
  match goal with |- context [Electric.drum_beat _ _ _ d3 3 ?g3] =>
    destruct (drum_beat_runs total n bar_start d3 3 g3 Hn Hl3 Hbar Hend)
      as (d4 & -> & Hl4); [rewrite !elem_of_cons; tauto|] end.
  exists d4. split; [|done]. unfold Rng.ret.
  rewrite !advance_advance. reflexivity.
Qed.

(** X23: the drum pattern of [bars] bars is four beats per bar long and
    draws 52920 noise samples per bar.  With a beat of [n >= 0] samples and
    [bars >= 0], [generate_drum_pattern] returns a buffer of [n * 4 * bars]
    samples and leaves the generator [52920 * bars] draws further: a snare
    of 8820 draws on beats 1 and 3 and two hi-hats of 4410 draws on every
    beat, the kick drawing nothing.  For a negative number of bars and a
    beat of at least one sample the call raises. *)
Theorem generate_drum_pattern_runs (self : Electric.MusicComposer)
    (bars : Z) (g : Rng.state) :
  let n := Py.int (SAMPLE_RATE * Electric.beat_duration self) in
  (0 <= n)%Z ->
  ((0 <= bars)%Z ->
   exists drums,
     Electric.generate_drum_pattern self bars g
     = Some (drums, advance (Z.to_nat (52920 * bars)) g)
     /\ Py.len drums = (n * 4 * bars)%Z)
  /\ ((bars < 0)%Z -> (0 < n)%Z ->
      Electric.generate_drum_pattern self bars g = None).
Proof.
  intros n Hn. unfold Electric.generate_drum_pattern. fold n. split.
  - intros Hbars. set (total := (n * 4 * bars)%Z).
    assert (0 <= total)%Z as Htotal by (unfold total; nia).
    unfold Rng.bind at 1, Rng.lift at 1, Np.zeros.
    destruct (Z.ltb_spec total 0) as [?|_]; [lia|].
    destruct (for_each_counted
      (fun k drums g' =>
         Py.len drums = total /\ g' = advance (Z.to_nat (52920 * Z.of_nat k)) g)
      (fun bar => (0 <= bar < bars)%Z)
      (fun drums bar =>
         Rng.for_each (Electric.drum_beat total n (bar * (n * 4)))
                      (Py.range 0 4) drums)
      (Py.range 0 bars) 0 (replicate (Z.to_nat total) 0) g)
      as (drums & g' & Hrun & Hlen & ->).
    + intros k s bar g1 [Hs ->] Hbar.
      destruct (drum_bar_runs total n (bar * (n * 4)) s
                  (advance (Z.to_nat (52920 * Z.of_nat k)) g) Hn Hs) as (s' & Hs' & Hl');
        [nia|unfold total; nia|].
      exists s', (advance (Z.to_nat 52920) (advance (Z.to_nat (52920 * Z.of_nat k)) g)).
      split_and!; [done..|]. rewrite advance_advance. f_equal. lia.
    + apply range_bounds.
    + split; [unfold Py.len; rewrite length_replicate; lia|].
      by rewrite advance_0.
    + exists drums. rewrite Hrun. split; [|done]. do 3 f_equal.
      rewrite length_range. lia.
  - intros Hbars Hpos.
    unfold Rng.bind, Rng.lift, Np.zeros.
    destruct (Z.ltb_spec (n * 4 * bars) 0) as [_|?]; [done|nia].
Qed.

Lemma generate_drum_pattern_runs_witness :
  exists drums,
    Electric.generate_drum_pattern (Electric.mkComposer 120 (60.0 / 120)) 2
                                   (Rng.State (fun _ => 0) 0)
    = Some (drums, advance (Z.to_nat (52920 * 2)) (Rng.State (fun _ => 0) 0))
    /\ Py.len drums
       = (Py.int (SAMPLE_RATE
                  * Electric.beat_duration
                      (Electric.mkComposer 120 (60.0 / 120)))
          * 4 * 2)%Z.
Proof.
  apply (generate_drum_pattern_runs (Electric.mkComposer 120 (60.0 / 120)) 2
           (Rng.State (fun _ => 0) 0)); [|lia].
  apply int_nonneg. simpl. unfold SAMPLE_RATE. lra.
Defined.
